(** * Business discovery pipeline: lead scoring, deduplication, dispatch

    A shallow embedding of the core of the business discovery system
    (src/core/database.py, src/core/lead_scorer.py, the discovery loops of
    src/scrapers/, src/alerts/alert_manager.py and the alert polls of
    src/scheduler/task_scheduler.py), followed by the properties of the
    specification that bear on it.

    Conventions of the embedding.
    - Python [str] values are Stdlib strings; the text handled here is ASCII,
      so [str.lower] is the fold of the letters A-Z and [str.encode] is the
      identity on bytes. [hashlib.md5] is RFC 1321 on byte lists.
    - A Python dict used as a record ([Dict[str, Any]]) is a
      [gmap string value]; configuration tables whose iteration order the
      code observes are association lists.
    - The SQLite file is the list of rows of [businesses] in insertion order
      together with the append-only search history; each statement of
      database.py is a function on it.
    - Methods that touch the database, the log or the clock run in the
      state-and-exception monad [M]; its state holds the database file, the
      messages handed to [logging], the count of clock readings and the
      alerts the transports accepted. An exception is a [Raise] result.
    - What lies outside the program is a parameter: the clock, the search
      calls of the scrapers (the sources of candidate records), and the
      transports of the notifier. *)

From Stdlib Require Import ZArith Ascii String List Lia Bool.
From Stdlib Require OrderedTypeEx.
From stdpp Require Import base option list strings pretty gmap fin_maps sorting.

Open Scope string_scope.
Open Scope list_scope.
Open Scope Z_scope.

(** ** Text: the operations of Python's [str] that the code uses *)

Module Text.

(** [c.lower()] for one ASCII character. *)
Definition lower_ascii (c : ascii) : ascii :=
  let n := N_of_ascii c in
  if ((65 <=? n) && (n <=? 90))%N then ascii_of_N (n + 32) else c.

(** [s.lower()]. *)
Fixpoint lower (s : string) : string :=
  match s with
  | EmptyString => EmptyString
  | String c s' => String (lower_ascii c) (lower s')
  end.

(** [s.startswith(p)]. *)
Fixpoint startswith (p s : string) : bool :=
  match p, s with
  | EmptyString, _ => true
  | String _ _, EmptyString => false
  | String a p', String b s' => if ascii_dec a b then startswith p' s' else false
  end.

(** [p in s]: [p] occurs in [s] as a contiguous substring. *)
Fixpoint contains (p s : string) : bool :=
  startswith p s ||
  match s with
  | EmptyString => false
  | String _ s' => contains p s'
  end.

(** [sep.join(l)]. *)
Fixpoint join (sep : string) (l : list string) : string :=
  match l with
  | [] => ""
  | [x] => x
  | x :: rest => x +:+ sep +:+ join sep rest
  end.

(** [s.replace(old, new)] for a non-empty [old]: scan left to right; at a
    match emit [new] and skip the matched characters ([skip] counts the
    characters of the current match still to drop). *)
Fixpoint replace_go (old new : string) (skip : nat) (s : string) : string :=
  match s with
  | EmptyString => EmptyString
  | String c s' =>
      match skip with
      | S k => replace_go old new k s'
      | O =>
          if startswith old s
          then new +:+ replace_go old new (Nat.pred (String.length old)) s'
          else String c (replace_go old new O s')
      end
  end.

Definition replace (old new s : string) : string := replace_go old new O s.

(** The characters [str.strip()] removes from an ASCII string. *)
Definition is_space (c : ascii) : bool :=
  let n := N_of_ascii c in
  ((9 <=? n) && (n <=? 13) || (28 <=? n) && (n <=? 32))%N.

Fixpoint lstrip (s : string) : string :=
  match s with
  | EmptyString => EmptyString
  | String c s' => if is_space c then lstrip s' else s
  end.

Fixpoint rstrip (s : string) : string :=
  match s with
  | EmptyString => EmptyString
  | String c s' =>
      match rstrip s' with
      | EmptyString => if is_space c then EmptyString else String c EmptyString
      | r => String c r
      end
  end.

(** [s.strip()]. *)
Definition strip (s : string) : string := rstrip (lstrip s).

(** [str(n)] for an integer. *)
Definition of_Z (n : Z) : string := pretty n.

(** [len(l)] as a Python integer. *)
Definition len {A} (l : list A) : Z := Z.of_nat (List.length l).

(** [l[:n]]. *)
Definition slice_to {A} (n : nat) (l : list A) : list A := firstn n l.

End Text.

(** ** hashlib.md5 (RFC 1321) on byte strings *)

Module Hashlib.

Definition w32 (x : Z) : Z := x mod 2 ^ 32.

Definition rotl (x : Z) (s : Z) : Z :=
  w32 (Z.lor (Z.shiftl x s) (Z.shiftr x (32 - s))).

Definition not32 (x : Z) : Z := Z.lxor x 4294967295.

Definition K : list Z :=
  [ 3614090360; 3905402710; 606105819; 3250441966; 4118548399; 1200080426;
    2821735955; 4249261313; 1770035416; 2336552879; 4294925233; 2304563134;
    1804603682; 4254626195; 2792965006; 1236535329; 4129170786; 3225465664;
    643717713; 3921069994; 3593408605; 38016083; 3634488961; 3889429448;
    568446438; 3275163606; 4107603335; 1163531501; 2850285829; 4243563512;
    1735328473; 2368359562; 4294588738; 2272392833; 1839030562; 4259657740;
    2763975236; 1272893353; 4139469664; 3200236656; 681279174; 3936430074;
    3572445317; 76029189; 3654602809; 3873151461; 530742520; 3299628645;
    4096336452; 1126891415; 2878612391; 4237533241; 1700485571; 2399980690;
    4293915773; 2240044497; 1873313359; 4264355552; 2734768916; 1309151649;
    4149444226; 3174756917; 718787259; 3951481745 ].

Definition S : list Z :=
  [ 7; 12; 17; 22; 7; 12; 17; 22; 7; 12; 17; 22; 7; 12; 17; 22;
    5; 9; 14; 20; 5; 9; 14; 20; 5; 9; 14; 20; 5; 9; 14; 20;
    4; 11; 16; 23; 4; 11; 16; 23; 4; 11; 16; 23; 4; 11; 16; 23;
    6; 10; 15; 21; 6; 10; 15; 21; 6; 10; 15; 21; 6; 10; 15; 21 ].

(** The bytes of a string. *)
Fixpoint bytes_of (s : string) : list Z :=
  match s with
  | EmptyString => []
  | String c s' => Z.of_N (N_of_ascii c) :: bytes_of s'
  end.

(** [n] as [k] little-endian bytes. *)
Fixpoint le_bytes (k : nat) (n : Z) : list Z :=
  match k with
  | O => []
  | Datatypes.S k' => n mod 256 :: le_bytes k' (n / 256)
  end.

(** A little-endian word from its bytes. *)
Fixpoint le_word (bs : list Z) : Z :=
  match bs with
  | [] => 0
  | b :: bs' => b + 256 * le_word bs'
  end.

(** Padding: a 1 bit, zeros up to 56 mod 64, the bit length on 64 bits. *)
Definition pad (msg : list Z) : list Z :=
  let n := Z.of_nat (List.length msg) in
  let zeros := Z.to_nat ((55 - n) mod 64) in
  msg ++ [128] ++ repeat 0 zeros ++ le_bytes 8 ((8 * n) mod 2 ^ 64).

(** Cut a byte list into 16 words of a block; [chunks] cuts the padded
    message into blocks ([fuel] bounds the number of blocks). *)
Fixpoint words (k : nat) (bs : list Z) : list Z :=
  match k with
  | O => []
  | Datatypes.S k' => le_word (firstn 4 bs) :: words k' (skipn 4 bs)
  end.

Fixpoint chunks (fuel : nat) (bs : list Z) : list (list Z) :=
  match fuel, bs with
  | O, _ => []
  | _, [] => []
  | Datatypes.S f, _ => words 16 (firstn 64 bs) :: chunks f (skipn 64 bs)
  end.

Record md5_state := MkState { sA : Z; sB : Z; sC : Z; sD : Z }.

Definition init : md5_state :=
  MkState 1732584193 4023233417 2562383102 271733878.

(** One of the 64 operations of a block. *)
Definition step (M : list Z) (st : md5_state) (i : nat) : md5_state :=
  let '(MkState a b c d) := st in
  let iz := Z.of_nat i in
  let '(f, g) :=
    if iz <? 16 then (Z.lor (Z.land b c) (Z.land (not32 b) d), iz)
    else if iz <? 32 then (Z.lor (Z.land d b) (Z.land (not32 d) c), (5 * iz + 1) mod 16)
    else if iz <? 48 then (Z.lxor (Z.lxor b c) d, (3 * iz + 5) mod 16)
    else (Z.lxor c (Z.lor b (not32 d)), (7 * iz) mod 16) in
  let f' := w32 (f + a + nth i K 0 + nth (Z.to_nat g) M 0) in
  MkState d (w32 (b + rotl f' (nth i S 0))) b c.

Definition block (st : md5_state) (M : list Z) : md5_state :=
  let '(MkState a b c d) := fold_left (step M) (seq 0 64) st in
  MkState (w32 (sA st + a)) (w32 (sB st + b)) (w32 (sC st + c)) (w32 (sD st + d)).

Definition hex_digit (n : Z) : ascii :=
  if n <? 10 then ascii_of_N (Z.to_N (48 + n)) else ascii_of_N (Z.to_N (87 + n)).

Fixpoint hex (bs : list Z) : string :=
  match bs with
  | [] => EmptyString
  | b :: bs' => String (hex_digit (b / 16)) (String (hex_digit (b mod 16)) (hex bs'))
  end.

(** [hashlib.md5(data).hexdigest()]. *)
Definition md5_hexdigest (data : list Z) : string :=
  let p := pad data in
  let '(MkState a b c d) := fold_left block (chunks (List.length p) p) init in
  hex (le_bytes 4 a ++ le_bytes 4 b ++ le_bytes 4 c ++ le_bytes 4 d).

End Hashlib.

(** ** Python values, exceptions and results *)

Module Py.

(** The scalars of the [metadata] mapping. *)
Inductive scalar :=
| SNone
| SInt (n : Z)
| SStr (s : string).

(** The values a business record holds: [None], integers, strings, the
    list of scoring signals, and the [metadata] dict. *)
Inductive value :=
| VNone
| VInt (n : Z)
| VStr (s : string)
| VList (l : list string)
| VDict (d : list (string * scalar)).

(** Python truthiness. *)
Definition truthy (v : value) : bool :=
  match v with
  | VNone => false
  | VInt n => negb (n =? 0)
  | VStr s => negb (String.eqb s "")
  | VList l => match l with [] => false | _ => true end
  | VDict d => match d with [] => false | _ => true end
  end.

Inductive exn :=
| TypeError | AttributeError | KeyError   (* raised by the interpreter *)
| IntegrityError | BindingError           (* raised by sqlite3 *)
| OverflowError                           (* an integer SQLite cannot hold *)
| TransportError.                         (* raised by smtplib, requests, plyer *)

Inductive result (A : Type) :=
| Ok (a : A)
| Raise (e : exn).
Arguments Ok {A} a.
Arguments Raise {A} e.

Definition bind {A B} (r : result A) (k : A -> result B) : result B :=
  match r with
  | Ok a => k a
  | Raise e => Raise e
  end.

(** [d.get(k)] and [d.get(k, dflt)] on a dict of values. *)
Definition get (d : gmap string value) (k : string) : value :=
  default VNone (d !! k).

Definition get_or (d : gmap string value) (k : string) (dflt : value) : value :=
  default dflt (d !! k).

(** A lookup in a dict kept as an association list (first binding). *)
Fixpoint assoc {A} (k : string) (l : list (string * A)) : option A :=
  match l with
  | [] => None
  | (k', a) :: l' => if String.eqb k k' then Some a else assoc k l'
  end.

End Py.

Export Py.

Declare Scope result_scope.
Delimit Scope result_scope with result.
Notation "x <- r ;; k" := (Py.bind r (fun x => k))
  (at level 100, r at next level, right associativity) : result_scope.

(** A business record as the scrapers build it, [Dict[str, Any]]: a dict from
    field name to value. *)
Abbreviation dict := (gmap string value).

(** ** config_manager.py: the tables read by the pipeline *)

Module Config.

(** One entry of [business_categories] in keywords.yaml; an absent key is
    [None]. *)
Record category_data := MkCategory {
  keywords : option (list string);
  priority : option string
}.

(** The [detection] table. *)
Record detection_settings := MkDetection {
  min_confidence_score : option Z;
  google_time_filter : option string
}.

Record config := MkConfig {
  business_categories : list (string * category_data);
  location_signals : gmap string (list string);
  detection : detection_settings
}.

(** [config.get_keywords()]. *)
Definition get_keywords (c : config) : list (string * category_data) :=
  business_categories c.

(** [config.get_location_signals()]. *)
Definition get_location_signals (c : config) : gmap string (list string) :=
  location_signals c.

(** [config.get_detection_settings()]. *)
Definition get_detection_settings (c : config) : detection_settings :=
  detection c.

(** [category_data.get('keywords', [])] where [category_data] is
    [categories.get(category, {})]. *)
Definition keywords_of (cd : option category_data) : list string :=
  match cd with
  | Some c => default [] (keywords c)
  | None => []
  end.

(** [category_data.get('priority', 'medium')]. *)
Definition priority_of (cd : option category_data) : string :=
  match cd with
  | Some c => default "medium" (priority c)
  | None => "medium"
  end.

(** [location_signals.get(key, [])]. *)
Definition signals_of (ls : gmap string (list string)) (key : string) : list string :=
  default [] (ls !! key).

End Config.

(** ** The SQLite file behind database.py: tables and statements *)

Module Sqlite.

(** A row of [businesses]. The columns bound from the record hold the
    value that was bound ([VNone] is NULL); SQLite's affinity conversions
    are not modelled. [metadata] holds the value whose JSON text is
    stored. *)
Record row := MkRow {
  id : Z;
  business_name : value;
  platform : value;
  page_url : string;
  category : value;
  location : value;
  phone : value;
  email : value;
  description : value;
  confidence_score : value;
  priority : value;
  page_created_date : value;
  discovered_date : string;
  last_updated : string;
  hash : string;
  metadata : value;
  alerted : bool;
  exported : bool
}.

Record search_entry := MkSearch {
  sh_platform : string;
  sh_query : string;
  sh_search_date : string;
  sh_results_count : Z
}.

(** The database file: both tables, rows in insertion order. *)
Record db := MkDb {
  businesses : list row;
  search_history : list search_entry
}.

(** The file right after [_init_database] created the schema. *)
Definition empty : db := MkDb [] [].

(** [SELECT COUNT( * ) FROM businesses WHERE hash = ?]. *)
Definition count_hash (hash_value : string) (d : db) : Z :=
  Text.len (List.filter (fun r => String.eqb (hash r) hash_value) (businesses d)).

(** The range of an SQLite INTEGER: signed 64 bits. *)
Definition int64 (n : Z) : bool := (- 2 ^ 63 <=? n) && (n <? 2 ^ 63).

(** What sqlite3 accepts as a statement parameter: [None], a string, and
    an integer that fits in 64 bits. *)
Definition bindable (v : value) : bool :=
  match v with
  | VNone | VStr _ => true
  | VInt n => int64 n
  | VList _ | VDict _ => false
  end.

(** What binding the parameters raises at the first one that cannot be
    bound: OverflowError for an integer that does not fit, the binding
    error for an unsupported type. *)
Fixpoint bind_error (params : list value) : exn :=
  match params with
  | [] => BindingError
  | v :: params' =>
      if bindable v then bind_error params'
      else match v with
           | VInt _ => OverflowError
           | _ => BindingError
           end
  end.

Definition not_null (v : value) : bool :=
  match v with VNone => false | _ => true end.

(** AUTOINCREMENT: one more than the largest id in use (rows are never
    deleted). *)
Definition next_id (rows : list row) : Z :=
  1 + fold_right Z.max 0 (map id rows).

(** [INSERT INTO businesses (...) VALUES (...)]: [r] carries the bound
    parameters and the column defaults, given the fresh id. The parameters
    are bound, the NOT NULL and UNIQUE constraints of the schema are
    checked, and the row is appended. *)
Definition insert_business (r : Z -> row) (d : db) : result db :=
  let r := r (next_id (businesses d)) in
  if negb (forallb bindable
             [business_name r; platform r; category r; location r; phone r;
              email r; description r; confidence_score r; priority r;
              page_created_date r])
  then Raise (bind_error
                [business_name r; platform r; category r; location r; phone r;
                 email r; description r; confidence_score r; priority r;
                 page_created_date r])
  else if negb (not_null (business_name r) && not_null (platform r))
  then Raise IntegrityError
  else if existsb (fun r' => String.eqb (page_url r') (page_url r)) (businesses d)
  then Raise IntegrityError
  else if existsb (fun r' => String.eqb (hash r') (hash r)) (businesses d)
  then Raise IntegrityError
  else Ok (MkDb (businesses d ++ [r]) (search_history d)).

(** SQLite's ordering of stored values: NULL, then integers, then text
    (bytewise). *)
Definition sql_compare (a b : value) : comparison :=
  match a, b with
  | VInt x, VInt y => x ?= y
  | VStr x, VStr y => String.compare x y
  | VNone, VNone => Eq
  | VNone, _ => Lt
  | _, VNone => Gt
  | VInt _, _ => Lt
  | _, VInt _ => Gt
  | _, _ => Eq
  end.

(** [ORDER BY confidence_score DESC, discovered_date DESC]: does [a] come
    strictly before [b]? *)
Definition before (a b : row) : bool :=
  match sql_compare (confidence_score a) (confidence_score b) with
  | Gt => true
  | Lt => false
  | Eq => match String.compare (discovered_date a) (discovered_date b) with
          | Gt => true
          | _ => false
          end
  end.

Fixpoint insert_ordered (x : row) (l : list row) : list row :=
  match l with
  | [] => [x]
  | y :: l' => if before y x then y :: insert_ordered x l' else x :: l
  end.

(** Rows that tie keep their insertion order. *)
Definition order_by (l : list row) : list row :=
  fold_right insert_ordered [] l.

(** [SELECT * FROM businesses WHERE alerted = 0 ORDER BY ...]. *)
Definition select_unalerted (d : db) : list row :=
  order_by (List.filter (fun r => negb (alerted r)) (businesses d)).

Definition set_alerted (r : row) : row :=
  {| id := id r; business_name := business_name r; platform := platform r;
     page_url := page_url r; category := category r; location := location r;
     phone := phone r; email := email r; description := description r;
     confidence_score := confidence_score r; priority := priority r;
     page_created_date := page_created_date r;
     discovered_date := discovered_date r; last_updated := last_updated r;
     hash := hash r; metadata := metadata r;
     alerted := true; exported := exported r |}.

(** [UPDATE businesses SET alerted = 1 WHERE id = ?]. *)
Definition update_alerted (business_id : Z) (d : db) : db :=
  MkDb (map (fun r => if id r =? business_id then set_alerted r else r) (businesses d))
       (search_history d).

(** [INSERT INTO search_history (...) VALUES (...)]. *)
Definition insert_search_history (e : search_entry) (d : db) : db :=
  MkDb (businesses d) (search_history d ++ [e]).

End Sqlite.

(** ** The execution model: database file, log, clock and outbox *)

Module Run.

Inductive level := DEBUG | INFO | WARNING | ERROR.

(** What the functions act on: the database file, the messages handed to
    [logging], the number of clock readings taken so far, and the alerts a
    transport has accepted (channel, row id). *)
Record world := MkWorld {
  store : Sqlite.db;
  log : list (level * string);
  ticks : nat;
  sent : list (string * Z)
}.

(** A computation that reads and writes the world and may raise. An
    exception leaves the effects made before it in place. *)
Definition M (A : Type) : Type := world -> result A * world.

Definition ret {A} (a : A) : M A := fun w => (Ok a, w).

Definition raise {A} (e : exn) : M A := fun w => (Raise e, w).

Definition bind {A B} (m : M A) (k : A -> M B) : M B :=
  fun w =>
    match m w with
    | (Ok a, w') => k a w'
    | (Raise e, w') => (Raise e, w')
    end.

(** [logger.<level>(msg)]. *)
Definition logger (l : level) (msg : string) : M unit :=
  fun w => (Ok tt, MkWorld (store w) (log w ++ [(l, msg)]) (ticks w) (sent w)).

(** [datetime.now().isoformat()]: the next reading of [clock]. *)
Definition now (clock : nat -> string) : M string :=
  fun w => (Ok (clock (ticks w)),
            MkWorld (store w) (log w) (Datatypes.S (ticks w)) (sent w)).

(** A SELECT. *)
Definition query {A} (f : Sqlite.db -> A) : M A :=
  fun w => (Ok (f (store w)), w).

(** A statement that changes the database, committed unless it raises. *)
Definition execute (f : Sqlite.db -> result Sqlite.db) : M unit :=
  fun w =>
    match f (store w) with
    | Ok d' => (Ok tt, MkWorld d' (log w) (ticks w) (sent w))
    | Raise e => (Raise e, w)
    end.

(** A transport accepted an alert. *)
Definition deliver (channel : string) (business_id : Z) : M unit :=
  fun w => (Ok tt,
            MkWorld (store w) (log w) (ticks w) (sent w ++ [(channel, business_id)])).

(** [try: m except Exception as e: h e]. *)
Definition try_except {A} (m : M A) (h : exn -> M A) : M A :=
  fun w =>
    match m w with
    | (Ok a, w') => (Ok a, w')
    | (Raise e, w') => h e w'
    end.

(** [for x in l: acc = body acc x], threading the loop-carried value. *)
Fixpoint for_each {A B} (l : list A) (acc : B) (body : B -> A -> M B) : M B :=
  match l with
  | [] => ret acc
  | x :: l' => bind (body acc x) (fun acc' => for_each l' acc' body)
  end.

End Run.

Export Run.

Declare Scope run_scope.
Delimit Scope run_scope with run.
Bind Scope run_scope with M.
Notation "x <- m ;; k" := (Run.bind m (fun x => k))
  (at level 100, m at next level, right associativity) : run_scope.
Notation "m ;; k" := (Run.bind m (fun _ => k))
  (at level 100, right associativity) : run_scope.

(** ** database.py: class DatabaseHandler *)

Module Database.

Import Sqlite.

(** [generate_hash]: md5 of the lower-cased URL, as hex. *)
Definition generate_hash (page_url : string) : string :=
  Hashlib.md5_hexdigest (Hashlib.bytes_of (Text.lower page_url)).

(** [business_exists]. *)
Definition business_exists (page_url : string) : M bool :=
  (let hash_value := generate_hash page_url in
   count <- query (count_hash hash_value) ;;
   ret (count >? 0))%run.

(** The row [add_business] inserts for [business_data]. *)
Definition new_row (business_data : dict) (page_url hash_value now : string)
    (fresh_id : Z) : row :=
  {| id := fresh_id;
     business_name := get business_data "business_name";
     platform := get business_data "platform";
     page_url := page_url;
     category := get business_data "category";
     location := get business_data "location";
     phone := get business_data "phone";
     email := get business_data "email";
     description := get business_data "description";
     confidence_score := get_or business_data "confidence_score" (VInt 0);
     priority := get_or business_data "priority" (VStr "medium");
     page_created_date := get business_data "page_created_date";
     discovered_date := now;
     last_updated := now;
     hash := hash_value;
     metadata := get_or business_data "metadata" (VDict []);
     alerted := false;
     exported := false |}.

(** [add_business]: returns [true] if added, [false] if duplicate. A
    non-string [page_url] makes [page_url.lower()] raise. *)
Definition add_business (clock : nat -> string) (business_data : dict) : M bool :=
  match get business_data "page_url" with
  | VStr page_url =>
      (dup <- business_exists page_url ;;
       if dup then ret false
       else
         let hash_value := generate_hash page_url in
         now <- Run.now clock ;;
         execute (insert_business (new_row business_data page_url hash_value now)) ;;
         ret true)%run
  | _ => raise AttributeError
  end.

(** [get_unalereted_businesses]. *)
Definition get_unalereted_businesses : M (list row) :=
  query select_unalerted.

(** [mark_as_alerted]. Binding [business_id] raises OverflowError for an
    integer outside the signed 64-bit range. The [id] column itself holds
    64-bit integers only, so an id that is found in the table binds. *)
Definition mark_as_alerted (business_id : Z) : M unit :=
  execute (fun d =>
    if int64 business_id || existsb (fun r => id r =? business_id) (businesses d)
    then Ok (update_alerted business_id d)
    else Raise OverflowError).

(** [add_search_history]. *)
Definition add_search_history (clock : nat -> string) (platform query : string)
    (results_count : Z) : M unit :=
  (now <- Run.now clock ;;
   execute (fun d => Ok (insert_search_history (MkSearch platform query now results_count) d)))%run.

End Database.

(** ** lead_scorer.py: class LeadScorer *)

Module LeadScorer.

Import Config.

(** The tables the scorer copies from the configuration in [__init__]. *)
Record scorer := MkScorer {
  location_signals : gmap string (list string);
  categories : list (string * category_data)
}.

Definition init (c : config) : scorer :=
  MkScorer (get_location_signals c) (get_keywords c).

(** [_score_location]: country (10), any major city (15), phone pattern
    (5), capped at 30. *)
Definition _score_location (self : scorer) (text : string) : Z * list string :=
  let score := 0 in
  let signals := [] in
  let '(score, signals) :=
    match List.find (fun country => Text.contains (Text.lower country) text)
                    (signals_of (location_signals self) "country") with
    | Some country => (score + 10, signals ++ ["Country: " +:+ country])
    | None => (score, signals)
    end in
  let cities_found :=
    List.filter (fun city => Text.contains (Text.lower city) text)
                (signals_of (location_signals self) "major_cities") in
  let '(score, signals) :=
    match cities_found with
    | [] => (score, signals)
    | _ => (score + 15,
            signals ++ ["Cities: " +:+ Text.join ", " (Text.slice_to 3 cities_found)])
    end in
  let '(score, signals) :=
    match List.find (fun pattern => Text.contains pattern text)
                    (signals_of (location_signals self) "phone_patterns") with
    | Some pattern => (score + 5, signals ++ ["Phone pattern: " +:+ pattern])
    | None => (score, signals)
    end in
  (Z.min score 30, signals).

(** [self.categories.get(category, {})]: a key that is not a string is
    not in the table; a list or a dict cannot be a key at all. *)
Definition categories_get (self : scorer) (category : value)
  : result (option category_data) :=
  match category with
  | VStr s => Ok (assoc s (categories self))
  | VNone | VInt _ => Ok None
  | VList _ | VDict _ => Raise TypeError
  end.

(** The keywords of [keywords] found in [text], in table order. *)
Definition keyword_matches (keywords : list string) (text : string) : list string :=
  List.filter (fun keyword => Text.contains (Text.lower keyword) text) keywords.

(** [_score_category]. *)
Definition _score_category (self : scorer) (text : string) (category : value)
  : result (Z * list string) :=
  if negb (truthy category) then Ok (0, [])
  else
    (category_data <- categories_get self category ;;
     let keywords := keywords_of category_data in
     let matches := keyword_matches keywords text in
     match matches with
     | [] => Ok (0, [])
     | _ => Ok (Z.min (Text.len matches * 5) 25,
                ["Category keywords: " +:+ Text.join ", " (Text.slice_to 3 matches)])
     end)%result.

(** [_score_contact_info]. *)
Definition _score_contact_info (business_data : dict) : Z * list string :=
  let score := 0 in
  let signals := [] in
  let '(score, signals) :=
    if truthy (get business_data "phone")
    then (score + 10, signals ++ ["Has phone"]) else (score, signals) in
  let '(score, signals) :=
    if truthy (get business_data "email")
    then (score + 10, signals ++ ["Has email"]) else (score, signals) in
  (score, signals).

(** [_score_freshness]. *)
Definition _score_freshness (page_created_date : value) : Z :=
  if negb (truthy page_created_date) then 0 else 15.

(** [len(v)]; [None] and integers have no length. *)
Definition py_len (v : value) : result Z :=
  match v with
  | VStr s => Ok (Z.of_nat (String.length s))
  | VList l => Ok (Text.len l)
  | VDict d => Ok (Text.len d)
  | VNone | VInt _ => Raise TypeError
  end.

(** [_score_content_quality]. *)
Definition _score_content_quality (business_data : dict) : result Z :=
  (let score := 0 in
   let description := get_or business_data "description" (VStr "") in
   n <- py_len description ;;
   let score := if n >? 50 then score + 5 else score in
   let score := if truthy (get business_data "business_name") then score + 5 else score in
   Ok score)%result.

(** [_determine_priority]. *)
Definition _determine_priority (self : scorer) (score : Z) (category : value)
  : result string :=
  (category_data <- categories_get self category ;;
   let category_priority := priority_of category_data in
   if (score >=? 80) || String.eqb category_priority "high" then Ok "high"
   else if score >=? 60 then Ok "medium"
   else Ok "low")%result.

(** One item of [text_fields]: [' '.join] accepts only strings. *)
Definition text_field (business_data : dict) (key : string) : result string :=
  match get_or business_data key (VStr "") with
  | VStr s => Ok s
  | _ => Raise TypeError
  end.

(** [' '.join(text_fields).lower()]. *)
Definition combined_text (business_data : dict) : result string :=
  (business_name <- text_field business_data "business_name" ;;
   description <- text_field business_data "description" ;;
   location <- text_field business_data "location" ;;
   category <- text_field business_data "category" ;;
   Ok (Text.lower (Text.join " " [business_name; description; location; category])))%result.

(** [str(v)] inside an f-string, for the values a name can be here. *)
Definition fmt (v : value) : string :=
  match v with
  | VStr s => s
  | VInt n => Text.of_Z n
  | _ => "None"
  end.

(** What [score_business] computes before it touches the record: the
    uncapped score, the priority and the signals. *)
Definition score_parts (self : scorer) (business_data : dict)
  : result (Z * string * list string) :=
  (let score := 0 in
   let signals := [] in
   combined_text <- combined_text business_data ;;
   let '(location_score, location_signals) := _score_location self combined_text in
   let score := score + location_score in
   let signals := signals ++ location_signals in
   category_result <-
      _score_category self combined_text (get business_data "category") ;;
   let '(category_score, category_signals) := category_result in
   let score := score + category_score in
   let signals := signals ++ category_signals in
   let '(contact_score, contact_signals) := _score_contact_info business_data in
   let score := score + contact_score in
   let signals := signals ++ contact_signals in
   let freshness_score := _score_freshness (get business_data "page_created_date") in
   let score := score + freshness_score in
   let signals :=
     if freshness_score >? 0
     then signals ++ ["Freshness: " +:+ Text.of_Z freshness_score +:+ " points"]
     else signals in
   quality_score <- _score_content_quality business_data ;;
   let score := score + quality_score in
   let signals :=
     if quality_score >? 0
     then signals ++ ["Content quality: " +:+ Text.of_Z quality_score +:+ " points"]
     else signals in
   priority <- _determine_priority self score (get business_data "category") ;;
   Ok (score, priority, signals))%result.

(** [score_business]: the record is updated in place and returned. *)
Definition score_business (self : scorer) (business_data : dict)
  : M dict :=
  match score_parts self business_data with
  | Ok (score, priority, signals) =>
      (let business_data := <["confidence_score" := VInt (Z.min score 100)]> business_data in
       let business_data := <["priority" := VStr priority]> business_data in
       let business_data := <["scoring_signals" := VList signals]> business_data in
       logger INFO ("Scored business '" +:+ fmt (get business_data "business_name")
                    +:+ "': Score=" +:+ Text.of_Z score
                    +:+ ", Priority=" +:+ priority) ;;
       ret business_data)%run
  | Raise e => raise e
  end.

End LeadScorer.

(** ** Item access and comparison on records *)

Module Item.

(** [d[k]]. *)
Definition item (d : dict) (k : string) : M value :=
  match d !! k with
  | Some v => ret v
  | None => raise KeyError
  end.

(** [v >= n] for an integer [n]: only integers compare with integers. *)
Definition ge_int (v : value) (n : Z) : M bool :=
  match v with
  | VInt x => ret (x >=? n)
  | _ => raise TypeError
  end.

End Item.

(** ** google_scraper.py: class GoogleScraper *)

Module GoogleScraper.

Import Config.

(** One item of the list [search_google] returns. *)
Record search_result := MkResult {
  title : string;
  url : string;
  snippet : string;
  display_link : string
}.

(** One entry of [build_search_queries]. *)
Record query_data := MkQuery {
  query : string;
  platform : string;
  category : string;
  time_filter : string
}.

Section Scraper.

(** The global [config], the clock, and the Custom Search call behind
    [search_google] (query, time filter), which is outside the model
    together with the messages it logs. *)
Variable cfg : config.
Variable clock : nat -> string.
Variable search_google : string -> string -> list search_result.

Definition scorer : LeadScorer.scorer := LeadScorer.init cfg.

(** [build_search_queries]. *)
Definition build_search_queries : M (list query_data) :=
  (let categories := get_keywords cfg in
   let location_signals := get_location_signals cfg in
   let detection_settings := get_detection_settings cfg in
   let time_filter := default "qdr:w" (google_time_filter detection_settings) in
   let cities := Text.slice_to 10 (signals_of location_signals "major_cities") in
   let queries :=
     flat_map (fun '(category_name, category_data) =>
       let keywords := Text.slice_to 3 (keywords_of (Some category_data)) in
       flat_map (fun keyword =>
         flat_map (fun city =>
           let fb_query := "site:facebook.com/pages " +:+ keyword +:+ " " +:+ city +:+ " Nigeria" in
           let li_query := "site:linkedin.com/company " +:+ keyword +:+ " " +:+ city +:+ " Nigeria" in
           [ MkQuery fb_query "Facebook" category_name time_filter;
             MkQuery li_query "LinkedIn" category_name time_filter ])
           (Text.slice_to 3 cities))
         keywords)
       categories in
   logger INFO ("Built " +:+ Text.of_Z (Text.len queries) +:+ " search queries") ;;
   ret queries)%run.

(** [_extract_business_name]. *)
Definition _extract_business_name (title platform : string) : string :=
  let title :=
    if String.eqb platform "Facebook"
    then Text.replace " | Facebook" "" (Text.replace " - Facebook" "" title)
    else if String.eqb platform "LinkedIn"
    then Text.replace " | LinkedIn" "" (Text.replace " - LinkedIn" "" title)
    else title in
  Text.strip title.

(** [_extract_location]. *)
Definition _extract_location (text : string) : string :=
  let location_signals := get_location_signals cfg in
  match List.find (fun city => Text.contains (Text.lower city) (Text.lower text))
                  (signals_of location_signals "major_cities") with
  | Some city => city
  | None => if Text.contains "nigeria" (Text.lower text) then "Nigeria" else ""
  end.

(** [_extract_from_search_result]; on a well-typed result nothing in
    the [try] block raises. *)
Definition _extract_from_search_result (result : search_result)
    (platform category : string) : option dict :=
  let business_data : dict :=
    list_to_map
      [ ("business_name", VStr (_extract_business_name (title result) platform));
        ("platform", VStr platform);
        ("page_url", VStr (url result));
        ("category", VStr category);
        ("location", VStr (_extract_location (snippet result)));
        ("phone", VStr "");
        ("email", VStr "");
        ("description", VStr (snippet result));
        ("page_created_date", VStr "");
        ("metadata", VDict [ ("discovered_via", SStr "Google Search");
                             ("search_snippet", SStr (snippet result)) ]) ] in
  Some business_data.

(** The body of the loop over the results of one query. *)
Definition process_result (platform category : string)
    (discovered : list dict) (result : search_result) : M (list dict) :=
  (let url := url result in
   dup <- Database.business_exists url ;;
   if dup then ret discovered
   else
     match _extract_from_search_result result platform category with
     | Some business_data =>
         scored_data <- LeadScorer.score_business scorer business_data ;;
         let min_score :=
           default 60 (min_confidence_score (get_detection_settings cfg)) in
         score <- Item.item scored_data "confidence_score" ;;
         enough <- Item.ge_int score min_score ;;
         if enough then
           added <- Database.add_business clock scored_data ;;
           if added then
             let discovered := discovered ++ [scored_data] in
             name <- Item.item scored_data "business_name" ;;
             logger INFO ("New " +:+ platform +:+ " page discovered via Google: "
                          +:+ LeadScorer.fmt name) ;;
             ret discovered
           else ret discovered
         else ret discovered
     | None => ret discovered
     end)%run.

(** The body of the loop over the search queries. *)
Definition process_query (discovered : list dict) (query_data : query_data)
  : M (list dict) :=
  (let query := query query_data in
   let platform := platform query_data in
   let category := category query_data in
   let time_filter := time_filter query_data in
   let results := search_google query time_filter in
   discovered <- for_each results discovered (process_result platform category) ;;
   Database.add_search_history clock platform query (Text.len results) ;;
   ret discovered)%run.

(** [discover_new_pages]. *)
Definition discover_new_pages : M (list dict) :=
  (let discovered := [] in
   search_queries <- build_search_queries ;;
   for_each search_queries discovered process_query)%run.

End Scraper.

End GoogleScraper.

(** ** facebook_scraper.py: class FacebookScraper *)

Module FacebookScraper.

Import Config.

(** [_search_by_category] as shipped: the page lookup is left to be
    filled in and the method returns its empty list. *)
Definition _search_by_category (query location : string) : list dict := [].

Section Scraper.

(** The global [config], the clock, and the method [search_pages]
    (query, location), the source of candidate records. *)
Variable cfg : config.
Variable clock : nat -> string.
Variable search_pages : string -> string -> list dict.

Definition scorer : LeadScorer.scorer := LeadScorer.init cfg.

(** The body of the loop over the results of one search. *)
Definition process_result (category_name : string)
    (discovered : list dict) (result : dict) : M (list dict) :=
  (let result := <["category" := VStr category_name]> result in
   scored_result <- LeadScorer.score_business scorer result ;;
   let min_score :=
     default 60 (min_confidence_score (get_detection_settings cfg)) in
   score <- Item.item scored_result "confidence_score" ;;
   enough <- Item.ge_int score min_score ;;
   if enough then
     added <- Database.add_business clock scored_result ;;
     if added then
       let discovered := discovered ++ [scored_result] in
       name <- Item.item scored_result "business_name" ;;
       logger INFO ("New Facebook page discovered: " +:+ LeadScorer.fmt name) ;;
       ret discovered
     else ret discovered
   else ret discovered)%run.

(** [discover_new_pages]. *)
Definition discover_new_pages : M (list dict) :=
  (let discovered := [] in
   let categories := get_keywords cfg in
   let location_signals := get_location_signals cfg in
   for_each categories discovered (fun discovered '(category_name, category_data) =>
     let keywords := keywords_of (Some category_data) in
     for_each (Text.slice_to 3 keywords) discovered (fun discovered keyword =>
       for_each (Text.slice_to 5 (signals_of location_signals "major_cities")) discovered
         (fun discovered city =>
            let query := keyword +:+ " " +:+ city in
            let results := search_pages query city in
            for_each results discovered (process_result category_name)))))%run.

End Scraper.

(** The list [search_pages] returns, as shipped: empty without an access
    token, otherwise what [_search_by_category] returns (the list is
    assigned before the rate-limit delay, and an exception is caught and
    logged). The messages it logs are left out. *)
Definition search_pages (access_token : value) (query location : string) : list dict :=
  if negb (truthy access_token) then []
  else _search_by_category query location.

End FacebookScraper.

(** ** linkedin_scraper.py: class LinkedInScraper *)

Module LinkedInScraper.

Import Config.

Section Scraper.

(** The global [config], the clock, and [get_company_details], the
    page fetch, which returns a record or [None]. *)
Variable cfg : config.
Variable clock : nat -> string.
Variable get_company_details : string -> option dict.

Definition scorer : LeadScorer.scorer := LeadScorer.init cfg.

(** [discover_new_companies]: the discovery is left to the Google
    scraper. *)
Definition discover_new_companies : M (list dict) :=
  (let discovered := [] in
   logger INFO "LinkedIn discovery relies on Google search integration" ;;
   logger INFO "Use the Google scraper with LinkedIn-specific queries" ;;
   ret discovered)%run.

(** [process_company_url]. *)
Definition process_company_url (url : string) (category : option string)
  : M (option dict) :=
  (dup <- Database.business_exists url ;;
   if dup then
     logger DEBUG ("Company already in database: " +:+ url) ;;
     ret None
   else
     match get_company_details url with
     | None => ret None
     | Some business_data =>
         if bool_decide (business_data = ∅)
            || negb (truthy (get business_data "business_name"))
         then ret None
         else
           let business_data :=
             match category with
             | Some c => if negb (String.eqb c "")
                         then <["category" := VStr c]> business_data
                         else business_data
             | None => business_data
             end in
           scored_data <- LeadScorer.score_business scorer business_data ;;
           let min_score :=
             default 60 (min_confidence_score (get_detection_settings cfg)) in
           score <- Item.item scored_data "confidence_score" ;;
           enough <- Item.ge_int score min_score ;;
           if enough then
             added <- Database.add_business clock scored_data ;;
             if added then
               name <- Item.item scored_data "business_name" ;;
               logger INFO ("New LinkedIn company discovered: " +:+ LeadScorer.fmt name) ;;
               ret (Some scored_data)
             else ret None
           else ret None
     end)%run.

End Scraper.

End LinkedInScraper.

(** ** alert_manager.py: class AlertManager *)

Module AlertManager.

Import Sqlite.

(** The channel switches read in [__init__]. *)
Record alert_manager := MkAlertManager {
  email_enabled : bool;
  telegram_enabled : bool;
  desktop_enabled : bool
}.

(** The outside of the notifier. For each channel: whether its settings
    are complete, and whether building and sending the message for a
    record (or a batch) goes through ([true]) or raises ([false]). The
    text of the exception, which the source appends to its error
    messages, is left out of the logged message. *)
Record transports := MkTransports {
  email_configured : bool;
  smtp_send : row -> bool;
  smtp_send_batch : list row -> bool;
  telegram_configured : bool;
  telegram_post : row -> bool;
  telegram_post_batch : list row -> bool;
  plyer_installed : bool;
  notify : row -> bool
}.

Section Manager.

Variable self : alert_manager.
Variable net : transports.

(** A call into a transport: it accepts the alerts or raises. *)
Definition attempt (channel : string) (ok : bool) (ids : list Z) : M unit :=
  if ok then for_each ids tt (fun _ i => deliver channel i)
  else raise TransportError.

(** [send_email_alert]. *)
Definition send_email_alert (business : row) : M unit :=
  try_except
    (if negb (email_configured net)
     then logger WARNING "Email configuration incomplete"
     else
       attempt "email" (smtp_send net business) [id business] ;;
       logger INFO ("Email alert sent for: " +:+ LeadScorer.fmt (business_name business)))%run
    (fun e => logger ERROR "Error sending email alert").

(** [send_telegram_alert]. *)
Definition send_telegram_alert (business : row) : M unit :=
  try_except
    (if negb (telegram_configured net)
     then logger WARNING "Telegram configuration incomplete"
     else
       attempt "telegram" (telegram_post net business) [id business] ;;
       logger INFO ("Telegram alert sent for: " +:+ LeadScorer.fmt (business_name business)))%run
    (fun e => logger ERROR "Error sending Telegram alert").

(** [send_desktop_alert]. *)
Definition send_desktop_alert (business : row) : M unit :=
  try_except
    (if plyer_installed net
     then
       attempt "desktop" (notify net business) [id business] ;;
       logger INFO ("Desktop notification sent for: "
                    +:+ LeadScorer.fmt (business_name business))
     else logger WARNING "plyer not installed - desktop notifications disabled")%run
    (fun e => logger ERROR "Error sending desktop notification").

(** [send_alert]: every enabled channel in turn. *)
Definition send_alert (business : row) : M unit :=
  try_except
    ((if email_enabled self then send_email_alert business else ret tt) ;;
     (if telegram_enabled self then send_telegram_alert business else ret tt) ;;
     (if desktop_enabled self then send_desktop_alert business else ret tt) ;;
     logger INFO ("Alert sent for: " +:+ LeadScorer.fmt (business_name business)))%run
    (fun e => logger ERROR "Error sending alert").

(** [send_batch_email]. *)
Definition send_batch_email (businesses : list row) : M unit :=
  try_except
    (if negb (email_configured net) then ret tt
     else
       attempt "email" (smtp_send_batch net businesses) (map id businesses) ;;
       logger INFO ("Batch email sent for " +:+ Text.of_Z (Text.len businesses)
                    +:+ " businesses"))%run
    (fun e => logger ERROR "Error sending batch email").

(** [send_batch_telegram]. *)
Definition send_batch_telegram (businesses : list row) : M unit :=
  try_except
    (if negb (telegram_configured net) then ret tt
     else attempt "telegram" (telegram_post_batch net businesses) (map id businesses))
    (fun e => logger ERROR "Error sending batch Telegram").

(** [send_batch_alert]. *)
Definition send_batch_alert (businesses : list row) : M unit :=
  match businesses with
  | [] => ret tt
  | _ =>
      try_except
        ((if email_enabled self then send_batch_email businesses else ret tt) ;;
         (if telegram_enabled self then send_batch_telegram businesses else ret tt) ;;
         logger INFO ("Batch alert sent for " +:+ Text.of_Z (Text.len businesses)
                      +:+ " businesses"))%run
        (fun e => logger ERROR "Error sending batch alert")
  end.

End Manager.

End AlertManager.

(** ** task_scheduler.py: the alert polls of class TaskScheduler *)

Module TaskScheduler.

Import Sqlite.

Section Scheduler.

Variable alert_manager : AlertManager.alert_manager.
Variable net : AlertManager.transports.

(** [process_instant_alerts]. *)
Definition process_instant_alerts : M unit :=
  try_except
    (businesses <- Database.get_unalereted_businesses ;;
     match businesses with
     | [] => ret tt
     | _ =>
         logger INFO ("Processing " +:+ Text.of_Z (Text.len businesses)
                      +:+ " unalereted businesses") ;;
         for_each businesses tt (fun _ business =>
           AlertManager.send_alert alert_manager net business ;;
           Database.mark_as_alerted (id business)) ;;
         logger INFO ("Instant alerts sent for " +:+ Text.of_Z (Text.len businesses)
                      +:+ " businesses")
     end)%run
    (fun e => logger ERROR "Error processing instant alerts").

(** [process_batch_alerts]. *)
Definition process_batch_alerts : M unit :=
  try_except
    (businesses <- Database.get_unalereted_businesses ;;
     match businesses with
     | [] => logger INFO "No new businesses to alert"
     | _ =>
         logger INFO ("Processing batch alert for " +:+ Text.of_Z (Text.len businesses)
                      +:+ " businesses") ;;
         AlertManager.send_batch_alert alert_manager net businesses ;;
         for_each businesses tt (fun _ business =>
           Database.mark_as_alerted (id business)) ;;
         logger INFO ("Batch alert sent for " +:+ Text.of_Z (Text.len businesses)
                      +:+ " businesses")
     end)%run
    (fun e => logger ERROR "Error processing batch alerts").

End Scheduler.

End TaskScheduler.

(** ** The rules of the specification, in its own words *)

Module Spec.

(** Priority assignment, first match wins: score >= 80 gives HIGH; a
    category whose configured default priority is HIGH gives HIGH;
    score >= 60 gives MEDIUM; otherwise LOW. *)
Definition priority (score : Z) (category_default : string) : string :=
  if score >=? 80 then "high"
  else if String.eqb category_default "high" then "high"
  else if score >=? 60 then "medium"
  else "low".

(** The order of the tiers: LOW < MEDIUM < HIGH. *)
Definition tier (p : string) : Z :=
  if String.eqb p "high" then 2
  else if String.eqb p "medium" then 1
  else 0.

(** The default priority the rule tables configure for a category: the
    priority of the entry listed under the category's name. A category that
    is not a name, has no entry, or whose entry sets no priority has no HIGH
    default; it is written medium. *)
Fixpoint configured_priority (table : list (string * Config.category_data))
    (name : string) : string :=
  match table with
  | [] => "medium"
  | (entry_name, entry) :: table' =>
      if String.eqb name entry_name
      then match Config.priority entry with
           | Some p => p
           | None => "medium"
           end
      else configured_priority table' name
  end.

Definition category_default (table : list (string * Config.category_data))
    (category : value) : string :=
  match category with
  | VStr name => configured_priority table name
  | _ => "medium"
  end.

(** A keyword appears in a text as a case-insensitive substring. *)
Definition appears (text keyword : string) : bool :=
  Text.contains (Text.lower keyword) (Text.lower text).

(** The number of distinct configured keywords that appear in the text. *)
Definition distinct_matches (keywords : list string) (text : string) : Z :=
  Text.len (remove_dups (List.filter (appears text) keywords)).

(** The category sub-score: 0 for a category with no keywords, otherwise
    min(matches x 5, 25) over the distinct keywords that appear. *)
Definition category_score (keywords : list string) (text : string) : Z :=
  match keywords with
  | [] => 0
  | _ => Z.min (distinct_matches keywords text * 5) 25
  end.

(** The keywords associated with a candidate's category: those the table
    lists for it; an empty or absent category has none. *)
Definition associated_keywords (self : LeadScorer.scorer) (category : value) : list string :=
  match category with
  | VStr c =>
      if String.eqb c "" then []
      else Config.keywords_of (assoc c (LeadScorer.categories self))
  | _ => []
  end.

(** C5 as the specification words it: the category sub-score of a candidate
    is [category_score] of its category's keywords over the combined text. *)
Definition category_rule : Prop :=
  forall (self : LeadScorer.scorer) (bd : dict) (text : string) (s : Z) (sg : list string),
    LeadScorer.combined_text bd = Ok text ->
    LeadScorer._score_category self text (get bd "category") = Ok (s, sg) ->
    s = category_score (associated_keywords self (get bd "category")) text.

(** C7 as the specification words it: in instant mode a pending record
    whose delivery failed (no transport accepted it during the poll) is left
    unnotified by the poll. *)
Definition instant_rule : Prop :=
  forall (am : AlertManager.alert_manager) (net : AlertManager.transports)
         (w : world) (r : Sqlite.row),
    r ∈ Sqlite.businesses (store w) -> Sqlite.alerted r = false ->
    (forall channel,
        (channel, Sqlite.id r) ∉ sent (TaskScheduler.process_instant_alerts am net w).2) ->
    exists r',
      r' ∈ Sqlite.businesses (store (TaskScheduler.process_instant_alerts am net w).2) /\
      Sqlite.id r' = Sqlite.id r /\ Sqlite.alerted r' = false.

End Spec.

(** ** Invariants of the database and a program logic for [M] *)

Module Logic.

Import Sqlite.

(** The stored hash of every row is the hash of its URL, and no hash is
    stored twice. *)
Definition consistent (d : db) : Prop :=
  Forall (fun r => hash r = Database.generate_hash (page_url r)) (businesses d) /\
  NoDup (map hash (businesses d)).

(** At most one stored record per identity: two rows whose URLs are equal
    up to case are the same row. *)
Definition one_record_per_identity (d : db) : Prop :=
  forall (i j : nat) (r1 r2 : row),
    businesses d !! i = Some r1 -> businesses d !! j = Some r2 ->
    Text.lower (page_url r1) = Text.lower (page_url r2) -> i = j.

(** A record whose columns can be bound and satisfy the NOT NULL
    constraints of the schema. *)
Definition insertable (bd : dict) : bool :=
  forallb bindable
    [ get bd "business_name"; get bd "platform"; get bd "category"; get bd "location";
      get bd "phone"; get bd "email"; get bd "description";
      get_or bd "confidence_score" (VInt 0); get_or bd "priority" (VStr "medium");
      get bd "page_created_date" ]
  && not_null (get bd "business_name") && not_null (get bd "platform").

(** The worlds the handler can bring about from a fresh database file. *)
Inductive reachable : world -> Prop :=
| reach_fresh (l : list (level * string)) (t : nat) (s : list (string * Z)) :
    reachable (MkWorld Sqlite.empty l t s)
| reach_add_business (w : world) (clock : nat -> string) (bd : dict) :
    reachable w -> reachable (Database.add_business clock bd w).2
| reach_mark_as_alerted (w : world) (business_id : Z) :
    reachable w -> reachable (Database.mark_as_alerted business_id w).2
| reach_add_search_history (w : world) (clock : nat -> string) (p q : string) (n : Z) :
    reachable w -> reachable (Database.add_search_history clock p q n w).2
| reach_same_store (w w' : world) :
    reachable w -> store w' = store w -> reachable w'.

(** [{P} m {Q}]: from a world in [P], [m] ends (returning or raising) in a
    world that [Q] relates to its outcome. *)
Definition hoare {A} (P : world -> Prop) (m : M A) (Q : result A -> world -> Prop) : Prop :=
  forall w, P w -> Q (m w).1 (m w).2.

(** A row is in the table of [a] already, or satisfies [ok]. *)
Definition grown_by (ok : row -> Prop) (a : db) (b : db) : Prop :=
  forall r, r ∈ businesses b -> r ∈ businesses a \/ ok r.

(** The stored score of a row is an integer no smaller than [min_score]. *)
Definition meets (min_score : Z) (r : row) : Prop :=
  exists n, confidence_score r = VInt n /\ min_score <= n.

(** A property of the world that only looks at the database file. *)
Definition stable (I : world -> Prop) : Prop :=
  forall w w', store w' = store w -> I w -> I w'.

(** Every row of the world's table was in [d0] already or meets the minimum. *)
Definition grows_from (min_score : Z) (d0 : db) (w : world) : Prop :=
  grown_by (meets min_score) d0 (store w).

(** The configured minimum, 60 unless the [detection] table sets it. *)
Definition minimum (cfg : Config.config) : Z :=
  default 60 (Config.min_confidence_score (Config.get_detection_settings cfg)).

(** A computation that always returns and leaves the database alone. *)
Definition harmless (m : M unit) : Prop :=
  forall w, (m w).1 = Ok tt /\ store (m w).2 = store w.

End Logic.

(** ** Sample tables, records and worlds *)

Module Sample.

Import Config.

Definition cfg : config :=
  MkConfig
    [ ("food", MkCategory (Some ["bakery"; "restaurant"; "catering"]) (Some "medium"));
      ("fintech", MkCategory (Some ["payments"; "lending"]) (Some "high")) ]
    (list_to_map [ ("country", ["Nigeria"; "Naija"]);
                   ("major_cities", ["Lagos"; "Abuja"; "Kano"]);
                   ("phone_patterns", ["+234"; "080"]) ])
    (MkDetection None None).

(** A table in which a keyword is listed twice. *)
Definition cfg_repeated : config :=
  MkConfig [ ("food", MkCategory (Some ["bakery"; "bakery"]) None) ] ∅
           (MkDetection None None).

Definition bakery : dict :=
  list_to_map
    [ ("business_name", VStr "Lagos Bakery");
      ("platform", VStr "Facebook");
      ("page_url", VStr "https://facebook.com/LagosBakery");
      ("category", VStr "food");
      ("location", VStr "Lagos, Nigeria");
      ("phone", VStr "+2348012345678");
      ("email", VStr "");
      ("description",
       VStr "A fresh bakery in Lagos serving the whole community with bread and pastries daily.");
      ("page_created_date", VStr "2024-01-15T09:30:00+0000");
      ("metadata", VDict [("fan_count", SInt 12)]) ].

(** The same page with the URL as another source spells it. *)
Definition bakery_lower : dict :=
  <["page_url" := VStr "https://facebook.com/lagosbakery"]> bakery.

(** A lead without contact details, date or location. *)
Definition kiosk : dict :=
  list_to_map
    [ ("business_name", VStr "Kiosk");
      ("platform", VStr "Facebook");
      ("page_url", VStr "https://facebook.com/kiosk");
      ("category", VStr "food");
      ("location", VStr "");
      ("phone", VStr "");
      ("email", VStr "");
      ("description", VStr "");
      ("page_created_date", VStr "");
      ("metadata", VDict []) ].

Definition clock (n : nat) : string := "2024-02-01T10:00:0" +:+ pretty n.

(** A fresh installation. *)
Definition w0 : world := MkWorld Sqlite.empty [] 0 [].

Definition scorer : LeadScorer.scorer := LeadScorer.init cfg.

(** The outcome of scoring the samples in a fresh installation: the record
    returned and the world left behind. *)
Definition returned {A} (dflt : A) (r : result A * world) : A :=
  match r.1 with Ok a => a | Raise _ => dflt end.

Definition bakery_scored : dict :=
  Eval vm_compute in returned ∅ (LeadScorer.score_business scorer bakery w0).

Definition bakery_world : world :=
  Eval vm_compute in (LeadScorer.score_business scorer bakery w0).2.

Definition kiosk_scored : dict :=
  Eval vm_compute in returned ∅ (LeadScorer.score_business scorer kiosk w0).

Definition kiosk_world : world :=
  Eval vm_compute in (LeadScorer.score_business scorer kiosk w0).2.

(** The world after the bakery page was stored at the first clock reading. *)
Definition w1 : world :=
  Eval vm_compute in (Database.add_business clock bakery w0).2.

(** A Facebook source that yields the stored bakery page again, and one
    that yields a weak and a strong lead. *)
Definition stored_page_again (query location : string) : list dict :=
  if String.eqb query "bakery Lagos" then [bakery_lower] else [].

Definition two_leads (query location : string) : list dict :=
  if String.eqb query "bakery Lagos" then [kiosk; bakery] else [].

(** The world after a Facebook pass over [two_leads] on a fresh
    installation. *)
Definition w_two_leads : world :=
  Eval vm_compute in (FacebookScraper.discover_new_pages cfg clock two_leads w0).2.

(** A notifier with e-mail switched on and configured, whose SMTP session
    always fails. *)
Definition email_only : AlertManager.alert_manager :=
  AlertManager.MkAlertManager true false false.

Definition smtp_down : AlertManager.transports :=
  AlertManager.MkTransports true (fun _ => false) (fun _ => false)
                            false (fun _ => false) (fun _ => false)
                            false (fun _ => false).

(** The world after an instant poll with that notifier. *)
Definition w1_polled : world :=
  Eval vm_compute in (TaskScheduler.process_instant_alerts email_only smtp_down w1).2.

(** The combined text of the bakery record. *)
Definition bakery_text : string :=
  Eval vm_compute in
    match LeadScorer.combined_text bakery with Ok t => t | Raise _ => "" end.

End Sample.

(** ** config_manager.py: the settings tree of class ConfigManager *)

Module ConfigManager.

(** What [yaml.safe_load] returns. The accessors only ever look up string
    keys, so the entries of a mapping are kept under their string keys, in
    order; scalars other than the ones below behave like them (they are not
    mappings). *)
Inductive yaml :=
| YNull
| YBool (b : bool)
| YInt (n : Z)
| YStr (s : string)
| YSeq (items : yseq)
| YMap (entries : ymap)
with yseq :=
| SNil
| SCons (item : yaml) (items : yseq)
with ymap :=
| MNil
| MCons (key : string) (v : yaml) (entries : ymap).

(** [value[key]] for a key that is there, [None] for [key in value] false. *)
Fixpoint lookup (key : string) (entries : ymap) : option yaml :=
  match entries with
  | MNil => None
  | MCons k v rest => if String.eqb k key then Some v else lookup key rest
  end.

(** [s.split(sep)] for a one-character separator. *)
Fixpoint split (sep : ascii) (s : string) : list string :=
  match s with
  | EmptyString => [EmptyString]
  | String c s' =>
      if Ascii.eqb c sep then EmptyString :: split sep s'
      else match split sep s' with
           | piece :: pieces => String c piece :: pieces
           | [] => [String c EmptyString]
           end
  end.

(** The loop of [get] over the keys. *)
Fixpoint walk (keys : list string) (value default : yaml) : yaml :=
  match keys with
  | [] => value
  | key :: keys' =>
      match value with
      | YMap entries =>
          match lookup key entries with
          | Some v => walk keys' v default
          | None => default
          end
      | _ => default
      end
  end.

(** [get]: a value by dot notation. *)
Definition get (settings : yaml) (key_path : string) (default : yaml) : yaml :=
  let keys := split "." key_path in
  walk keys settings default.

(** [value.get(key, default)]: only a mapping has the method. *)
Definition dict_get (value : yaml) (key : string) (default : yaml) : result yaml :=
  match value with
  | YMap entries =>
      match lookup key entries with
      | Some v => Ok v
      | None => Ok default
      end
  | _ => Raise AttributeError
  end.

(** [is_enabled]. *)
Definition is_enabled (settings : yaml) (feature : string) : result yaml :=
  (scheduler <- dict_get settings "scheduler" (YMap MNil) ;;
   dict_get scheduler ("enable_" +:+ feature) (YBool false))%result.

(** Following the keys down the tree: the value reached, if every key is
    found in a mapping. *)
Fixpoint descend (keys : list string) (value : yaml) : option yaml :=
  match keys with
  | [] => Some value
  | key :: keys' =>
      match value with
      | YMap entries =>
          match lookup key entries with
          | Some v => descend keys' v
          | None => None
          end
      | _ => None
      end
  end.

End ConfigManager.

(** ** database.py: the query of get_recent_businesses *)

Module Recent.

Import Sqlite.

(** [if platform: query += " AND platform = ?"]: a filter that is [None]
    or empty is not applied; otherwise the column must hold that text. The
    columns have TEXT affinity: a number bound to one is kept as its
    decimal text; NULL equals nothing. *)
Definition matches (filter : option string) (column : value) : bool :=
  match filter with
  | None => true
  | Some p =>
      if truthy (VStr p)
      then match column with
           | VStr s => String.eqb s p
           | VInt n => String.eqb (Text.of_Z n) p
           | _ => false
           end
      else true
  end.

(** [LIMIT ?]: a negative limit is no limit. *)
Definition limit_to (limit : Z) (l : list row) : list row :=
  if limit <? 0 then l else firstn (Z.to_nat limit) l.

Section Engine.

(** [ORDER BY discovered_date DESC] as the engine carries it out. SQLite
    leaves the order of rows with equal dates to the query plan (an index
    scan or a sort), so the sort is a parameter here; what every plan
    guarantees is [Facts.date_order]. *)
Variable order_by_date : list row -> list row.

(** [SELECT * FROM businesses WHERE 1=1 ... ORDER BY discovered_date DESC
    LIMIT ?]. *)
Definition select_recent (limit : Z) (platform category : option string) (d : db)
  : list row :=
  limit_to limit
    (order_by_date
       (List.filter (fun r => matches platform (Sqlite.platform r)
                              && matches category (Sqlite.category r))
                    (businesses d))).

(** [get_recent_businesses]; binding a limit that does not fit in 64 bits
    raises OverflowError. *)
Definition get_recent_businesses (limit : Z) (platform category : option string)
  : M (list row) :=
  if int64 limit then query (select_recent limit platform category)
  else raise OverflowError.

End Engine.

(** One order the engine may produce: rows that tie keep their insertion
    order. [newer a b]: does [a] come strictly before [b]? *)
Definition newer (a b : row) : bool :=
  match String.compare (discovered_date a) (discovered_date b) with
  | Gt => true
  | _ => false
  end.

Fixpoint insert_by_date (x : row) (l : list row) : list row :=
  match l with
  | [] => [x]
  | y :: l' => if newer y x then y :: insert_by_date x l' else x :: l
  end.

Definition by_insertion (l : list row) : list row :=
  fold_right insert_by_date [] l.

End Recent.

(** ** Further sample records *)

Module Scenario.

(** A record whose description is [None], as a JSON [null] would leave it. *)
Definition no_description : dict :=
  <["description" := VNone]> Sample.bakery.

(** A lead that matches no rule of the tables: no name, no text. *)
Definition blank : dict :=
  list_to_map
    [ ("business_name", VStr "");
      ("platform", VStr "Facebook");
      ("page_url", VStr "https://facebook.com/blank");
      ("category", VStr "");
      ("location", VStr "");
      ("phone", VStr "");
      ("email", VStr "");
      ("description", VStr "");
      ("page_created_date", VStr "");
      ("metadata", VDict []) ].

Definition blank_scored : dict :=
  Eval vm_compute in
    Sample.returned ∅ (LeadScorer.score_business Sample.scorer blank Sample.w0).

Definition blank_world : world :=
  Eval vm_compute in (LeadScorer.score_business Sample.scorer blank Sample.w0).2.

(** A Custom Search that knows one page. *)
Definition one_hit (query time_filter : string) : list GoogleScraper.search_result :=
  if String.eqb query "site:facebook.com/pages bakery Lagos Nigeria"
  then [ GoogleScraper.MkResult
           "Lagos Bakery - Facebook" "https://facebook.com/LagosBakery"
           "A fresh bakery in Lagos, Nigeria, baking bread and pastries for the community."
           "facebook.com" ]
  else [].

(** What a Facebook pass over [Sample.two_leads] returns on a fresh
    installation. *)
Definition two_leads_found : list dict :=
  Eval vm_compute in
    Sample.returned []
      (FacebookScraper.discover_new_pages Sample.cfg Sample.clock Sample.two_leads Sample.w0).

(** A settings tree, and two damaged ones: an empty settings.yaml, and a
    [scheduler:] key left without entries. *)
Definition settings : ConfigManager.yaml :=
  ConfigManager.YMap
    (ConfigManager.MCons "scheduler"
       (ConfigManager.YMap
          (ConfigManager.MCons "enable_facebook" (ConfigManager.YBool true)
             (ConfigManager.MCons "facebook_interval_minutes" (ConfigManager.YInt 30)
                ConfigManager.MNil)))
       (ConfigManager.MCons "alerts"
          (ConfigManager.YMap
             (ConfigManager.MCons "batch_mode" (ConfigManager.YBool false)
                ConfigManager.MNil))
          ConfigManager.MNil)).

Definition settings_empty_file : ConfigManager.yaml := ConfigManager.YNull.

Definition settings_bare_scheduler : ConfigManager.yaml :=
  ConfigManager.YMap
    (ConfigManager.MCons "scheduler" ConfigManager.YNull ConfigManager.MNil).

(** The table after two more pages were stored: the kiosk, then the blank
    lead. *)
Definition w2 : world :=
  Eval vm_compute in (Database.add_business Sample.clock Sample.kiosk Sample.w1).2.

Definition w3 : world :=
  Eval vm_compute in (Database.add_business Sample.clock blank w2).2.

(** The two newest Facebook rows of that table. *)
Definition newest_two : list Sqlite.row :=
  Eval vm_compute in
    Sample.returned []
      (Recent.get_recent_businesses Recent.by_insertion 2 (Some "Facebook") None w3).



(** A strong lead in the medium-priority category, and a weak lead in the
    high-priority one. *)
Definition star : dict :=
  <["email" := VStr "hello@lagosbakery.ng"]>
    (<["description" :=
         VStr "Bakery, restaurant and catering in Lagos, Nigeria: bread and pastries baked daily. Call +234 801 234 5678 to order."]>
       Sample.bakery).

Definition startup : dict :=
  list_to_map
    [ ("business_name", VStr "Payza");
      ("platform", VStr "LinkedIn");
      ("page_url", VStr "https://linkedin.com/company/payza");
      ("category", VStr "fintech");
      ("location", VStr "");
      ("phone", VStr "");
      ("email", VStr "");
      ("description", VStr "Payments for everyone.");
      ("page_created_date", VStr "");
      ("metadata", VDict []) ].

Definition star_scored : dict :=
  Eval vm_compute in
    Sample.returned ∅ (LeadScorer.score_business Sample.scorer star Sample.w0).

Definition star_world : world :=
  Eval vm_compute in (LeadScorer.score_business Sample.scorer star Sample.w0).2.

Definition startup_scored : dict :=
  Eval vm_compute in
    Sample.returned ∅ (LeadScorer.score_business Sample.scorer startup Sample.w0).

Definition startup_world : world :=
  Eval vm_compute in (LeadScorer.score_business Sample.scorer startup Sample.w0).2.

(** The sample tables with a minimum score of 50, and with one of 70. *)
Definition cfg_low : Config.config :=
  Config.MkConfig (Config.business_categories Sample.cfg)
                  (Config.location_signals Sample.cfg)
                  (Config.MkDetection (Some 50) None).

Definition cfg_strict : Config.config :=
  Config.MkConfig (Config.business_categories Sample.cfg)
                  (Config.location_signals Sample.cfg)
                  (Config.MkDetection (Some 70) None).

(** A Custom Search that finds, for one query, the stored bakery page
    again and a page not seen before. *)
Definition two_hits (query time_filter : string) : list GoogleScraper.search_result :=
  if String.eqb query "site:facebook.com/pages bakery Lagos Nigeria"
  then [ GoogleScraper.MkResult
           "Lagos Bakery - Facebook" "https://facebook.com/lagosbakery"
           "A fresh bakery in Lagos, Nigeria, baking bread and pastries for the community."
           "facebook.com";
         GoogleScraper.MkResult
           "Mama Ngozi Kitchen | Facebook" "https://facebook.com/mamangozi"
           "Bakery, restaurant and catering in Lagos, Nigeria: bread and pastries baked daily. Call +234 801 234 5678 to order."
           "facebook.com" ]
  else [].

(** The Google pass over [two_hits] on the table that holds the bakery
    page, with the minimum at 50: what it returns and the world it leaves. *)
Definition google_found : list dict :=
  Eval vm_compute in
    Sample.returned []
      (GoogleScraper.discover_new_pages cfg_low Sample.clock two_hits Sample.w1).

Definition w_google : world :=
  Eval vm_compute in
    (GoogleScraper.discover_new_pages cfg_low Sample.clock two_hits Sample.w1).2.

End Scenario.

(** ** Predicates used to state the further properties *)

Module Facts.

(** The text fields [' '.join] needs: each is a string or absent. *)
Definition text_fields_ok (bd : dict) : Prop :=
  Forall (fun key => exists s, get_or bd key (VStr "") = VStr s)
         ["business_name"; "description"; "location"; "category"].

(** Row ids grow with the position in the table and start at 1. *)
Definition ids_ok (d : Sqlite.db) : Prop :=
  StronglySorted Z.lt (map Sqlite.id (Sqlite.businesses d)) /\
  Forall (fun r => 1 <= Sqlite.id r) (Sqlite.businesses d).

(** Every row of [a] is still in [b], as it was or with [alerted] set. *)
Definition kept (a b : Sqlite.db) : Prop :=
  forall r, r ∈ Sqlite.businesses a ->
            r ∈ Sqlite.businesses b \/ Sqlite.set_alerted r ∈ Sqlite.businesses b.

(** [a] may stand before [b] in the pending list: its score is higher, or
    the scores are equal and its discovery date is not earlier. *)
Definition not_after (a b : Sqlite.row) : Prop :=
  match Sqlite.sql_compare (Sqlite.confidence_score a) (Sqlite.confidence_score b) with
  | Gt => True
  | Eq => String.compare (Sqlite.discovered_date a) (Sqlite.discovered_date b) <> Lt
  | Lt => False
  end.

(** The alerts a call of [send_alert] hands over for a record: one per
    channel that is switched on, set up, and whose transport goes through. *)
Definition deliveries (am : AlertManager.alert_manager) (net : AlertManager.transports)
    (business : Sqlite.row) : list (string * Z) :=
  (if AlertManager.email_enabled am && AlertManager.email_configured net
      && AlertManager.smtp_send net business
   then [("email", Sqlite.id business)] else [])
  ++ (if AlertManager.telegram_enabled am && AlertManager.telegram_configured net
         && AlertManager.telegram_post net business
      then [("telegram", Sqlite.id business)] else [])
  ++ (if AlertManager.desktop_enabled am && AlertManager.plyer_installed net
         && AlertManager.notify net business
      then [("desktop", Sqlite.id business)] else []).

(** [w'] differs from [w] by further log messages and by the deliveries
    [ds]. *)
Definition extends (w : world) (ds : list (string * Z)) (w' : world) : Prop :=
  store w' = store w /\ ticks w' = ticks w /\ sent w' = sent w ++ ds /\
  exists msgs, log w' = log w ++ msgs.

(** The alerts a call of [send_batch_alert] hands over for a batch: the
    whole batch by e-mail and the whole batch by Telegram, each if the
    channel is switched on, set up, and its transport goes through. *)
Definition batch_deliveries (am : AlertManager.alert_manager)
    (net : AlertManager.transports) (businesses : list Sqlite.row) : list (string * Z) :=
  (if AlertManager.email_enabled am && AlertManager.email_configured net
      && AlertManager.smtp_send_batch net businesses
   then map (fun b => ("email", Sqlite.id b)) businesses else [])
  ++ (if AlertManager.telegram_enabled am && AlertManager.telegram_configured net
         && AlertManager.telegram_post_batch net businesses
      then map (fun b => ("telegram", Sqlite.id b)) businesses else []).

(** The row [add_business] stores for the record [sd]: the record's
    columns, the hash of its URL, and one clock reading for both dates. *)
Definition reported (sd : dict) (r : Sqlite.row) : Prop :=
  exists url now,
    get sd "page_url" = VStr url /\
    r = Database.new_row sd url (Database.generate_hash url) now (Sqlite.id r).

(** What a discovery pass did between [w] and [w']: it appended the
    records [new] to its list and one row for each of them to the table,
    and every appended row satisfies [ok]. *)
Definition pass_step (ok : Sqlite.row -> Prop) (w : world) (found : list dict)
    (w' : world) (found' : list dict) : Prop :=
  exists new rows,
    found' = found ++ new /\
    Sqlite.businesses (store w') = Sqlite.businesses (store w) ++ rows /\
    Forall2 reported new rows /\ Forall ok rows.

(** A row the Google pass can store: its score is an integer between the
    minimum and 65, it is a Facebook or LinkedIn row without phone, e-mail
    and creation date, and it is waiting for its alert. *)
Definition google_row (min_score : Z) (r : Sqlite.row) : Prop :=
  (exists n, Sqlite.confidence_score r = VInt n /\ min_score <= n <= 65) /\
  (Sqlite.platform r = VStr "Facebook" \/ Sqlite.platform r = VStr "LinkedIn") /\
  Sqlite.phone r = VStr "" /\ Sqlite.email r = VStr "" /\
  Sqlite.page_created_date r = VStr "" /\ Sqlite.alerted r = false.

(** The search-history entry of a query: its platform, its text and the
    number of results the search returned for it. *)
Definition history_of (search_google : string -> string -> list GoogleScraper.search_result)
    (q : GoogleScraper.query_data) (e : Sqlite.search_entry) : Prop :=
  Sqlite.sh_platform e = GoogleScraper.platform q /\
  Sqlite.sh_query e = GoogleScraper.query q /\
  Sqlite.sh_results_count e
  = Text.len (search_google (GoogleScraper.query q) (GoogleScraper.time_filter q)).

(** A row as a discovery pass leaves it: waiting for its alert, not
    exported, both dates from one clock reading, the hash that of its URL,
    and a score that passed the minimum. *)
Definition fresh_lead (min_score : Z) (r : Sqlite.row) : Prop :=
  Sqlite.alerted r = false /\ Sqlite.exported r = false /\
  Sqlite.discovered_date r = Sqlite.last_updated r /\
  Sqlite.hash r = Database.generate_hash (Sqlite.page_url r) /\
  Logic.meets min_score r.

(** The table of [w] is the table of [d0] followed by rows that satisfy
    [ok]. *)
Definition appends (ok : Sqlite.row -> Prop) (d0 : Sqlite.db) (w : world) : Prop :=
  exists rows,
    Sqlite.businesses (store w) = Sqlite.businesses d0 ++ rows /\ Forall ok rows.

(** The step of a loop of a pass: rows appended as reported, the search
    history untouched. *)
Definition loop_step (ok : Sqlite.row -> Prop) (w : world) (found : list dict)
    (w' : world) (found' : list dict) : Prop :=
  pass_step ok w found w' found' /\
  Sqlite.search_history (store w') = Sqlite.search_history (store w).

(** A column passes a filter of [get_recent_businesses]: there is no
    filter, the filter is the empty string, or the column holds the text
    (as text, or as the number it spells). *)
Definition passes (filter : option string) (column : value) : Prop :=
  match filter with
  | None => True
  | Some p => p = "" \/ column = VStr p \/ exists n, column = VInt n /\ Text.of_Z n = p
  end.

(** [a] was not discovered before [b]. *)
Definition not_older (a b : Sqlite.row) : Prop :=
  String.compare (Sqlite.discovered_date a) (Sqlite.discovered_date b) <> Lt.

(** What every plan of [ORDER BY discovered_date DESC] guarantees: the
    rows it was given, each as often as given, no row before a newer one. *)
Definition date_order (sort : list Sqlite.row -> list Sqlite.row) : Prop :=
  forall l, sort l ≡ₚ l /\ StronglySorted not_older (sort l).

End Facts.

(** ** task_scheduler.py: the discovery tasks of class TaskScheduler *)

Module Tasks.

Section Scheduler.

(** The global [config], the clock, and the searches behind the Facebook
    and the Google scraper. As in the notifier, the text of the exception
    that the source appends to its error message is left out. *)
Variable cfg : Config.config.
Variable clock : nat -> string.
Variable search_pages : string -> string -> list dict.
Variable search_google : string -> string -> list GoogleScraper.search_result.

(** [run_facebook_discovery]. *)
Definition run_facebook_discovery : M unit :=
  try_except
    (logger INFO "Running Facebook discovery task..." ;;
     discovered <- FacebookScraper.discover_new_pages cfg clock search_pages ;;
     logger INFO ("Facebook discovery completed: " +:+ Text.of_Z (Text.len discovered)
                  +:+ " new pages found"))%run
    (fun e => logger ERROR "Error in Facebook discovery task").

(** [run_linkedin_discovery]. *)
Definition run_linkedin_discovery : M unit :=
  try_except
    (logger INFO "Running LinkedIn discovery task..." ;;
     discovered <- LinkedInScraper.discover_new_companies ;;
     logger INFO ("LinkedIn discovery completed: " +:+ Text.of_Z (Text.len discovered)
                  +:+ " new companies found"))%run
    (fun e => logger ERROR "Error in LinkedIn discovery task").

(** [run_google_discovery]. *)
Definition run_google_discovery : M unit :=
  try_except
    (logger INFO "Running Google discovery task..." ;;
     discovered <- GoogleScraper.discover_new_pages cfg clock search_google ;;
     logger INFO ("Google discovery completed: " +:+ Text.of_Z (Text.len discovered)
                  +:+ " new pages found"))%run
    (fun e => logger ERROR "Error in Google discovery task").

End Scheduler.

End Tasks.

(** * Properties *)

(** ** Test vectors

    The digest function against the RFC 1321 vectors and against digests
    of one-block and two-block messages around the padding boundary. *)

Example md5_empty :
  Hashlib.md5_hexdigest (Hashlib.bytes_of "") = "d41d8cd98f00b204e9800998ecf8427e".
Proof. vm_compute. reflexivity. Qed.

Example md5_a :
  Hashlib.md5_hexdigest (Hashlib.bytes_of "a") = "0cc175b9c0f1b6a831c399e269772661".
Proof. vm_compute. reflexivity. Qed.

Example md5_abc :
  Hashlib.md5_hexdigest (Hashlib.bytes_of "abc") = "900150983cd24fb0d6963f7d28e17f72".
Proof. vm_compute. reflexivity. Qed.

Example md5_55_bytes :
  Hashlib.md5_hexdigest (repeat 120 55) = "04364420e25c512fd958a70738aa8f72".
Proof. vm_compute. reflexivity. Qed.

Example md5_56_bytes :
  Hashlib.md5_hexdigest (repeat 120 56) = "668a72d5ba17f08e62dabcafad6db14b".
Proof. vm_compute. reflexivity. Qed.

Example md5_64_bytes :
  Hashlib.md5_hexdigest (repeat 120 64) = "c1bb4f81d892b2d57947682aeb252456".
Proof. vm_compute. reflexivity. Qed.

Example md5_120_bytes :
  Hashlib.md5_hexdigest (repeat 120 120) = "fb98667f98096de92620b64f46e1c5b5".
Proof. vm_compute. reflexivity. Qed.

Example replace_suffix :
  Text.replace " - Facebook" "" "Lagos Bakery - Facebook" = "Lagos Bakery".
Proof. vm_compute. reflexivity. Qed.

Example strip_spaces : Text.strip "  ab c " = "ab c".
Proof. vm_compute. reflexivity. Qed.

Example contains_substring :
  Text.contains "lagos" "a bakery in lagos." = true /\ Text.contains "abuja" "lagos" = false.
Proof. vm_compute. auto. Qed.

Example join_and_lower :
  Text.join ", " ["a"; "b"; "c"] = "a, b, c" /\ Text.lower "AbZ@[z" = "abz@[z"
  /\ Text.of_Z 15 = "15".
Proof. vm_compute. auto. Qed.

(** ** Text *)

Lemma lower_ascii_idemp c : Text.lower_ascii (Text.lower_ascii c) = Text.lower_ascii c.
Proof. destruct c as [[] [] [] [] [] [] [] []]; reflexivity. Qed.

Lemma lower_idemp s : Text.lower (Text.lower s) = Text.lower s.
Proof. induction s as [|c s IH]; simpl; [reflexivity|]. by rewrite lower_ascii_idemp, IH. Qed.

(** ** The scoring engine *)

Section ScoringFacts.

Import LeadScorer.

Variable self : scorer.

Lemma _score_location_bounds text :
  0 <= (_score_location self text).1 <= 30.
Proof.
  unfold _score_location.
  destruct (List.find _ (Config.signals_of _ "country"));
    destruct (List.filter _ (Config.signals_of _ "major_cities"));
    destruct (List.find _ (Config.signals_of _ "phone_patterns")); simpl; lia.
Qed.

Lemma _score_category_bounds text category s sg :
  _score_category self text category = Ok (s, sg) -> 0 <= s <= 25.
Proof.
  unfold _score_category. destruct (negb (truthy category)); [intros [= <- <-]; lia|].
  destruct (categories_get self category) as [cd|e]; simpl; [|discriminate].
  destruct (keyword_matches _ _) as [|k ks] eqn:E; intros [= <- <-]; [lia|].
  unfold Text.len. simpl List.length. lia.
Qed.

Lemma _score_contact_info_bounds bd :
  0 <= (_score_contact_info bd).1 <= 20.
Proof.
  unfold _score_contact_info.
  destruct (truthy (get bd "phone")), (truthy (get bd "email")); simpl; lia.
Qed.

Lemma _score_freshness_bounds v : 0 <= _score_freshness v <= 15.
Proof. unfold _score_freshness. destruct (negb (truthy v)); lia. Qed.

Lemma _score_content_quality_bounds bd q :
  _score_content_quality bd = Ok q -> 0 <= q <= 10.
Proof.
  unfold _score_content_quality.
  destruct (py_len _) as [n|e]; simpl; [|discriminate].
  destruct (n >? 50), (truthy (get bd "business_name")); intros [= <-]; lia.
Qed.

(** The pieces [score_parts] is made of, when it returns. *)
Lemma score_parts_inv bd score priority signals :
  score_parts self bd = Ok (score, priority, signals) ->
  exists text cs csig q,
    combined_text bd = Ok text /\
    _score_category self text (get bd "category") = Ok (cs, csig) /\
    _score_content_quality bd = Ok q /\
    score = (_score_location self text).1 + cs + (_score_contact_info bd).1
            + _score_freshness (get bd "page_created_date") + q /\
    _determine_priority self score (get bd "category") = Ok priority.
Proof.
  unfold score_parts.
  destruct (combined_text bd) as [text|e]; simpl; [|discriminate].
  destruct (_score_location self text) as [ls lsig] eqn:El.
  destruct (_score_category self text (get bd "category")) as [[cs csig]|e] eqn:Ecat;
    simpl; [|discriminate].
  destruct (_score_contact_info bd) as [ct ctsig] eqn:Ec.
  destruct (_score_content_quality bd) as [q|e] eqn:Eq; simpl; [|discriminate].
  destruct (_determine_priority _ _ _) as [p|e] eqn:Ep; simpl; [|discriminate].
  intros [= <- <- <-].
  exists text, cs, csig, q. rewrite El. cbn [fst].
  split_and!; first [reflexivity | assumption | lia].
Qed.

Lemma score_parts_bounds bd score priority signals :
  score_parts self bd = Ok (score, priority, signals) -> 0 <= score <= 100.
Proof.
  intros (text & cs & csig & q & _ & Hc & Hq & -> & _)%score_parts_inv.
  pose proof (_score_location_bounds text).
  pose proof (_score_category_bounds _ _ _ _ Hc).
  pose proof (_score_contact_info_bounds bd).
  pose proof (_score_freshness_bounds (get bd "page_created_date")).
  pose proof (_score_content_quality_bounds _ _ Hq). lia.
Qed.

(** What [score_business] returns and does to the world. *)
Lemma score_business_inv bd w bd' w' :
  score_business self bd w = (Ok bd', w') ->
  exists score priority signals,
    score_parts self bd = Ok (score, priority, signals) /\
    bd' = <["scoring_signals" := VList signals]>
            (<["priority" := VStr priority]>
               (<["confidence_score" := VInt (Z.min score 100)]> bd)) /\
    store w' = store w /\ ticks w' = ticks w /\ sent w' = sent w.
Proof.
  unfold score_business.
  destruct (score_parts self bd) as [[[score priority] signals]|e]; [|discriminate].
  cbv [Run.bind logger ret]. intros [= <- <-].
  exists score, priority, signals. auto.
Qed.

Lemma score_business_raise bd w e w' :
  score_business self bd w = (Raise e, w') -> w' = w.
Proof.
  unfold score_business.
  destruct (score_parts self bd) as [[[score priority] signals]|e0].
  - cbv [Run.bind logger ret]. discriminate.
  - cbv [raise]. by intros [= _ <-].
Qed.

(** Every completed call of [score_business] leaves one message in the
    log. *)
Lemma score_business_logs bd w bd' w' :
  score_business self bd w = (Ok bd', w') ->
  exists msg, log w' = log w ++ [(INFO, msg)].
Proof.
  unfold score_business.
  destruct (score_parts self bd) as [[[score priority] signals]|e]; [|discriminate].
  cbv [Run.bind logger ret]. intros [= _ <-]. cbn [log]. eauto.
Qed.

(** A field that [' '.join] accepted is a string or absent. *)
Lemma text_field_ok bd key s :
  text_field bd key = Ok s ->
  get bd key = VStr s \/ (get bd key = VNone /\ s = "").
Proof.
  unfold text_field, get_or, get.
  destruct (bd !! key) as [[]|]; simpl; intros [= <-]; auto.
Qed.

Lemma combined_text_fields bd text :
  combined_text bd = Ok text ->
  exists n d l c,
    text_field bd "business_name" = Ok n /\ text_field bd "description" = Ok d /\
    text_field bd "location" = Ok l /\ text_field bd "category" = Ok c /\
    text = Text.lower (Text.join " " [n; d; l; c]).
Proof.
  unfold combined_text.
  destruct (text_field bd "business_name") as [n|]; [|discriminate].
  destruct (text_field bd "description") as [d|]; [|discriminate].
  destruct (text_field bd "location") as [l|]; [|discriminate].
  destruct (text_field bd "category") as [c|]; [|discriminate].
  cbn [Py.bind]. intros [= <-]. by exists n, d, l, c.
Qed.

Lemma _score_category_returns text category :
  (exists s, category = VStr s) \/ category = VNone ->
  exists r, _score_category self text category = Ok r.
Proof.
  intros [[s ->]| ->]; unfold _score_category.
  - destruct (negb (truthy (VStr s))); [eauto|].
    cbn [categories_get Py.bind].
    destruct (keyword_matches _ _); eauto.
  - cbn [truthy negb]. eauto.
Qed.

Lemma _determine_priority_returns score category :
  (exists s, category = VStr s) \/ category = VNone ->
  exists p, _determine_priority self score category = Ok p.
Proof.
  intros [[s ->]| ->]; unfold _determine_priority; cbn [categories_get Py.bind].
  all: destruct (_ || _); [eauto|]; destruct (score >=? 60); eauto.
Qed.

Lemma _score_content_quality_returns bd d :
  text_field bd "description" = Ok d ->
  exists q, _score_content_quality bd = Ok q.
Proof.
  unfold text_field, _score_content_quality.
  destruct (get_or bd "description" (VStr "")); try discriminate.
  intros _. cbn [py_len Py.bind]. eauto.
Qed.

(** A record whose four text fields are strings (or absent) is scored:
    nothing in [score_business] raises. *)
Lemma score_business_returns bd text w :
  combined_text bd = Ok text ->
  exists bd' w', score_business self bd w = (Ok bd', w').
Proof.
  intros Ht. unfold score_business.
  assert (exists x, score_parts self bd = Ok x) as [[[s p] sg] ->].
  { destruct (combined_text_fields _ _ Ht) as (n & d & l & c & _ & Hd & _ & Hc & _).
    assert ((exists s, get bd "category" = VStr s) \/ get bd "category" = VNone) as Hcat.
    { destruct (text_field_ok _ _ _ Hc) as [?|[? _]]; eauto. }
    unfold score_parts. rewrite Ht. cbn [Py.bind].
    destruct (_score_location self text) as [ls lsig].
    destruct (_score_category_returns text _ Hcat) as [[cs csig] ->]. cbn [Py.bind].
    destruct (_score_contact_info bd) as [ct ctsig].
    destruct (_score_content_quality_returns _ _ Hd) as [q ->]. cbn [Py.bind].
    match goal with
    | |- context [_determine_priority self ?x ?c] =>
        destruct (_determine_priority_returns x c Hcat) as [p ->]
    end.
    cbn [Py.bind]. eauto. }
  cbv [Run.bind logger ret]. eauto.
Qed.

End ScoringFacts.

(** ** Claims about the scoring engine *)

Import LeadScorer.

(** C2. Score bounds: whatever the candidate and the rule tables, the
    five sub-scores are non-negative and the [confidence_score] that
    [score_business] writes is their sum capped at 100, so it lies between
    0 and 100. *)
Theorem confidence_score_bounds (self : scorer) (bd : dict) (w : world) (bd' : dict) (w' : world) :
  score_business self bd w = (Ok bd', w') ->
  exists text cs csig q,
    combined_text bd = Ok text /\
    _score_category self text (get bd "category") = Ok (cs, csig) /\
    _score_content_quality bd = Ok q /\
    0 <= (_score_location self text).1 /\ 0 <= cs /\
    0 <= (_score_contact_info bd).1 /\
    0 <= _score_freshness (get bd "page_created_date") /\ 0 <= q /\
    let total := (_score_location self text).1 + cs + (_score_contact_info bd).1
                 + _score_freshness (get bd "page_created_date") + q in
    bd' !! "confidence_score" = Some (VInt (Z.min total 100)) /\
    0 <= Z.min total 100 <= 100.
Proof.
  intros (score & priority & signals & Hparts & -> & _)%score_business_inv.
  destruct (score_parts_inv _ _ _ _ _ Hparts) as (text & cs & csig & q & Ht & Hc & Hq & -> & _).
  pose proof (_score_location_bounds self text).
  pose proof (_score_category_bounds _ _ _ _ _ Hc).
  pose proof (_score_contact_info_bounds bd).
  pose proof (_score_freshness_bounds (get bd "page_created_date")).
  pose proof (_score_content_quality_bounds _ _ Hq).
  exists text, cs, csig, q. cbv zeta.
  split_and!; try first [assumption | lia].
  rewrite lookup_insert_ne by done. rewrite lookup_insert_ne by done.
  by rewrite lookup_insert_eq.
Qed.

Lemma confidence_score_bounds_witness :
  Sample.bakery_scored !! "confidence_score" = Some (VInt 65) /\
  exists text cs csig q,
    combined_text Sample.bakery = Ok text /\
    _score_category Sample.scorer text (get Sample.bakery "category") = Ok (cs, csig) /\
    _score_content_quality Sample.bakery = Ok q /\
    0 <= (_score_location Sample.scorer text).1 /\ 0 <= cs /\
    0 <= (_score_contact_info Sample.bakery).1 /\
    0 <= _score_freshness (get Sample.bakery "page_created_date") /\ 0 <= q /\
    let total := (_score_location Sample.scorer text).1 + cs
                 + (_score_contact_info Sample.bakery).1
                 + _score_freshness (get Sample.bakery "page_created_date") + q in
    Sample.bakery_scored !! "confidence_score" = Some (VInt (Z.min total 100)) /\
    0 <= Z.min total 100 <= 100.
Proof.
  split; [vm_cast_no_check (eq_refl (Some (VInt 65)))|].
  apply (confidence_score_bounds Sample.scorer Sample.bakery Sample.w0
           Sample.bakery_scored Sample.bakery_world).
  vm_cast_no_check (eq_refl (Ok Sample.bakery_scored, Sample.bakery_world)).
Defined.

(** C10. Frame: [score_business] returns the record it was given with the
    three keys [confidence_score], [priority] and [scoring_signals] set;
    every other key, present or absent, is as it was, and the database, the
    clock and the outbox are not touched. *)
Theorem score_business_frame (self : scorer) (bd : dict) (w : world) (bd' : dict) (w' : world) :
  score_business self bd w = (Ok bd', w') ->
  (forall k : string,
      k <> "confidence_score" -> k <> "priority" -> k <> "scoring_signals" ->
      bd' !! k = bd !! k) /\
  (exists n p sg, bd' !! "confidence_score" = Some (VInt n) /\
                  bd' !! "priority" = Some (VStr p) /\
                  bd' !! "scoring_signals" = Some (VList sg)) /\
  Forall (fun k : string => bd' !! k = bd !! k)
    [ "business_name"; "platform"; "page_url"; "category"; "location"; "phone";
      "email"; "description"; "page_created_date"; "metadata" ] /\
  store w' = store w /\ ticks w' = ticks w /\ sent w' = sent w.
Proof.
  intros (score & priority & signals & _ & -> & Hs & Ht & Hsent)%score_business_inv.
  assert (forall k : string,
             k <> "confidence_score" -> k <> "priority" -> k <> "scoring_signals" ->
             <["scoring_signals" := VList signals]>
               (<["priority" := VStr priority]>
                  (<["confidence_score" := VInt (Z.min score 100)]> bd)) !! k = bd !! k) as Hframe.
  { intros k H1 H2 H3. by rewrite !lookup_insert_ne. }
  split_and!; try assumption.
  - exists (Z.min score 100), priority, signals. split_and!.
    + rewrite lookup_insert_ne by done. rewrite lookup_insert_ne by done.
      by rewrite lookup_insert_eq.
    + rewrite lookup_insert_ne by done. by rewrite lookup_insert_eq.
    + by rewrite lookup_insert_eq.
  - repeat constructor; by apply Hframe.
Qed.

Lemma score_business_frame_witness :
  (forall k : string,
      k <> "confidence_score" -> k <> "priority" -> k <> "scoring_signals" ->
      Sample.bakery_scored !! k = Sample.bakery !! k) /\
  (exists n p sg, Sample.bakery_scored !! "confidence_score" = Some (VInt n) /\
                  Sample.bakery_scored !! "priority" = Some (VStr p) /\
                  Sample.bakery_scored !! "scoring_signals" = Some (VList sg)) /\
  Forall (fun k : string => Sample.bakery_scored !! k = Sample.bakery !! k)
    [ "business_name"; "platform"; "page_url"; "category"; "location"; "phone";
      "email"; "description"; "page_created_date"; "metadata" ] /\
  store Sample.bakery_world = store Sample.w0 /\
  ticks Sample.bakery_world = ticks Sample.w0 /\
  sent Sample.bakery_world = sent Sample.w0.
Proof.
  apply (score_business_frame Sample.scorer Sample.bakery Sample.w0
           Sample.bakery_scored Sample.bakery_world).
  vm_cast_no_check (eq_refl (Ok Sample.bakery_scored, Sample.bakery_world)).
Defined.

(** [_determine_priority] is the first-match rule of the specification,
    applied to the category's default priority. *)
Lemma _determine_priority_spec (self : scorer) (score : Z) (category : value) (p : string) :
  _determine_priority self score category = Ok p ->
  exists cd, categories_get self category = Ok cd /\
             p = Spec.priority score (Config.priority_of cd).
Proof.
  unfold _determine_priority, Spec.priority.
  destruct (categories_get self category) as [cd|e]; [|discriminate].
  cbn [Py.bind]. intros H. exists cd. split; [reflexivity|].
  destruct (score >=? 80); cbn [orb] in H |- *.
  - by injection H.
  - destruct (String.eqb _ "high"); [by injection H|].
    destruct (score >=? 60); by injection H.
Qed.

(** Capping the score at 100 does not move it across 60 or 80. *)
Lemma priority_capped (score : Z) (d : string) :
  Spec.priority (Z.min score 100) d = Spec.priority score d.
Proof.
  unfold Spec.priority.
  replace (Z.min score 100 >=? 80) with (score >=? 80) by lia.
  replace (Z.min score 100 >=? 60) with (score >=? 60) by lia.
  reflexivity.
Qed.

(** With the category default fixed, the tier grows with the score. *)
Lemma priority_monotone (s1 s2 : Z) (d : string) :
  s1 <= s2 -> Spec.tier (Spec.priority s1 d) <= Spec.tier (Spec.priority s2 d).
Proof.
  intros Hle. unfold Spec.priority.
  destruct (s1 >=? 80) eqn:E1, (s2 >=? 80) eqn:E2; try lia;
    destruct (String.eqb d "high"); try (vm_compute; congruence);
    destruct (s1 >=? 60) eqn:E3, (s2 >=? 60) eqn:E4; try lia;
    vm_compute; congruence.
Qed.

(** The priority the scorer looks up for a category is the one the table
    configures for it. *)
Lemma priority_of_configured (self : scorer) (category : value)
    (cd : option Config.category_data) :
  categories_get self category = Ok cd ->
  Config.priority_of cd = Spec.category_default (categories self) category.
Proof.
  unfold categories_get, Spec.category_default.
  destruct category as [|n|name|l|d]; intros [= <-]; try reflexivity.
  induction (categories self) as [|[entry_name entry] table IH];
    cbn [assoc Spec.configured_priority]; [reflexivity|].
  destruct (String.eqb name entry_name); [|exact IH].
  unfold Config.priority_of. by destruct (Config.priority entry).
Qed.

(** C4. Priority: for every scored candidate the tier written by
    [score_business] is the first match of: score >= 80 gives high; the
    default priority the table configures for the candidate's category is
    high gives high; score >= 60 gives medium; otherwise low. Hence of two
    scored candidates whose categories have the same configured default,
    the one with the higher score never gets the lower tier. *)
Theorem priority_assignment (self : scorer) (bd1 bd2 : dict) (w1 w2 : world)
    (bd1' bd2' : dict) (w1' w2' : world) :
  score_business self bd1 w1 = (Ok bd1', w1') ->
  score_business self bd2 w2 = (Ok bd2', w2') ->
  let default1 := Spec.category_default (categories self) (get bd1 "category") in
  let default2 := Spec.category_default (categories self) (get bd2 "category") in
  exists n1 n2,
    bd1' !! "confidence_score" = Some (VInt n1) /\
    bd2' !! "confidence_score" = Some (VInt n2) /\
    bd1' !! "priority" = Some (VStr (Spec.priority n1 default1)) /\
    bd2' !! "priority" = Some (VStr (Spec.priority n2 default2)) /\
    (default1 = default2 -> n1 <= n2 ->
     Spec.tier (Spec.priority n1 default1) <= Spec.tier (Spec.priority n2 default2)).
Proof.
  intros (s1 & p1 & sg1 & Hp1 & -> & _)%score_business_inv
         (s2 & p2 & sg2 & Hp2 & -> & _)%score_business_inv.
  cbv zeta.
  apply score_parts_inv in Hp1 as (_ & _ & _ & _ & _ & _ & _ & _ & Hd1).
  apply score_parts_inv in Hp2 as (_ & _ & _ & _ & _ & _ & _ & _ & Hd2).
  apply _determine_priority_spec in Hd1 as (cd1 & Hc1 & ->).
  apply _determine_priority_spec in Hd2 as (cd2 & Hc2 & ->).
  rewrite <- (priority_of_configured _ _ _ Hc1), <- (priority_of_configured _ _ _ Hc2).
  exists (Z.min s1 100), (Z.min s2 100).
  rewrite !priority_capped.
  split_and!.
  - rewrite lookup_insert_ne by done. rewrite lookup_insert_ne by done.
    by rewrite lookup_insert_eq.
  - rewrite lookup_insert_ne by done. rewrite lookup_insert_ne by done.
    by rewrite lookup_insert_eq.
  - rewrite lookup_insert_ne by done. by rewrite lookup_insert_eq.
  - rewrite lookup_insert_ne by done. by rewrite lookup_insert_eq.
  - intros -> Hle. rewrite <- (priority_capped s1), <- (priority_capped s2).
    by apply priority_monotone.
Qed.

Lemma priority_assignment_witness :
  (* what the table configures *)
  Spec.category_default (categories Sample.scorer) (VStr "food") = "medium" /\
  Spec.category_default (categories Sample.scorer) (VStr "fintech") = "high" /\
  (* rule 4: medium category, score 5 *)
  (Sample.kiosk_scored !! "confidence_score", Sample.kiosk_scored !! "priority")
    = (Some (VInt 5), Some (VStr "low")) /\
  (* rule 3: medium category, score 65 *)
  (Sample.bakery_scored !! "confidence_score", Sample.bakery_scored !! "priority")
    = (Some (VInt 65), Some (VStr "medium")) /\
  (* rule 2: high category, score 10 *)
  (Scenario.startup_scored !! "confidence_score", Scenario.startup_scored !! "priority")
    = (Some (VInt 10), Some (VStr "high")) /\
  (* rule 1: medium category, score 90 *)
  (Scenario.star_scored !! "confidence_score", Scenario.star_scored !! "priority")
    = (Some (VInt 90), Some (VStr "high")) /\
  (* the rule, for the two medium leads and for the high and the strong lead *)
  (exists n1 n2,
     Sample.kiosk_scored !! "confidence_score" = Some (VInt n1) /\
     Sample.bakery_scored !! "confidence_score" = Some (VInt n2) /\
     Sample.kiosk_scored !! "priority" = Some (VStr (Spec.priority n1 "medium")) /\
     Sample.bakery_scored !! "priority" = Some (VStr (Spec.priority n2 "medium")) /\
     ("medium" = "medium" -> n1 <= n2 ->
      Spec.tier (Spec.priority n1 "medium") <= Spec.tier (Spec.priority n2 "medium"))) /\
  (exists n1 n2,
     Scenario.startup_scored !! "confidence_score" = Some (VInt n1) /\
     Scenario.star_scored !! "confidence_score" = Some (VInt n2) /\
     Scenario.startup_scored !! "priority" = Some (VStr (Spec.priority n1 "high")) /\
     Scenario.star_scored !! "priority" = Some (VStr (Spec.priority n2 "medium")) /\
     ("high" = "medium" -> n1 <= n2 ->
      Spec.tier (Spec.priority n1 "high") <= Spec.tier (Spec.priority n2 "medium"))).
Proof.
  split; [vm_compute; reflexivity|].
  split; [vm_compute; reflexivity|].
  split; [vm_cast_no_check (eq_refl (Some (VInt 5), Some (VStr "low")))|].
  split; [vm_cast_no_check (eq_refl (Some (VInt 65), Some (VStr "medium")))|].
  split; [vm_cast_no_check (eq_refl (Some (VInt 10), Some (VStr "high")))|].
  split; [vm_cast_no_check (eq_refl (Some (VInt 90), Some (VStr "high")))|].
  split.
  - apply (priority_assignment Sample.scorer Sample.kiosk Sample.bakery Sample.w0 Sample.w0
             Sample.kiosk_scored Sample.bakery_scored Sample.kiosk_world Sample.bakery_world).
    + vm_cast_no_check (eq_refl (Ok Sample.kiosk_scored, Sample.kiosk_world)).
    + vm_cast_no_check (eq_refl (Ok Sample.bakery_scored, Sample.bakery_world)).
  - apply (priority_assignment Sample.scorer Scenario.startup Scenario.star
             Sample.w0 Sample.w0 Scenario.startup_scored Scenario.star_scored
             Scenario.startup_world Scenario.star_world).
    + vm_cast_no_check (eq_refl (Ok Scenario.startup_scored, Scenario.startup_world)).
    + vm_cast_no_check (eq_refl (Ok Scenario.star_scored, Scenario.star_world)).
Defined.

(** ** The category sub-score *)

Lemma remove_dups_NoDup (l : list string) : NoDup l -> remove_dups l = l.
Proof.
  induction 1 as [|x l Hx Hl IH]; simpl; [reflexivity|].
  destruct (decide_rel elem_of x l); [contradiction|]. by rewrite IH.
Qed.

Lemma NoDup_filter_bool (f : string -> bool) (l : list string) :
  NoDup l -> NoDup (List.filter f l).
Proof. rewrite !NoDup_ListNoDup. apply List.NoDup_filter. Qed.

(** The combined text is lower-case already, so matching a lower-cased
    keyword against it is a case-insensitive match. *)
Lemma combined_text_lower (bd : dict) (text : string) :
  combined_text bd = Ok text -> Text.lower text = text.
Proof.
  intros (n & d & l & c & _ & _ & _ & _ & ->)%combined_text_fields. apply lower_idemp.
Qed.

Lemma keyword_matches_appears (keywords : list string) (text : string) :
  Text.lower text = text ->
  keyword_matches keywords text = List.filter (Spec.appears text) keywords.
Proof.
  intros Hl. unfold keyword_matches, Spec.appears. by rewrite Hl.
Qed.

(** C5 as worded fails on a table that lists a keyword twice: the code
    counts both entries (score 10), the distinct count is one (score 5). *)
Lemma category_rule_fails : ~ Spec.category_rule.
Proof.
  intros H.
  specialize (H (LeadScorer.init Sample.cfg_repeated) Sample.bakery Sample.bakery_text
                10 ["Category keywords: bakery, bakery"]).
  assert (10 = 5) as Habs; [|discriminate Habs].
  etrans; [apply H|].
  - vm_cast_no_check (eq_refl (Ok Sample.bakery_text)).
  - vm_cast_no_check (eq_refl (Ok (10, ["Category keywords: bakery, bakery"]))).
  - vm_cast_no_check (eq_refl 5).
Qed.

(** C5, amended. The category sub-score is 0 (with no signal) when the
    candidate's category has no associated keywords, in particular when the
    category is empty; otherwise it is min(m x 5, 25) where m counts the
    entries of the category's keyword list that appear as case-insensitive
    substrings of the combined text, an entry listed twice counting twice.
    When no keyword is listed twice, m is the number of distinct keywords
    that appear. *)
Theorem category_score_counts_entries (self : scorer) (bd : dict) (text : string) :
  combined_text bd = Ok text ->
  let keywords := Spec.associated_keywords self (get bd "category") in
  let matches := List.filter (Spec.appears text) keywords in
  _score_category self text (get bd "category")
    = Ok (Z.min (Text.len matches * 5) 25,
          match matches with
          | [] => []
          | _ => ["Category keywords: " +:+ Text.join ", " (Text.slice_to 3 matches)]
          end) /\
  (keywords = [] -> _score_category self text (get bd "category") = Ok (0, [])) /\
  (NoDup keywords -> Text.len matches = Spec.distinct_matches keywords text).
Proof.
  intros Ht keywords matches.
  assert (_score_category self text (get bd "category")
          = Ok (Z.min (Text.len matches * 5) 25,
                match matches with
                | [] => []
                | _ => ["Category keywords: " +:+ Text.join ", " (Text.slice_to 3 matches)]
                end)) as Hscore.
  { subst matches keywords.
    pose proof (combined_text_lower _ _ Ht) as Hl.
    destruct (combined_text_fields _ _ Ht) as (_ & _ & _ & c & _ & _ & _ & Hc & _).
    destruct (text_field_ok _ _ _ Hc) as [-> | [-> _]]; [|reflexivity].
    unfold _score_category, Spec.associated_keywords. cbn [truthy].
    destruct (String.eqb c ""); [reflexivity|].
    cbn [negb categories_get Py.bind].
    rewrite (keyword_matches_appears _ _ Hl).
    by destruct (List.filter _ _). }
  split_and!; [exact Hscore | |].
  - intros Hk. rewrite Hscore. subst matches. by rewrite Hk.
  - intros Hnd. unfold Spec.distinct_matches. subst matches.
    by rewrite remove_dups_NoDup by by apply NoDup_filter_bool.
Qed.

Lemma category_score_counts_entries_witness :
  let self := LeadScorer.init Sample.cfg_repeated in
  let keywords := Spec.associated_keywords self (get Sample.bakery "category") in
  let matches := List.filter (Spec.appears Sample.bakery_text) keywords in
  _score_category self Sample.bakery_text (get Sample.bakery "category")
    = Ok (Z.min (Text.len matches * 5) 25,
          match matches with
          | [] => []
          | _ => ["Category keywords: " +:+ Text.join ", " (Text.slice_to 3 matches)]
          end) /\
  (keywords = [] ->
   _score_category self Sample.bakery_text (get Sample.bakery "category") = Ok (0, [])) /\
  (NoDup keywords -> Text.len matches = Spec.distinct_matches keywords Sample.bakery_text).
Proof.
  apply (category_score_counts_entries (LeadScorer.init Sample.cfg_repeated)
           Sample.bakery Sample.bakery_text).
  vm_cast_no_check (eq_refl (Ok Sample.bakery_text)).
Defined.

(** ** The deduplication store *)

Import Sqlite Logic.

Lemma int64_spec (n : Z) : int64 n = true <-> - 2 ^ 63 <= n < 2 ^ 63.
Proof. unfold int64. rewrite andb_true_iff, Z.leb_le, Z.ltb_lt. tauto. Qed.

Lemma count_hash_positive (h : string) (d : db) :
  (count_hash h d >? 0) = true <-> exists r, r ∈ businesses d /\ hash r = h.
Proof.
  unfold count_hash, Text.len. split.
  - intros Hc. destruct (List.filter _ _) as [|r l] eqn:E; [discriminate|].
    assert (In r (List.filter (fun r => String.eqb (hash r) h) (businesses d))) as Hin
      by (rewrite E; left; reflexivity).
    apply filter_In in Hin as [Hin Hh]. apply String.eqb_eq in Hh.
    exists r. split; [by apply list_elem_of_In | done].
  - intros (r & Hin%list_elem_of_In & Hh).
    assert (In r (List.filter (fun r => String.eqb (hash r) h) (businesses d))) as Hf.
    { apply filter_In. split; [done | by apply String.eqb_eq]. }
    destruct (List.filter _ _); [destruct Hf|].
    apply Z.gtb_lt. cbn [List.length]. lia.
Qed.

Lemma count_hash_zero (h : string) (d : db) :
  (count_hash h d >? 0) = false <-> forall r, r ∈ businesses d -> hash r <> h.
Proof.
  split.
  - intros Hc r Hin Hh.
    assert ((count_hash h d >? 0) = true) by (apply count_hash_positive; eauto). congruence.
  - intros Hno. destruct (count_hash h d >? 0) eqn:E; [|reflexivity].
    apply count_hash_positive in E as (r & Hin & Hh). by destruct (Hno r Hin).
Qed.

Lemma business_exists_eq (url : string) (w : world) :
  Database.business_exists url w
  = (Ok (count_hash (Database.generate_hash url) (store w) >? 0), w).
Proof. reflexivity. Qed.

(** The three ways [add_business] can go. *)
Lemma add_business_duplicate (clock : nat -> string) (bd : dict) (url : string) (w : world) :
  get bd "page_url" = VStr url ->
  (count_hash (Database.generate_hash url) (store w) >? 0) = true ->
  Database.add_business clock bd w = (Ok false, w).
Proof.
  intros Hu Hc. unfold Database.add_business. rewrite Hu.
  unfold Run.bind. rewrite business_exists_eq, Hc. reflexivity.
Qed.

Lemma add_business_fresh (clock : nat -> string) (bd : dict) (url : string) (w : world) :
  get bd "page_url" = VStr url ->
  (count_hash (Database.generate_hash url) (store w) >? 0) = false ->
  Database.add_business clock bd w
  = match insert_business
            (Database.new_row bd url (Database.generate_hash url) (clock (ticks w)))
            (store w) with
    | Ok d' => (Ok true, MkWorld d' (log w) (Datatypes.S (ticks w)) (sent w))
    | Raise e => (Raise e, MkWorld (store w) (log w) (Datatypes.S (ticks w)) (sent w))
    end.
Proof.
  intros Hu Hc. unfold Database.add_business. rewrite Hu.
  unfold Run.bind at 1. rewrite business_exists_eq, Hc.
  cbv [Run.bind Run.now execute ret store log ticks sent].
  by destruct (insert_business _ _).
Qed.

Lemma add_business_not_str (clock : nat -> string) (bd : dict) (w : world) :
  (forall url, get bd "page_url" <> VStr url) ->
  Database.add_business clock bd w = (Raise AttributeError, w).
Proof.
  intros Hu. unfold Database.add_business.
  destruct (get bd "page_url") as [| | url | |]; try reflexivity. by destruct (Hu url).
Qed.

(** What the INSERT does when it goes through. *)
Lemma insert_business_ok (r : Z -> row) (d d' : db) :
  insert_business r d = Ok d' ->
  d' = MkDb (businesses d ++ [r (next_id (businesses d))]) (search_history d) /\
  forall r', r' ∈ businesses d -> hash r' <> hash (r (next_id (businesses d))).
Proof.
  unfold insert_business.
  destruct (negb (forallb _ _)); [discriminate|].
  destruct (negb (_ && _)); [discriminate|].
  destruct (existsb _ _); [discriminate|].
  destruct (existsb _ (businesses d)) eqn:Eh; [discriminate|].
  intros [= <-]. split; [reflexivity|].
  intros r' Hin%list_elem_of_In Heq.
  assert (existsb (fun r'0 => String.eqb (hash r'0) (hash (r (next_id (businesses d)))))
                  (businesses d) = true) as Habs; [|congruence].
  apply existsb_exists. exists r'. split; [done | by apply String.eqb_eq].
Qed.

(** The INSERT goes through for an insertable record whose hash is new,
    in a consistent database. *)
Lemma insert_business_new_row (bd : dict) (url now : string) (d : db) :
  consistent d -> insertable bd = true ->
  (count_hash (Database.generate_hash url) d >? 0) = false ->
  insert_business (Database.new_row bd url (Database.generate_hash url) now) d
  = Ok (MkDb (businesses d
              ++ [Database.new_row bd url (Database.generate_hash url) now
                    (next_id (businesses d))])
             (search_history d)).
Proof.
  intros [Hh _] Hins Hc. unfold insert_business.
  unfold insertable in Hins. apply andb_prop in Hins as [[Hb Hn1]%andb_prop Hn2].
  cbn [Database.new_row business_name platform category location phone email description
         confidence_score priority page_created_date page_url hash].
  rewrite Hb, Hn1, Hn2. cbn [negb andb].
  assert (existsb (fun r' => String.eqb (hash r') (Database.generate_hash url))
                  (businesses d) = false) as Eh.
  { apply not_true_is_false. intros (r' & Hin & Heq%String.eqb_eq)%existsb_exists.
    apply (proj1 (count_hash_zero _ _) Hc r'); [by apply list_elem_of_In | done]. }
  assert (existsb (fun r' => String.eqb (page_url r') url) (businesses d) = false) as Eu.
  { apply not_true_is_false. intros (r' & Hin & Heq%String.eqb_eq)%existsb_exists.
    apply (proj1 (count_hash_zero _ _) Hc r'); [by apply list_elem_of_In|].
    rewrite Forall_forall in Hh. rewrite (Hh r') by by apply list_elem_of_In.
    by rewrite Heq. }
  by rewrite Eu, Eh.
Qed.

(** [consistent] is an invariant of every operation of the handler. *)
Lemma consistent_empty : consistent Sqlite.empty.
Proof. split; [constructor | apply NoDup_nil_2]. Qed.

Lemma consistent_insert (bd : dict) (url now : string) (d d' : db) :
  consistent d ->
  insert_business (Database.new_row bd url (Database.generate_hash url) now) d = Ok d' ->
  consistent d'.
Proof.
  intros [Hh Hnd] [-> Hnew]%insert_business_ok. split; cbn [businesses].
  - apply Forall_app. split; [done|]. by repeat constructor.
  - rewrite map_app. apply NoDup_app. split_and!; [done | | apply NoDup_singleton].
    intros h Hin Hin'. apply list_elem_of_singleton in Hin'. subst h.
    apply list_elem_of_In, in_map_iff in Hin as (r' & Heq & Hin).
    by apply (Hnew r'); [apply list_elem_of_In|].
Qed.

Lemma consistent_add_business (clock : nat -> string) (bd : dict) (w : world) :
  consistent (store w) -> consistent (store (Database.add_business clock bd w).2).
Proof.
  intros Hc.
  destruct (get bd "page_url") as [| | url | |] eqn:Hu;
    try (rewrite add_business_not_str by (intros ?; congruence); exact Hc).
  destruct (count_hash (Database.generate_hash url) (store w) >? 0) eqn:E.
  - by rewrite (add_business_duplicate _ _ _ _ Hu E).
  - rewrite (add_business_fresh _ _ _ _ Hu E).
    destruct (insert_business _ _) as [d'|e] eqn:Ei; cbn [snd store]; [|done].
    by eapply consistent_insert.
Qed.

Lemma consistent_update_alerted (business_id : Z) (d : db) :
  consistent d -> consistent (update_alerted business_id d).
Proof.
  intros [Hh Hnd].
  assert (forall rows : list row,
             map hash (map (fun r => if id r =? business_id then set_alerted r else r) rows)
             = map hash rows) as Hmap.
  { induction rows as [|r rows IH]; cbn [map]; [done|].
    rewrite IH. by destruct (id r =? business_id). }
  split; cbn [update_alerted businesses].
  - apply List.Forall_map. eapply Forall_impl; [exact Hh|]. intros r Hr. cbv beta.
    by destruct (id r =? business_id).
  - by rewrite Hmap.
Qed.

(** An UPDATE for an id that no row has changes nothing. *)
Lemma update_alerted_absent (business_id : Z) (d : db) :
  existsb (fun r => id r =? business_id) (businesses d) = false ->
  update_alerted business_id d = d.
Proof.
  destruct d as [rows hist]. unfold update_alerted. cbn [businesses search_history].
  intros Hno. f_equal.
  induction rows as [|r rows IH]; cbn [map existsb] in *; [done|].
  apply orb_false_iff in Hno as [-> Hno]. by rewrite IH.
Qed.

(** The two ways [mark_as_alerted] can go. *)
Lemma mark_as_alerted_ok (business_id : Z) (w : world) :
  (int64 business_id || existsb (fun r => id r =? business_id) (businesses (store w))) = true ->
  Database.mark_as_alerted business_id w
  = (Ok tt, MkWorld (update_alerted business_id (store w)) (log w) (ticks w) (sent w)).
Proof. intros H. unfold Database.mark_as_alerted, execute. by rewrite H. Qed.

Lemma mark_as_alerted_raise (business_id : Z) (w : world) :
  (int64 business_id || existsb (fun r => id r =? business_id) (businesses (store w))) = false ->
  Database.mark_as_alerted business_id w = (Raise OverflowError, w).
Proof. intros H. unfold Database.mark_as_alerted, execute. by rewrite H. Qed.

(** Either way the table is the updated one, and nothing else changes. *)
Lemma mark_as_alerted_store (business_id : Z) (w : world) :
  store (Database.mark_as_alerted business_id w).2 = update_alerted business_id (store w) /\
  log (Database.mark_as_alerted business_id w).2 = log w /\
  ticks (Database.mark_as_alerted business_id w).2 = ticks w /\
  sent (Database.mark_as_alerted business_id w).2 = sent w.
Proof.
  destruct (int64 business_id
            || existsb (fun r => id r =? business_id) (businesses (store w))) eqn:E.
  - by rewrite (mark_as_alerted_ok _ _ E).
  - rewrite (mark_as_alerted_raise _ _ E). cbn [snd]. split; [|done].
    apply orb_false_iff in E as [_ E]. by rewrite (update_alerted_absent _ _ E).
Qed.

(** An id that a row of the table carries. *)
Lemma mark_as_alerted_row (r : row) (w : world) :
  r ∈ businesses (store w) ->
  Database.mark_as_alerted (id r) w
  = (Ok tt, MkWorld (update_alerted (id r) (store w)) (log w) (ticks w) (sent w)).
Proof.
  intros Hr. apply mark_as_alerted_ok. apply orb_true_iff. right.
  apply existsb_exists. exists r. split; [by apply list_elem_of_In | apply Z.eqb_refl].
Qed.

Lemma reachable_consistent (w : world) : reachable w -> consistent (store w).
Proof.
  induction 1 as [| w clock bd _ IH | w business_id _ IH | w clock p q n _ IH | w w' _ IH He].
  - apply consistent_empty.
  - by apply consistent_add_business.
  - rewrite (proj1 (mark_as_alerted_store business_id w)).
    by apply consistent_update_alerted.
  - exact IH.
  - by rewrite He.
Qed.

(** In a consistent database, rows with the same URL up to case coincide. *)
Lemma consistent_one_record (d : db) : consistent d -> one_record_per_identity d.
Proof.
  intros [Hh Hnd] i j r1 r2 Hi Hj Hl.
  apply (NoDup_lookup _ i j (hash r1) Hnd).
  - by rewrite list_lookup_fmap, Hi.
  - rewrite list_lookup_fmap, Hj. cbn. f_equal.
    rewrite Forall_forall in Hh.
    rewrite (Hh r1), (Hh r2) by (eapply list_elem_of_lookup_2; eauto).
    unfold Database.generate_hash. by rewrite Hl.
Qed.

Lemma generate_hash_lower (url1 url2 : string) :
  Text.lower url1 = Text.lower url2 ->
  Database.generate_hash url1 = Database.generate_hash url2.
Proof. intros H. unfold Database.generate_hash. by rewrite H. Qed.

(** C8. The identity hash is a function of the URL alone (it takes no
    world, clock or configuration) and of the URL only up to case: URLs that
    are equal after lower-casing have the same digest, and a URL has the
    digest of its lower-cased form. *)
Theorem generate_hash_case_insensitive (url1 url2 : string) :
  Text.lower url1 = Text.lower url2 ->
  Database.generate_hash url1 = Database.generate_hash url2 /\
  Database.generate_hash url1 = Database.generate_hash (Text.lower url1).
Proof.
  intros H. unfold Database.generate_hash. rewrite lower_idemp. by rewrite H.
Qed.

Lemma generate_hash_case_insensitive_witness :
  Database.generate_hash "https://Facebook.com/LagosBakery"
    = "afecea6bd813a15ab2ffbd173982a7c8" /\
  (Database.generate_hash "https://Facebook.com/LagosBakery"
     = Database.generate_hash "HTTPS://FACEBOOK.COM/lagosbakery" /\
   Database.generate_hash "https://Facebook.com/LagosBakery"
     = Database.generate_hash (Text.lower "https://Facebook.com/LagosBakery")).
Proof.
  split; [vm_compute; reflexivity|].
  apply (generate_hash_case_insensitive "https://Facebook.com/LagosBakery"
           "HTTPS://FACEBOOK.COM/lagosbakery").
  vm_compute. reflexivity.
Defined.


Lemma sample_w1_eq :
  Database.add_business Sample.clock Sample.bakery Sample.w0 = (Ok true, Sample.w1).
Proof. vm_cast_no_check (eq_refl (Ok true, Sample.w1)). Qed.

Lemma sample_w1_reachable : reachable Sample.w1.
Proof.
  change Sample.w1 with (Ok true, Sample.w1).2. rewrite <- sample_w1_eq.
  apply reach_add_business, (reach_fresh [] 0 []).
Qed.

Lemma sample_w1_consistent : consistent (store Sample.w1).
Proof. apply reachable_consistent, sample_w1_reachable. Qed.

(** Two more pages, with other URLs, are stored after it. *)
Lemma scenario_w2_eq :
  Database.add_business Sample.clock Sample.kiosk Sample.w1 = (Ok true, Scenario.w2).
Proof. vm_cast_no_check (eq_refl (Ok true, Scenario.w2)). Qed.

Lemma scenario_w3_eq :
  Database.add_business Sample.clock Scenario.blank Scenario.w2 = (Ok true, Scenario.w3).
Proof. vm_cast_no_check (eq_refl (Ok true, Scenario.w3)). Qed.

Lemma scenario_w3_reachable : reachable Scenario.w3.
Proof.
  change Scenario.w3 with (Ok true, Scenario.w3).2. rewrite <- scenario_w3_eq.
  apply reach_add_business.
  change Scenario.w2 with (Ok true, Scenario.w2).2. rewrite <- scenario_w2_eq.
  apply reach_add_business, sample_w1_reachable.
Qed.


(** [mark_as_alerted] sets the flag and nothing else: in particular no
    clock is read and [last_updated] keeps the value of the insert. *)
Lemma mark_as_alerted_last_updated (business_id : Z) (w : world) :
  map last_updated (businesses (store (Database.mark_as_alerted business_id w).2))
    = map last_updated (businesses (store w)) /\
  ticks (Database.mark_as_alerted business_id w).2 = ticks w.
Proof.
  destruct (mark_as_alerted_store business_id w) as (-> & _ & -> & _).
  split; [|reflexivity].
  cbn [update_alerted businesses].
  induction (businesses (store w)) as [|r rows IH]; cbn [map]; [done|].
  rewrite IH. f_equal. destruct (id r =? business_id); [by destruct r | done].
Qed.

(** C9, at the failing input: the bakery row was inserted at the first
    clock reading; marking it as alerted at a later time sets [alerted] and
    leaves [last_updated] at the time of the insert. *)
Theorem mark_as_alerted_keeps_last_updated :
  map (fun r => (id r, alerted r, last_updated r)) (businesses (store Sample.w1))
    = [(1, false, "2024-02-01T10:00:00")] /\
  map (fun r => (id r, alerted r, last_updated r))
      (businesses (store (Database.mark_as_alerted 1 Sample.w1).2))
    = [(1, true, "2024-02-01T10:00:00")] /\
  Sample.clock (ticks (Database.mark_as_alerted 1 Sample.w1).2) = "2024-02-01T10:00:01".
Proof. split_and!; vm_compute; reflexivity. Qed.

(** ** Reasoning about computations in [M] *)

Lemma hoare_bind {A B} (P : world -> Prop) (m : M A) (k : A -> M B)
    (Q : result A -> world -> Prop) (R : result B -> world -> Prop) :
  hoare P m Q ->
  (forall a, hoare (Q (Ok a)) (k a) R) ->
  (forall e w, Q (Raise e) w -> R (Raise e) w) ->
  hoare P (Run.bind m k) R.
Proof.
  intros Hm Hk He w Hw. specialize (Hm w Hw). unfold Run.bind.
  destruct (m w) as [[a|e] w']; cbn [fst snd] in *.
  - by apply Hk.
  - by apply He.
Qed.

Lemma hoare_pre_pure {A} (P : world -> Prop) (phi : Prop) (m : M A)
    (Q : result A -> world -> Prop) :
  (phi -> hoare P m Q) -> hoare (fun w => P w /\ phi) m Q.
Proof. intros H w [Hw Hphi]. by apply H. Qed.

Lemma hoare_ret {A} (I : world -> Prop) (a : A) : hoare I (ret a) (fun _ w => I w).
Proof. by intros w Hw. Qed.

Lemma hoare_logger (I : world -> Prop) (l : level) (msg : string) :
  stable I -> hoare I (logger l msg) (fun _ w => I w).
Proof. intros HI w Hw. by apply (HI w). Qed.

Lemma hoare_item (I : world -> Prop) (d : dict) (k : string) :
  hoare I (Item.item d k) (fun r w => I w /\ forall v, r = Ok v -> d !! k = Some v).
Proof.
  intros w Hw. unfold Item.item. destruct (d !! k) as [v|]; cbn; split; try done.
  by intros ? [= <-].
Qed.

Lemma hoare_ge_int (I : world -> Prop) (v : value) (n : Z) :
  hoare I (Item.ge_int v n)
        (fun r w => I w /\ (r = Ok true -> exists x, v = VInt x /\ n <= x)).
Proof.
  intros w Hw. unfold Item.ge_int. destruct v as [|x| | |]; cbn; split; try done.
  intros [= Hx]. exists x. split; [done | lia].
Qed.

Lemma hoare_business_exists (I : world -> Prop) (url : string) :
  hoare I (Database.business_exists url) (fun _ w => I w).
Proof. by intros w Hw. Qed.

Lemma hoare_score_business (I : world -> Prop) (self : scorer) (bd : dict) :
  stable I ->
  hoare I (score_business self bd)
        (fun r w => I w /\ forall bd', r = Ok bd' ->
           exists score priority signals,
             bd' = <["scoring_signals" := VList signals]>
                     (<["priority" := VStr priority]>
                        (<["confidence_score" := VInt (Z.min score 100)]> bd))).
Proof.
  intros HI w Hw. destruct (score_business self bd w) as [[bd'|e] w'] eqn:E; cbn [fst snd].
  - apply score_business_inv in E as (s & p & sg & _ & -> & Hs & _). split.
    + by apply (HI w).
    + intros ? [= <-]. eauto.
  - apply score_business_raise in E as ->. by split.
Qed.

Lemma hoare_add_search_history (I : world -> Prop) (clock : nat -> string)
    (p q : string) (n : Z) :
  (forall w e, I w ->
     I (MkWorld (insert_search_history e (store w)) (log w) (Datatypes.S (ticks w)) (sent w))) ->
  hoare I (Database.add_search_history clock p q n) (fun _ w => I w).
Proof. intros HI w Hw. exact (HI w (MkSearch p q (clock (ticks w)) n) Hw). Qed.

Lemma hoare_for_each {A B} (I : world -> Prop) (l : list A) (acc : B) (body : B -> A -> M B) :
  (forall acc x, hoare I (body acc x) (fun _ w => I w)) ->
  hoare I (for_each l acc body) (fun _ w => I w).
Proof.
  intros Hbody. revert acc. induction l as [|x l IH]; intros acc; cbn [for_each].
  - apply hoare_ret.
  - eapply hoare_bind; [apply Hbody | intros acc'; apply IH | done].
Qed.

(** ** The threshold filter *)

(** The rows of a database after [add_business]: the same, or one more. *)
Lemma add_business_rows (clock : nat -> string) (bd : dict) (w : world) :
  businesses (store (Database.add_business clock bd w).2) = businesses (store w) \/
  exists url now fresh_id,
    businesses (store (Database.add_business clock bd w).2)
    = businesses (store w) ++ [Database.new_row bd url (Database.generate_hash url) now fresh_id].
Proof.
  destruct (get bd "page_url") as [| | url | |] eqn:Hu;
    try (rewrite add_business_not_str by (intros ?; congruence); by left).
  destruct (count_hash (Database.generate_hash url) (store w) >? 0) eqn:E.
  - rewrite (add_business_duplicate _ _ _ _ Hu E). by left.
  - rewrite (add_business_fresh _ _ _ _ Hu E).
    destruct (insert_business _ _) as [d'|e] eqn:Ei; cbn [snd store]; [|by left].
    apply insert_business_ok in Ei as [-> _]. right. cbn [businesses]. eauto.
Qed.

Lemma grows_from_stable (min_score : Z) (d0 : db) : stable (grows_from min_score d0).
Proof. intros w w' He. unfold grows_from. by rewrite He. Qed.

Lemma grows_from_refl (min_score : Z) (w : world) : grows_from min_score (store w) w.
Proof. intros r Hr. by left. Qed.

(** Storing a record whose score passed the comparison keeps the filter. *)
Lemma hoare_add_business (min_score : Z) (d0 : db) (clock : nat -> string) (bd : dict)
    (n : Z) :
  bd !! "confidence_score" = Some (VInt n) -> min_score <= n ->
  hoare (grows_from min_score d0) (Database.add_business clock bd)
        (fun _ w => grows_from min_score d0 w).
Proof.
  intros Hs Hn w Hw r Hr.
  destruct (add_business_rows clock bd w) as [He | (url & now & i & He)];
    rewrite He in Hr; [by apply Hw|].
  apply elem_of_app in Hr as [Hr | ->%list_elem_of_singleton]; [by apply Hw|].
  right. exists n. split; [|done].
  cbn [Database.new_row confidence_score]. unfold get_or. by rewrite Hs.
Qed.

(** What the three sources do with a scored record: compare the score
    with the minimum, store, report. *)
Lemma hoare_gate (min_score : Z) (d0 : db) (clock : nat -> string) (sd : dict)
    {B} (k_added : M B) (k_dup k_low : M B) :
  hoare (grows_from min_score d0) k_added (fun _ w => grows_from min_score d0 w) ->
  hoare (grows_from min_score d0) k_dup (fun _ w => grows_from min_score d0 w) ->
  hoare (grows_from min_score d0) k_low (fun _ w => grows_from min_score d0 w) ->
  hoare (grows_from min_score d0)
    (score <- Item.item sd "confidence_score" ;;
     enough <- Item.ge_int score min_score ;;
     if enough then
       added <- Database.add_business clock sd ;;
       if added then k_added else k_dup
     else k_low)%run
    (fun _ w => grows_from min_score d0 w).
Proof.
  intros Ha Hd Hl.
  eapply hoare_bind; [apply hoare_item | | by intros e w [Hw _]].
  intros score. apply hoare_pre_pure. intros Hscore.
  eapply hoare_bind; [apply hoare_ge_int | | by intros e w [Hw _]].
  intros [|]; apply hoare_pre_pure; intros Henough; [|apply Hl].
  destruct (Henough eq_refl) as (x & -> & Hx).
  eapply hoare_bind;
    [ apply (hoare_add_business min_score d0 clock sd x (Hscore _ eq_refl) Hx)
    | intros [|]; [apply Ha | apply Hd]
    | done ].
Qed.

(** Reporting a stored record: look up its name, log, return. *)
Lemma hoare_report (I : world -> Prop) (sd : dict) {B} (msg : string -> string) (b : B) :
  stable I ->
  hoare I (name <- Item.item sd "business_name" ;;
           logger INFO (msg (fmt name)) ;; ret b)%run
        (fun _ w => I w).
Proof.
  intros HI.
  eapply hoare_bind; [apply hoare_item | | by intros e w [Hw _]].
  intros name. apply hoare_pre_pure. intros _.
  eapply hoare_bind; [by apply hoare_logger | intros ?; apply hoare_ret | done].
Qed.

Lemma google_process_result_filters (cfg : Config.config) (clock : nat -> string)
    (d0 : db) (platform category : string) (discovered : list dict)
    (result : GoogleScraper.search_result) :
  hoare (grows_from (minimum cfg) d0)
        (GoogleScraper.process_result cfg clock platform category discovered result)
        (fun _ w => grows_from (minimum cfg) d0 w).
Proof.
  unfold GoogleScraper.process_result. cbv zeta.
  eapply hoare_bind; [apply hoare_business_exists | | done].
  intros [|]; [apply hoare_ret|].
  cbn [GoogleScraper._extract_from_search_result].
  eapply hoare_bind;
    [ apply hoare_score_business, grows_from_stable | | by intros e w [Hw _] ].
  intros sd. apply hoare_pre_pure. intros _.
  apply (hoare_gate (minimum cfg) d0 clock sd).
  - apply (hoare_report _ sd
             (fun name => "New " +:+ platform +:+ " page discovered via Google: " +:+ name)).
    apply grows_from_stable.
  - apply hoare_ret.
  - apply hoare_ret.
Qed.

Lemma google_discover_filters (cfg : Config.config) (clock : nat -> string)
    (search_google : string -> string -> list GoogleScraper.search_result) (d0 : db) :
  hoare (grows_from (minimum cfg) d0)
        (GoogleScraper.discover_new_pages cfg clock search_google)
        (fun _ w => grows_from (minimum cfg) d0 w).
Proof.
  unfold GoogleScraper.discover_new_pages. cbv zeta.
  eapply hoare_bind.
  - unfold GoogleScraper.build_search_queries. cbv zeta.
    eapply hoare_bind;
      [apply hoare_logger, grows_from_stable | intros ?; apply hoare_ret | done].
  - intros queries. apply hoare_for_each. intros discovered q.
    unfold GoogleScraper.process_query. cbv zeta.
    eapply hoare_bind.
    + apply hoare_for_each. intros acc r. apply google_process_result_filters.
    + intros acc.
      eapply hoare_bind;
        [ apply hoare_add_search_history; by intros w e Hw
        | intros ?; apply hoare_ret
        | done ].
    + done.
  - done.
Qed.

Lemma facebook_process_result_filters (cfg : Config.config) (clock : nat -> string)
    (d0 : db) (category_name : string) (discovered : list dict) (result : dict) :
  hoare (grows_from (minimum cfg) d0)
        (FacebookScraper.process_result cfg clock category_name discovered result)
        (fun _ w => grows_from (minimum cfg) d0 w).
Proof.
  unfold FacebookScraper.process_result. cbv zeta.
  eapply hoare_bind;
    [ apply hoare_score_business, grows_from_stable | | by intros e w [Hw _] ].
  intros sd. apply hoare_pre_pure. intros _.
  apply (hoare_gate (minimum cfg) d0 clock sd).
  - apply (hoare_report _ sd (fun name => "New Facebook page discovered: " +:+ name)).
    apply grows_from_stable.
  - apply hoare_ret.
  - apply hoare_ret.
Qed.

Lemma facebook_discover_filters (cfg : Config.config) (clock : nat -> string)
    (search_pages : string -> string -> list dict) (d0 : db) :
  hoare (grows_from (minimum cfg) d0)
        (FacebookScraper.discover_new_pages cfg clock search_pages)
        (fun _ w => grows_from (minimum cfg) d0 w).
Proof.
  unfold FacebookScraper.discover_new_pages. cbv zeta.
  apply hoare_for_each. intros acc1 [category_name category_data].
  apply hoare_for_each. intros acc2 keyword.
  apply hoare_for_each. intros acc3 city.
  apply hoare_for_each. intros acc4 result.
  apply facebook_process_result_filters.
Qed.

Lemma linkedin_process_filters (cfg : Config.config) (clock : nat -> string)
    (get_company_details : string -> option dict) (d0 : db)
    (url : string) (category : option string) :
  hoare (grows_from (minimum cfg) d0)
        (LinkedInScraper.process_company_url cfg clock get_company_details url category)
        (fun _ w => grows_from (minimum cfg) d0 w).
Proof.
  unfold LinkedInScraper.process_company_url. cbv zeta.
  eapply hoare_bind; [apply hoare_business_exists | | done].
  intros [|].
  { eapply hoare_bind;
      [apply hoare_logger, grows_from_stable | intros ?; apply hoare_ret | done]. }
  destruct (get_company_details url) as [bd|]; [|apply hoare_ret].
  destruct (_ || _); [apply hoare_ret|].
  eapply hoare_bind;
    [ apply hoare_score_business, grows_from_stable | | by intros e w [Hw _] ].
  intros sd. apply hoare_pre_pure. intros _.
  apply (hoare_gate (minimum cfg) d0 clock sd).
  - apply (hoare_report _ sd (fun name => "New LinkedIn company discovered: " +:+ name)).
    apply grows_from_stable.
  - apply hoare_ret.
  - apply hoare_ret.
Qed.

(** A candidate whose score is below the minimum is dropped: nothing is
    stored and the list of discoveries is not extended. *)
Lemma facebook_discards_low (cfg : Config.config) (clock : nat -> string)
    (category_name : string) (discovered : list dict) (result sd : dict)
    (w w1 : world) (n : Z) :
  score_business (FacebookScraper.scorer cfg) (<["category" := VStr category_name]> result) w
    = (Ok sd, w1) ->
  sd !! "confidence_score" = Some (VInt n) -> n < minimum cfg ->
  FacebookScraper.process_result cfg clock category_name discovered result w
    = (Ok discovered, w1) /\ store w1 = store w.
Proof.
  intros Hs Hn Hlt. split.
  - unfold FacebookScraper.process_result. cbv zeta. unfold Run.bind at 1. rewrite Hs.
    unfold Run.bind at 1. unfold Item.item. rewrite Hn. cbn [ret].
    unfold Run.bind at 1. cbn [Item.ge_int ret]. fold (minimum cfg).
    replace (n >=? minimum cfg) with false by lia. reflexivity.
  - by apply score_business_inv in Hs as (_ & _ & _ & _ & _ & ? & _).
Qed.

Lemma google_discards_low (cfg : Config.config) (clock : nat -> string)
    (platform category : string) (discovered : list dict)
    (result : GoogleScraper.search_result) (bd sd : dict) (w w1 : world) (n : Z) :
  Database.business_exists (GoogleScraper.url result) w = (Ok false, w) ->
  GoogleScraper._extract_from_search_result cfg result platform category = Some bd ->
  score_business (GoogleScraper.scorer cfg) bd w = (Ok sd, w1) ->
  sd !! "confidence_score" = Some (VInt n) -> n < minimum cfg ->
  GoogleScraper.process_result cfg clock platform category discovered result w
    = (Ok discovered, w1) /\ store w1 = store w.
Proof.
  intros He Hx Hs Hn Hlt. split.
  - unfold GoogleScraper.process_result. cbv zeta. unfold Run.bind at 1. rewrite He.
    rewrite Hx. unfold Run.bind at 1. rewrite Hs.
    unfold Run.bind at 1. unfold Item.item. rewrite Hn. cbn [ret].
    unfold Run.bind at 1. cbn [Item.ge_int ret]. fold (minimum cfg).
    replace (n >=? minimum cfg) with false by lia. reflexivity.
  - by apply score_business_inv in Hs as (_ & _ & _ & _ & _ & ? & _).
Qed.

(** C3. Threshold filter. Whatever the source yields, a discovery pass of
    the Google scraper, of the Facebook scraper, or a call of the LinkedIn
    scraper's [process_company_url] only adds rows whose stored
    [confidence_score] is an integer at least the configured minimum (60 by
    default); and in the Facebook and Google loops a candidate scored below
    the minimum leaves the database as it was and is not reported. *)
Theorem threshold_filter (cfg : Config.config) (clock : nat -> string)
    (search_google : string -> string -> list GoogleScraper.search_result)
    (search_pages : string -> string -> list dict)
    (get_company_details : string -> option dict) (w : world) :
  grown_by (meets (minimum cfg)) (store w)
    (store (GoogleScraper.discover_new_pages cfg clock search_google w).2) /\
  grown_by (meets (minimum cfg)) (store w)
    (store (FacebookScraper.discover_new_pages cfg clock search_pages w).2) /\
  (forall url category,
     grown_by (meets (minimum cfg)) (store w)
       (store (LinkedInScraper.process_company_url cfg clock get_company_details
                 url category w).2)) /\
  (forall category_name discovered result sd w1 n,
     score_business (FacebookScraper.scorer cfg)
       (<["category" := VStr category_name]> result) w = (Ok sd, w1) ->
     sd !! "confidence_score" = Some (VInt n) -> n < minimum cfg ->
     FacebookScraper.process_result cfg clock category_name discovered result w
       = (Ok discovered, w1) /\ store w1 = store w) /\
  (forall platform category discovered result bd sd w1 n,
     Database.business_exists (GoogleScraper.url result) w = (Ok false, w) ->
     GoogleScraper._extract_from_search_result cfg result platform category = Some bd ->
     score_business (GoogleScraper.scorer cfg) bd w = (Ok sd, w1) ->
     sd !! "confidence_score" = Some (VInt n) -> n < minimum cfg ->
     GoogleScraper.process_result cfg clock platform category discovered result w
       = (Ok discovered, w1) /\ store w1 = store w).
Proof.
  split_and!.
  - apply (google_discover_filters cfg clock search_google (store w) w), grows_from_refl.
  - apply (facebook_discover_filters cfg clock search_pages (store w) w), grows_from_refl.
  - intros url category.
    apply (linkedin_process_filters cfg clock get_company_details (store w) url category w),
      grows_from_refl.
  - intros. by eapply facebook_discards_low.
  - intros. by eapply google_discards_low.
Qed.

Lemma threshold_filter_witness :
  (* of the weak and the strong lead only the strong one is stored *)
  map (fun r => (page_url r, confidence_score r)) (businesses (store Sample.w_two_leads))
    = [("https://facebook.com/LagosBakery", VInt 65)] /\
  grown_by (meets 60) (store Sample.w0) (store Sample.w_two_leads).
Proof.
  split; [vm_compute; reflexivity|].
  destruct (threshold_filter Sample.cfg Sample.clock (fun _ _ => []) Sample.two_leads
              (fun _ => None) Sample.w0) as (_ & Hfb & _).
  assert ((FacebookScraper.discover_new_pages Sample.cfg Sample.clock Sample.two_leads
             Sample.w0).2 = Sample.w_two_leads) as E
    by vm_cast_no_check (eq_refl Sample.w_two_leads).
  rewrite E in Hfb. exact Hfb.
Defined.

(** ** Duplicate candidates in a discovery pass *)

(** The Google loop skips a result whose URL is stored before anything
    else: no scoring, no insert, no message, the world is as it was. *)
Lemma google_skips_stored (cfg : Config.config) (clock : nat -> string)
    (platform category : string) (discovered : list dict)
    (result : GoogleScraper.search_result) (w : world) :
  Database.business_exists (GoogleScraper.url result) w = (Ok true, w) ->
  GoogleScraper.process_result cfg clock platform category discovered result w
    = (Ok discovered, w).
Proof.
  intros He. unfold GoogleScraper.process_result. cbv zeta.
  unfold Run.bind at 1. by rewrite He.
Qed.

(** So does [process_company_url] of the LinkedIn scraper, which only
    leaves a debug message. *)
Lemma linkedin_skips_stored (cfg : Config.config) (clock : nat -> string)
    (get_company_details : string -> option dict) (url : string)
    (category : option string) (w : world) :
  Database.business_exists url w = (Ok true, w) ->
  LinkedInScraper.process_company_url cfg clock get_company_details url category w
    = (Ok None,
       MkWorld (store w) (log w ++ [(DEBUG, "Company already in database: " +:+ url)])
               (ticks w) (sent w)).
Proof.
  intros He. unfold LinkedInScraper.process_company_url.
  unfold Run.bind at 1. by rewrite He.
Qed.

(** The Facebook loop has no such check. For a candidate whose URL is
    stored, what the loop does is what scoring it does: [score_business]
    runs and logs, and the record is dropped afterwards (by the threshold,
    or by [add_business] returning false). *)
Lemma facebook_scores_stored (cfg : Config.config) (clock : nat -> string)
    (category_name : string) (discovered : list dict) (result sd : dict)
    (url : string) (w w1 : world) :
  get result "page_url" = VStr url ->
  (count_hash (Database.generate_hash url) (store w) >? 0) = true ->
  score_business (FacebookScraper.scorer cfg) (<["category" := VStr category_name]> result) w
    = (Ok sd, w1) ->
  FacebookScraper.process_result cfg clock category_name discovered result w
    = (Ok discovered, w1) /\
  exists msg, log w1 = log w ++ [(INFO, msg)].
Proof.
  intros Hu Hc Hs. split; [|by eapply score_business_logs].
  pose proof Hs as (score & priority & signals & _ & Hsd & Hst & _)%score_business_inv.
  assert (sd !! "confidence_score" = Some (VInt (Z.min score 100))) as Hn.
  { rewrite Hsd. rewrite lookup_insert_ne by done. rewrite lookup_insert_ne by done.
    by rewrite lookup_insert_eq. }
  assert (get sd "page_url" = VStr url) as Hu'.
  { rewrite <- Hu. unfold get. rewrite Hsd. by rewrite !lookup_insert_ne. }
  unfold FacebookScraper.process_result. cbv zeta. unfold Run.bind at 1. rewrite Hs.
  unfold Run.bind at 1. unfold Item.item. rewrite Hn. cbn [ret].
  unfold Run.bind at 1. cbn [Item.ge_int ret].
  destruct (Z.min score 100 >=? _); [|reflexivity].
  unfold Run.bind at 1.
  rewrite (add_business_duplicate clock sd url w1 Hu') by by rewrite Hst.
  reflexivity.
Qed.

(** What the loop body of the Facebook pass would do if a page search
    yielded a stored page, its URL in another case: the scorer runs on it,
    as the message of [score_business] in the log shows, and only then is
    it dropped. *)
Lemma facebook_scores_stored_candidate :
  Database.business_exists "https://facebook.com/lagosbakery" Sample.w1
    = (Ok true, Sample.w1) /\
  FacebookScraper.discover_new_pages Sample.cfg Sample.clock Sample.stored_page_again Sample.w1
    = (Ok [],
       MkWorld (store Sample.w1)
               (log Sample.w1
                ++ [(INFO, "Scored business 'Lagos Bakery': Score=65, Priority=medium")])
               (ticks Sample.w1) (sent Sample.w1)).
Proof.
  split.
  - vm_cast_no_check (eq_refl (Ok true, Sample.w1)).
  - vm_cast_no_check
      (eq_refl (FacebookScraper.discover_new_pages Sample.cfg Sample.clock
                  Sample.stored_page_again Sample.w1)).
Qed.

(** A monadic step that returns. *)
Lemma bind_returns {A B} (m : M A) (k : A -> M B) (w w1 : world) (a : A) :
  m w = (Ok a, w1) -> Run.bind m k w = k a w1.
Proof. intros H. unfold Run.bind. by rewrite H. Qed.

(** The results of one Google query, all stored already. *)
Lemma google_results_all_stored (cfg : Config.config) (clock : nat -> string)
    (platform category : string) (results : list GoogleScraper.search_result)
    (found : list dict) (w : world) :
  Forall (fun r => Database.business_exists (GoogleScraper.url r) w = (Ok true, w)) results ->
  for_each results found (GoogleScraper.process_result cfg clock platform category) w
  = (Ok found, w).
Proof.
  induction 1 as [|r results Hr _ IH]; cbn [for_each]; [done|].
  by rewrite (bind_returns _ _ _ _ _
                (google_skips_stored cfg clock platform category found r w Hr)).
Qed.

(** One query whose results are all stored already: only its line in the
    search history is written. *)
Lemma google_query_all_stored (cfg : Config.config) (clock : nat -> string)
    (search_google : string -> string -> list GoogleScraper.search_result)
    (q : GoogleScraper.query_data) (found : list dict) (w : world) :
  (forall r,
     r ∈ search_google (GoogleScraper.query q) (GoogleScraper.time_filter q) ->
     (count_hash (Database.generate_hash (GoogleScraper.url r)) (store w) >? 0) = true) ->
  exists e,
    GoogleScraper.process_query cfg clock search_google found q w
    = (Ok found,
       MkWorld (insert_search_history e (store w)) (log w) (Datatypes.S (ticks w)) (sent w)).
Proof.
  intros Hall. unfold GoogleScraper.process_query. cbv zeta.
  rewrite (bind_returns _ _ _ _ found
             (google_results_all_stored cfg clock _ _ _ found w
                ltac:(apply Forall_forall; intros r Hr; rewrite business_exists_eq;
                      by rewrite (Hall r Hr)))).
  cbv [Database.add_search_history Run.bind Run.now execute ret].
  cbn [store log ticks sent]. by eexists.
Qed.

(** The loop over the queries, every result of every query stored
    already: only the search history grows. *)
Lemma google_queries_all_stored (cfg : Config.config) (clock : nat -> string)
    (search_google : string -> string -> list GoogleScraper.search_result)
    (queries : list GoogleScraper.query_data) (found : list dict) (w : world) :
  (forall query time_filter r,
     r ∈ search_google query time_filter ->
     (count_hash (Database.generate_hash (GoogleScraper.url r)) (store w) >? 0) = true) ->
  exists w',
    for_each queries found (GoogleScraper.process_query cfg clock search_google) w
    = (Ok found, w') /\
    businesses (store w') = businesses (store w) /\ log w' = log w /\ sent w' = sent w.
Proof.
  revert w. induction queries as [|q queries IH]; intros w Hall; cbn [for_each].
  - by exists w.
  - destruct (google_query_all_stored cfg clock search_google q found w) as [e Eq];
      [intros r Hr; by eapply Hall|].
    rewrite (bind_returns _ _ _ _ _ Eq).
    match goal with
    | |- context [for_each queries found _ ?w0] =>
        destruct (IH w0) as (w' & -> & Hb & Hl & Hs)
    end.
    { intros query time_filter r Hr. rewrite <- (Hall query time_filter r Hr).
      reflexivity. }
    exists w'. by split_and!.
Qed.

(** C6. A candidate whose URL is already stored is skipped before scoring.
    Google: the loop body returns its list as it was and leaves the world,
    log included, untouched, so neither [score_business], which logs, nor
    [add_business] ran; a pass all of whose results are stored returns the
    empty list, keeps the table, and logs only the message of
    [build_search_queries]. Facebook: as shipped, [search_pages] yields no
    candidate on any path, so the pass handles none: it returns the empty
    list and leaves the world untouched. *)
Theorem stored_candidates_skipped (cfg : Config.config) (clock : nat -> string)
    (search_google : string -> string -> list GoogleScraper.search_result)
    (access_token : value) (platform category : string) (discovered : list dict)
    (result : GoogleScraper.search_result) (w : world) :
  (Database.business_exists (GoogleScraper.url result) w = (Ok true, w) ->
   GoogleScraper.process_result cfg clock platform category discovered result w
   = (Ok discovered, w)) /\
  ((forall query time_filter r,
      r ∈ search_google query time_filter ->
      Database.business_exists (GoogleScraper.url r) w = (Ok true, w)) ->
   exists w' n,
     GoogleScraper.discover_new_pages cfg clock search_google w = (Ok [], w') /\
     businesses (store w') = businesses (store w) /\
     log w' = log w ++ [(INFO, "Built " +:+ Text.of_Z n +:+ " search queries")] /\
     sent w' = sent w) /\
  FacebookScraper.discover_new_pages cfg clock (FacebookScraper.search_pages access_token) w
  = (Ok [], w).
Proof.
  split_and!.
  - apply google_skips_stored.
  - intros Hall. unfold GoogleScraper.discover_new_pages. cbv zeta.
    unfold GoogleScraper.build_search_queries. cbv zeta.
    unfold Run.bind at 1. unfold Run.bind at 1. cbn [logger ret].
    match goal with
    | |- context [for_each ?queries [] _ ?w0] =>
        destruct (google_queries_all_stored cfg clock search_google queries [] w0)
          as (w' & -> & Hb & Hl & Hs)
    end.
    { intros query time_filter r Hr. specialize (Hall query time_filter r Hr).
      rewrite business_exists_eq in Hall. by injection Hall. }
    eexists w', _. by split_and!.
  - unfold FacebookScraper.discover_new_pages. cbv zeta.
    assert (forall {A B} (body : B -> A -> M B) (l : list A) (acc : B) (v : world),
               (forall acc x v, body acc x v = (Ok acc, v)) ->
               for_each l acc body v = (Ok acc, v)) as Hskip.
    { intros A B body l acc v Hbody. induction l as [|x l IH]; cbn [for_each]; [done|].
      by rewrite (bind_returns _ _ _ _ _ (Hbody acc x v)). }
    apply Hskip. intros acc1 [category_name category_data] w1.
    apply Hskip. intros acc2 keyword w2.
    apply Hskip. intros acc3 city w3.
    unfold FacebookScraper.search_pages, FacebookScraper._search_by_category.
    by destruct (negb (truthy access_token)).
Qed.

Lemma stored_candidates_skipped_witness :
  (* the stored bakery page, found again by Google under another case *)
  GoogleScraper.process_result Sample.cfg Sample.clock "Facebook" "food" []
    (GoogleScraper.MkResult "Lagos Bakery - Facebook" "https://FACEBOOK.com/lagosbakery"
       "A fresh bakery in Lagos" "facebook.com") Sample.w1
  = (Ok [], Sample.w1) /\
  (* the shipped Facebook pass, with an access token *)
  FacebookScraper.discover_new_pages Sample.cfg Sample.clock
    (FacebookScraper.search_pages (VStr "token")) Sample.w1
  = (Ok [], Sample.w1).
Proof.
  destruct (stored_candidates_skipped Sample.cfg Sample.clock Scenario.one_hit
              (VStr "token") "Facebook" "food" []
              (GoogleScraper.MkResult "Lagos Bakery - Facebook"
                 "https://FACEBOOK.com/lagosbakery" "A fresh bakery in Lagos" "facebook.com")
              Sample.w1) as (Hgoogle & _ & Hfacebook).
  split; [|exact Hfacebook].
  apply Hgoogle. vm_cast_no_check (eq_refl (Ok true, Sample.w1)).
Defined.

(** ** The instant alert poll *)

Lemma harmless_ret : harmless (ret tt).
Proof. by intros w. Qed.

Lemma harmless_logger (l : level) (msg : string) : harmless (logger l msg).
Proof. by intros w. Qed.

Lemma harmless_bind (m : M unit) (k : unit -> M unit) :
  harmless m -> (forall u, harmless (k u)) -> harmless (Run.bind m k).
Proof.
  intros Hm Hk w. unfold Run.bind. destruct (Hm w) as [H1 H2].
  destruct (m w) as [[[]|e] w']; cbn [fst snd] in *; [|discriminate].
  destruct (Hk tt w') as [H3 H4]. split; [done | congruence].
Qed.

(** A [try] block that leaves the database alone, with a handler that only
    logs, is harmless whatever the block raises. *)
Lemma harmless_try (m : M unit) (msg : string) :
  (forall w, store (m w).2 = store w /\ forall u, (m w).1 = Ok u -> u = tt) ->
  harmless (try_except m (fun _ => logger ERROR msg)).
Proof.
  intros Hm w. unfold try_except. destruct (Hm w) as [H1 H2].
  destruct (m w) as [[u|e] w']; cbn [fst snd] in *.
  - by rewrite (H2 u eq_refl).
  - by split.
Qed.

Lemma deliver_all (channel : string) (ids : list Z) (w : world) :
  exists w',
    for_each ids tt (fun _ i => deliver channel i) w = (Ok tt, w') /\ store w' = store w.
Proof.
  revert w. induction ids as [|i ids IH]; intros w; cbn [for_each].
  - by exists w.
  - unfold Run.bind, deliver at 1.
    match goal with |- context [for_each ids tt _ ?w0] => destruct (IH w0) as (w' & -> & H) end.
    by exists w'.
Qed.

Lemma attempt_store (channel : string) (ok : bool) (ids : list Z) (k : M unit) :
  harmless k ->
  forall w, store ((AlertManager.attempt channel ok ids ;; k)%run w).2 = store w /\
            forall u, ((AlertManager.attempt channel ok ids ;; k)%run w).1 = Ok u -> u = tt.
Proof.
  intros Hk w. unfold AlertManager.attempt. destruct ok.
  - unfold Run.bind. destruct (deliver_all channel ids w) as (w' & -> & Hw').
    destruct (Hk w') as [H1 H2]. split; [by rewrite H2 | by intros []].
  - unfold Run.bind, raise. cbn. split; [done | discriminate].
Qed.

Lemma harmless_store_only (m : M unit) :
  harmless m ->
  forall w, store (m w).2 = store w /\ forall u, (m w).1 = Ok u -> u = tt.
Proof. intros Hm w. destruct (Hm w) as [H1 H2]. split; [done | by intros []]. Qed.

Lemma send_email_alert_harmless (net : AlertManager.transports) (business : row) :
  harmless (AlertManager.send_email_alert net business).
Proof.
  unfold AlertManager.send_email_alert. apply harmless_try.
  destruct (negb (AlertManager.email_configured net)).
  - apply harmless_store_only, harmless_logger.
  - apply attempt_store, harmless_logger.
Qed.

Lemma send_telegram_alert_harmless (net : AlertManager.transports) (business : row) :
  harmless (AlertManager.send_telegram_alert net business).
Proof.
  unfold AlertManager.send_telegram_alert. apply harmless_try.
  destruct (negb (AlertManager.telegram_configured net)).
  - apply harmless_store_only, harmless_logger.
  - apply attempt_store, harmless_logger.
Qed.

Lemma send_desktop_alert_harmless (net : AlertManager.transports) (business : row) :
  harmless (AlertManager.send_desktop_alert net business).
Proof.
  unfold AlertManager.send_desktop_alert. apply harmless_try.
  destruct (AlertManager.plyer_installed net).
  - apply attempt_store, harmless_logger.
  - apply harmless_store_only, harmless_logger.
Qed.

(** [send_alert] returns normally whatever the transports do, and never
    writes to the database: the caller cannot tell a delivery from a
    failure. *)
Lemma send_alert_harmless (am : AlertManager.alert_manager) (net : AlertManager.transports)
    (business : row) :
  harmless (AlertManager.send_alert am net business).
Proof.
  unfold AlertManager.send_alert. apply harmless_try, harmless_store_only.
  apply harmless_bind;
    [destruct (AlertManager.email_enabled am);
       [apply send_email_alert_harmless | apply harmless_ret]|].
  intros _. apply harmless_bind;
    [destruct (AlertManager.telegram_enabled am);
       [apply send_telegram_alert_harmless | apply harmless_ret]|].
  intros _. apply harmless_bind;
    [destruct (AlertManager.desktop_enabled am);
       [apply send_desktop_alert_harmless | apply harmless_ret]|].
  intros _. apply harmless_logger.
Qed.

(** The UPDATE keeps the ids of the table. *)
Lemma existsb_id_update (i j : Z) (d : db) :
  existsb (fun r => id r =? i) (businesses (update_alerted j d))
  = existsb (fun r => id r =? i) (businesses d).
Proof.
  cbn [update_alerted businesses].
  induction (businesses d) as [|r rows IH]; cbn [map existsb]; [done|].
  rewrite IH. by destruct (id r =? j).
Qed.

Lemma known_update (l : list row) (j : Z) (d : db) :
  Forall (fun b => existsb (fun r => id r =? id b) (businesses d) = true) l ->
  Forall (fun b => existsb (fun r => id r =? id b) (businesses (update_alerted j d)) = true) l.
Proof.
  intros H. eapply Forall_impl; [exact H|]. intros b Hb. by rewrite existsb_id_update.
Qed.

(** One turn of the loop of the poll: alert, then mark. *)
Lemma instant_turn (am : AlertManager.alert_manager) (net : AlertManager.transports)
    (business : row) (w : world) :
  existsb (fun r => id r =? id business) (businesses (store w)) = true ->
  exists w',
    (AlertManager.send_alert am net business ;;
     Database.mark_as_alerted (id business))%run w = (Ok tt, w') /\
    store w' = update_alerted (id business) (store w).
Proof.
  intros Hk. unfold Run.bind.
  destruct (send_alert_harmless am net business w) as [H1 H2].
  destruct (AlertManager.send_alert am net business w) as [[[]|e] w1]; cbn [fst snd] in *;
    [|discriminate].
  rewrite mark_as_alerted_ok by (rewrite H2, Hk; apply orb_true_r).
  eexists. split; [reflexivity|]. cbn [store]. by rewrite H2.
Qed.

(** The loop of the poll: every record handed over is marked. *)
Lemma instant_loop (am : AlertManager.alert_manager) (net : AlertManager.transports)
    (l : list row) (w : world) :
  Forall (fun b => existsb (fun r => id r =? id b) (businesses (store w)) = true) l ->
  exists w',
    for_each l tt (fun (_ : unit) (business : row) =>
                     (AlertManager.send_alert am net business ;;
                      Database.mark_as_alerted (id business))%run) w = (Ok tt, w') /\
    store w' = fold_left (fun d business => update_alerted (id business) d) l (store w).
Proof.
  revert w. induction l as [|b l IH]; intros w Hk; cbn [for_each fold_left].
  - by exists w.
  - apply Forall_cons in Hk as [Hb Hk].
    unfold Run.bind at 1.
    destruct (instant_turn am net b w Hb) as (w1 & -> & H1).
    destruct (IH w1) as (w2 & -> & H2); [rewrite H1; by apply known_update|].
    exists w2. split; [reflexivity|]. by rewrite H2, H1.
Qed.

Lemma set_alerted_id (r : row) : id (set_alerted r) = id r.
Proof. reflexivity. Qed.

Lemma set_alerted_alerted (r : row) : alerted r = true -> set_alerted r = r.
Proof. destruct r. cbn. by intros ->. Qed.

(** After the updates for the ids of [l], a row is marked exactly when its
    id is one of them. *)
Lemma fold_update_alerted (l : list row) (d : db) :
  businesses (fold_left (fun d business => update_alerted (id business) d) l d)
    = map (fun r => if existsb (fun b => id r =? id b) l then set_alerted r else r)
          (businesses d) /\
  search_history (fold_left (fun d business => update_alerted (id business) d) l d)
    = search_history d.
Proof.
  revert d. induction l as [|b l IH]; intros d; cbn [fold_left existsb].
  - split; [|done]. by rewrite map_id.
  - destruct (IH (update_alerted (id b) d)) as [-> ->]. split; [|done].
    cbn [update_alerted businesses]. rewrite map_map. apply map_ext. intros r.
    destruct (id r =? id b) eqn:E; cbn [orb].
    + rewrite set_alerted_id. by destruct (existsb _ l).
    + reflexivity.
Qed.

Lemma insert_ordered_elem (x y : row) (l : list row) :
  y ∈ insert_ordered x l <-> y = x \/ y ∈ l.
Proof.
  induction l as [|z l IH]; cbn [insert_ordered].
  - rewrite list_elem_of_singleton, elem_of_nil. tauto.
  - destruct (before z x); rewrite !elem_of_cons; [rewrite IH|]; tauto.
Qed.

Lemma order_by_elem (y : row) (l : list row) : y ∈ order_by l <-> y ∈ l.
Proof.
  unfold order_by. induction l as [|x l IH]; cbn [fold_right]; [done|].
  rewrite insert_ordered_elem, elem_of_cons, IH. tauto.
Qed.

Lemma select_unalerted_elem (r : row) (d : db) :
  r ∈ select_unalerted d <-> r ∈ businesses d /\ alerted r = false.
Proof.
  unfold select_unalerted. rewrite order_by_elem, list_elem_of_In, filter_In.
  rewrite <- list_elem_of_In, negb_true_iff. tauto.
Qed.

(** Marking the pending set marks the whole table. *)
Lemma mark_pending (d : db) :
  map (fun r => if existsb (fun b => id r =? id b) (select_unalerted d)
                then set_alerted r else r) (businesses d)
  = map set_alerted (businesses d).
Proof.
  apply map_ext_in. intros r Hr%list_elem_of_In.
  destruct (alerted r) eqn:Ea.
  - rewrite (set_alerted_alerted r Ea). by destruct (existsb _ _).
  - assert (existsb (fun b => id r =? id b) (select_unalerted d) = true) as ->; [|done].
    apply existsb_exists. exists r. split; [|apply Z.eqb_refl].
    by apply list_elem_of_In, select_unalerted_elem.
Qed.

(** The ids of the pending rows are ids of the table. *)
Lemma pending_known (d : db) :
  Forall (fun b => existsb (fun r => id r =? id b) (businesses d) = true)
         (select_unalerted d).
Proof.
  apply Forall_forall. intros b [Hb _]%select_unalerted_elem.
  apply existsb_exists. exists b. split; [by apply list_elem_of_In | apply Z.eqb_refl].
Qed.

(** Batch mode, for comparison: the batch is handed over once, and every
    record of it is marked afterwards, whatever the notifier did. *)
Lemma send_batch_alert_harmless (am : AlertManager.alert_manager)
    (net : AlertManager.transports) (businesses : list row) :
  harmless (AlertManager.send_batch_alert am net businesses).
Proof.
  unfold AlertManager.send_batch_alert. destruct businesses as [|b l]; [apply harmless_ret|].
  apply harmless_try, harmless_store_only.
  apply harmless_bind.
  { destruct (AlertManager.email_enabled am); [|apply harmless_ret].
    unfold AlertManager.send_batch_email. apply harmless_try.
    destruct (negb (AlertManager.email_configured net)).
    - apply harmless_store_only, harmless_ret.
    - apply attempt_store, harmless_logger. }
  intros _. apply harmless_bind; [|intros _; apply harmless_logger].
  destruct (AlertManager.telegram_enabled am); [|apply harmless_ret].
  unfold AlertManager.send_batch_telegram. apply harmless_try.
  destruct (negb (AlertManager.telegram_configured net)).
  - apply harmless_store_only, harmless_ret.
  - intros w. destruct (attempt_store "telegram"
                          (AlertManager.telegram_post_batch net (b :: l))
                          (map id (b :: l)) (ret tt) harmless_ret w) as [H1 H2].
    unfold Run.bind, ret in H1, H2.
    destruct (AlertManager.attempt _ _ _ w) as [[[]|e] w']; cbn [fst snd] in *;
      by split.
Qed.

Lemma batch_loop (l : list row) (w : world) :
  Forall (fun b => existsb (fun r => id r =? id b) (businesses (store w)) = true) l ->
  exists w',
    for_each l tt (fun (_ : unit) (business : row) =>
                     Database.mark_as_alerted (id business)) w = (Ok tt, w') /\
    store w' = fold_left (fun d business => update_alerted (id business) d) l (store w).
Proof.
  revert w. induction l as [|b l IH]; intros w Hk; cbn [for_each fold_left].
  - by exists w.
  - apply Forall_cons in Hk as [Hb Hk].
    unfold Run.bind at 1.
    rewrite mark_as_alerted_ok by (rewrite Hb; apply orb_true_r).
    destruct (IH (MkWorld (update_alerted (id b) (store w)) (log w) (ticks w) (sent w)))
      as (w' & -> & H); [by apply known_update|].
    by exists w'.
Qed.

Lemma batch_poll_outcome (am : AlertManager.alert_manager)
    (net : AlertManager.transports) (w : world) :
  exists w',
    TaskScheduler.process_batch_alerts am net w = (Ok tt, w') /\
    businesses (store w') = map set_alerted (businesses (store w)).
Proof.
  unfold TaskScheduler.process_batch_alerts, try_except.
  unfold Run.bind at 1. cbv [Database.get_unalereted_businesses query].
  pose proof (mark_pending (store w)) as Hmark.
  pose proof (pending_known (store w)) as Hk.
  destruct (select_unalerted (store w)) as [|b l] eqn:Hp.
  - eexists. cbn [logger]. split; [reflexivity|]. cbn [store].
    rewrite <- Hmark. cbn [existsb]. by rewrite map_id.
  - unfold Run.bind at 1. cbn [logger].
    unfold Run.bind at 1.
    match goal with
    | |- context [AlertManager.send_batch_alert am net (b :: l) ?w0] =>
        destruct (send_batch_alert_harmless am net (b :: l) w0) as [H0 H1];
        destruct (AlertManager.send_batch_alert am net (b :: l) w0) as [[[]|e] w1];
        cbn [fst snd] in *; [|discriminate]
    end.
    unfold Run.bind at 1.
    cbn [store] in H1.
    destruct (batch_loop (b :: l) w1) as (w' & -> & H2); [by rewrite H1|].
    destruct (fold_update_alerted (b :: l) (store w)) as [H3 _].
    eexists. split; [reflexivity|]. cbn [store].
    by rewrite H2, H1, H3, Hmark.
Qed.

(** C7 as worded fails: with e-mail on and the SMTP session down nothing
    is delivered, yet the poll marks the record. *)
Lemma instant_rule_fails : ~ Spec.instant_rule.
Proof.
  intros H.
  assert (exists r, businesses (store Sample.w1) = [r] /\ alerted r = false /\ id r = 1)
    as (r & Hrows & Ha & Hid).
  { destruct (businesses (store Sample.w1)) as [|r [|]] eqn:E; try discriminate E.
    exists r. injection E as <-. by split_and!. }
  assert ((TaskScheduler.process_instant_alerts Sample.email_only Sample.smtp_down Sample.w1).2
          = Sample.w1_polled) as Ew
    by vm_cast_no_check (eq_refl Sample.w1_polled).
  destruct (H Sample.email_only Sample.smtp_down Sample.w1 r) as (r' & Hin & _ & Ha').
  - rewrite Hrows. apply list_elem_of_here.
  - exact Ha.
  - intros channel. rewrite Ew. cbn. apply not_elem_of_nil.
  - rewrite Ew in Hin. cbn in Hin.
    apply list_elem_of_singleton in Hin. subst r'. discriminate Ha'.
Qed.

(** The poll as a whole. *)
Lemma instant_poll_outcome (am : AlertManager.alert_manager)
    (net : AlertManager.transports) (w : world) :
  exists w',
    TaskScheduler.process_instant_alerts am net w = (Ok tt, w') /\
    businesses (store w') = map set_alerted (businesses (store w)) /\
    search_history (store w') = search_history (store w).
Proof.
  unfold TaskScheduler.process_instant_alerts, try_except.
  unfold Run.bind at 1. cbv [Database.get_unalereted_businesses query].
  pose proof (mark_pending (store w)) as Hmark.
  pose proof (pending_known (store w)) as Hk.
  destruct (select_unalerted (store w)) as [|b l] eqn:Hp.
  - exists w. cbn [ret]. split_and!; try done.
    rewrite <- Hmark. cbn [existsb]. by rewrite map_id.
  - unfold Run.bind at 1. cbn [logger].
    unfold Run.bind at 1.
    match goal with
    | |- context [for_each (b :: l) tt _ ?w0] =>
        destruct (instant_loop am net (b :: l) w0) as (w' & -> & H2); [exact Hk|]
    end.
    cbn [store] in H2.
    destruct (fold_update_alerted (b :: l) (store w)) as [H3 H4].
    eexists. split; [reflexivity|]. cbn [store].
    rewrite H2. split; [by rewrite H3, Hmark | done].
Qed.

(** C7, amended. In instant mode every pending record handed to the
    notifier in a poll is marked as notified once [send_alert] has
    returned, whether its delivery went through or failed (a failure is
    only logged): the poll returns normally, and afterwards every row of
    the table is marked and otherwise as it was. *)
Theorem instant_alerts_mark_all (am : AlertManager.alert_manager)
    (net : AlertManager.transports) (w : world) :
  (TaskScheduler.process_instant_alerts am net w).1 = Ok tt /\
  businesses (store (TaskScheduler.process_instant_alerts am net w).2)
    = map set_alerted (businesses (store w)) /\
  search_history (store (TaskScheduler.process_instant_alerts am net w).2)
    = search_history (store w).
Proof.
  destruct (instant_poll_outcome am net w) as (w' & -> & H1 & H2). by split_and!.
Qed.

(** * Further properties of the code *)

(** ** The scoring engine: caps, signals, type errors *)

Section ScoringMore.

Variable self : scorer.

Lemma _score_location_zero (text : string) :
  (_score_location self text).1 = 0 <-> (_score_location self text).2 = [].
Proof.
  unfold _score_location.
  destruct (List.find _ (Config.signals_of _ "country"));
    destruct (List.filter _ (Config.signals_of _ "major_cities"));
    destruct (List.find _ (Config.signals_of _ "phone_patterns")); cbn; split;
    first [discriminate | reflexivity | lia].
Qed.

Lemma _score_location_signals (text : string) :
  (List.length (_score_location self text).2 <= 3)%nat.
Proof.
  unfold _score_location.
  destruct (List.find _ (Config.signals_of _ "country"));
    destruct (List.filter _ (Config.signals_of _ "major_cities"));
    destruct (List.find _ (Config.signals_of _ "phone_patterns")); cbn; lia.
Qed.

Lemma _score_category_zero (text : string) (category : value) (s : Z) (sg : list string) :
  _score_category self text category = Ok (s, sg) ->
  (s = 0 <-> sg = []) /\ (List.length sg <= 1)%nat.
Proof.
  unfold _score_category.
  destruct (negb (truthy category)); [intros [= <- <-]; split; [done | cbn; lia]|].
  destruct (categories_get self category) as [cd|e]; cbn [Py.bind]; [|discriminate].
  destruct (keyword_matches _ _) as [|k ks]; intros [= <- <-]; [split; [done | cbn; lia]|].
  split; [|cbn; lia]. unfold Text.len. cbn [List.length]. split; [lia | discriminate].
Qed.

Lemma _score_contact_info_zero (bd : dict) :
  ((_score_contact_info bd).1 = 0 <-> (_score_contact_info bd).2 = []) /\
  (List.length (_score_contact_info bd).2 <= 2)%nat.
Proof.
  unfold _score_contact_info.
  destruct (truthy (get bd "phone")), (truthy (get bd "email")); cbn;
    (split; [split; first [discriminate | reflexivity | lia] | lia]).
Qed.

(** Everything [score_parts] puts together, signals included. *)
Lemma score_parts_full (bd : dict) (score : Z) (priority : string) (signals : list string) :
  score_parts self bd = Ok (score, priority, signals) ->
  exists text cs csig q,
    combined_text bd = Ok text /\
    _score_category self text (get bd "category") = Ok (cs, csig) /\
    _score_content_quality bd = Ok q /\
    let f := _score_freshness (get bd "page_created_date") in
    score = (_score_location self text).1 + cs + (_score_contact_info bd).1 + f + q /\
    signals = (_score_location self text).2 ++ csig ++ (_score_contact_info bd).2
              ++ (if f >? 0 then ["Freshness: " +:+ Text.of_Z f +:+ " points"] else [])
              ++ (if q >? 0 then ["Content quality: " +:+ Text.of_Z q +:+ " points"] else []).
Proof.
  unfold score_parts.
  destruct (combined_text bd) as [text|e]; cbn [Py.bind]; [|discriminate].
  destruct (_score_location self text) as [ls lsig] eqn:El.
  destruct (_score_category self text (get bd "category")) as [[cs csig]|e] eqn:Ecat;
    cbn [Py.bind]; [|discriminate].
  destruct (_score_contact_info bd) as [ct ctsig] eqn:Ec.
  destruct (_score_content_quality bd) as [q|e] eqn:Eq; cbn [Py.bind]; [|discriminate].
  destruct (_determine_priority _ _ _) as [p|e] eqn:Ep; cbn [Py.bind]; [|discriminate].
  intros [= <- <- <-].
  exists text, cs, csig, q. rewrite El. cbn [fst snd]. cbv zeta.
  split_and!; try first [reflexivity | assumption | lia].
  destruct (_score_freshness (get bd "page_created_date") >? 0), (q >? 0);
    cbn [app]; rewrite <- ?app_assoc, ?app_nil_r; reflexivity.
Qed.

End ScoringMore.

(** X1. Each sub-score stays within the maximum its comment in
    [score_business] announces (location 30, category 25, contact 20,
    freshness 15, content quality 10), so the sum never exceeds 100 and the
    stored [confidence_score] is the sum itself: the final [min(score, 100)]
    never changes it. *)
Theorem sub_score_caps (self : scorer) (bd : dict) (w : world) (bd' : dict) (w' : world) :
  score_business self bd w = (Ok bd', w') ->
  exists text cs csig q,
    combined_text bd = Ok text /\
    _score_category self text (get bd "category") = Ok (cs, csig) /\
    _score_content_quality bd = Ok q /\
    (_score_location self text).1 <= 30 /\ cs <= 25 /\
    (_score_contact_info bd).1 <= 20 /\
    _score_freshness (get bd "page_created_date") <= 15 /\ q <= 10 /\
    bd' !! "confidence_score"
      = Some (VInt ((_score_location self text).1 + cs + (_score_contact_info bd).1
                    + _score_freshness (get bd "page_created_date") + q)).
Proof.
  intros (score & priority & signals & Hparts & -> & _)%score_business_inv.
  destruct (score_parts_inv _ _ _ _ _ Hparts) as (text & cs & csig & q & Ht & Hc & Hq & -> & _).
  pose proof (_score_location_bounds self text).
  pose proof (_score_category_bounds _ _ _ _ _ Hc).
  pose proof (_score_contact_info_bounds bd).
  pose proof (_score_freshness_bounds (get bd "page_created_date")).
  pose proof (_score_content_quality_bounds _ _ Hq).
  exists text, cs, csig, q.
  split_and!; try first [assumption | lia].
  rewrite lookup_insert_ne by done. rewrite lookup_insert_ne by done.
  rewrite lookup_insert_eq. do 2 f_equal. lia.
Qed.

Lemma sub_score_caps_witness :
  exists text cs csig q,
    combined_text Sample.bakery = Ok text /\
    _score_category Sample.scorer text (get Sample.bakery "category") = Ok (cs, csig) /\
    _score_content_quality Sample.bakery = Ok q /\
    (_score_location Sample.scorer text).1 <= 30 /\ cs <= 25 /\
    (_score_contact_info Sample.bakery).1 <= 20 /\
    _score_freshness (get Sample.bakery "page_created_date") <= 15 /\ q <= 10 /\
    Sample.bakery_scored !! "confidence_score"
      = Some (VInt ((_score_location Sample.scorer text).1 + cs
                    + (_score_contact_info Sample.bakery).1
                    + _score_freshness (get Sample.bakery "page_created_date") + q)).
Proof.
  apply (sub_score_caps Sample.scorer Sample.bakery Sample.w0
           Sample.bakery_scored Sample.bakery_world).
  vm_cast_no_check (eq_refl (Ok Sample.bakery_scored, Sample.bakery_world)).
Defined.

(** X2. Every point is backed by a signal: the record that
    [score_business] returns has a [confidence_score] of 0 exactly when its
    [scoring_signals] list is empty, and the list never has more than eight
    entries. *)
Theorem signals_justify_score (self : scorer) (bd : dict) (w : world) (bd' : dict) (w' : world) :
  score_business self bd w = (Ok bd', w') ->
  exists n sg,
    bd' !! "confidence_score" = Some (VInt n) /\
    bd' !! "scoring_signals" = Some (VList sg) /\
    (n = 0 <-> sg = []) /\ (List.length sg <= 8)%nat.
Proof.
  intros (score & priority & signals & Hparts & -> & _)%score_business_inv.
  exists (Z.min score 100), signals.
  split_and!.
  - rewrite lookup_insert_ne by done. rewrite lookup_insert_ne by done.
    by rewrite lookup_insert_eq.
  - by rewrite lookup_insert_eq.
  - pose proof (score_parts_bounds _ _ _ _ _ Hparts) as Hb.
    destruct (score_parts_full _ _ _ _ _ Hparts)
      as (text & cs & csig & q & _ & Hc & Hq & Hs & Hsg). cbv zeta in Hs, Hsg.
    pose proof (_score_location_bounds self text) as Hl.
    pose proof (_score_location_zero self text) as Hlz.
    pose proof (_score_category_bounds _ _ _ _ _ Hc) as Hcb.
    destruct (_score_category_zero _ _ _ _ _ Hc) as [Hcz _].
    pose proof (_score_contact_info_bounds bd) as Hct.
    destruct (_score_contact_info_zero bd) as [Hctz _].
    pose proof (_score_freshness_bounds (get bd "page_created_date")) as Hf.
    pose proof (_score_content_quality_bounds _ _ Hq) as Hqb.
    rewrite Z.min_l by lia. rewrite Hsg. split.
    + intros H0.
      assert ((_score_location self text).1 = 0) as H1 by lia.
      assert (cs = 0) as H2 by lia.
      assert ((_score_contact_info bd).1 = 0) as H3 by lia.
      assert (_score_freshness (get bd "page_created_date") = 0) as H4 by lia.
      assert (q = 0) as H5 by lia.
      rewrite (proj1 Hlz H1), (proj1 Hcz H2), (proj1 Hctz H3), H4, H5. reflexivity.
    + intros Hnil.
      apply app_eq_nil in Hnil as [Hn1 Hnil]. apply app_eq_nil in Hnil as [Hn2 Hnil].
      apply app_eq_nil in Hnil as [Hn3 Hnil]. apply app_eq_nil in Hnil as [Hn4 Hn5].
      apply Hlz in Hn1. apply Hcz in Hn2. apply Hctz in Hn3.
      destruct (_score_freshness (get bd "page_created_date") >? 0) eqn:E4; [discriminate|].
      destruct (q >? 0) eqn:E5; [discriminate|]. lia.
  - destruct (score_parts_full _ _ _ _ _ Hparts)
      as (text & cs & csig & q & _ & Hc & _ & _ & Hsg). cbv zeta in Hsg.
    pose proof (_score_location_signals self text).
    destruct (_score_category_zero _ _ _ _ _ Hc) as [_ ?].
    destruct (_score_contact_info_zero bd) as [_ ?].
    rewrite Hsg, !length_app.
    destruct (_ >? 0), (q >? 0); cbn [List.length]; lia.
Qed.

Lemma signals_justify_score_witness :
  (Scenario.blank_scored !! "confidence_score" = Some (VInt 0) /\
   Scenario.blank_scored !! "scoring_signals" = Some (VList [])) /\
  exists n sg,
    Sample.bakery_scored !! "confidence_score" = Some (VInt n) /\
    Sample.bakery_scored !! "scoring_signals" = Some (VList sg) /\
    (n = 0 <-> sg = []) /\ (List.length sg <= 8)%nat.
Proof.
  split.
  - destruct (signals_justify_score Sample.scorer Scenario.blank Sample.w0
                Scenario.blank_scored Scenario.blank_world) as (n & sg & H1 & H2 & _);
      [vm_cast_no_check (eq_refl (Ok Scenario.blank_scored, Scenario.blank_world))|].
    split; [vm_cast_no_check (eq_refl (Some (VInt 0)))
           | vm_cast_no_check (eq_refl (Some (VList [])))].
  - apply (signals_justify_score Sample.scorer Sample.bakery Sample.w0
             Sample.bakery_scored Sample.bakery_world).
    vm_cast_no_check (eq_refl (Ok Sample.bakery_scored, Sample.bakery_world)).
Defined.

Lemma text_field_cases (bd : dict) (key : string) :
  (exists s, text_field bd key = Ok s /\ get_or bd key (VStr "") = VStr s) \/
  (text_field bd key = Raise TypeError /\ forall s, get_or bd key (VStr "") <> VStr s).
Proof.
  unfold text_field. destruct (get_or bd key (VStr "")); eauto; right; by split.
Qed.

(** X3. [score_business] raises exactly on a badly typed text field: if
    each of business_name, description, location and category is a string or
    absent it returns a scored record; otherwise it raises TypeError with
    nothing logged and nothing else touched. *)
Theorem score_business_type_error (self : scorer) (bd : dict) (w : world) :
  (Facts.text_fields_ok bd -> exists bd' w', score_business self bd w = (Ok bd', w')) /\
  (~ Facts.text_fields_ok bd -> score_business self bd w = (Raise TypeError, w)).
Proof.
  unfold Facts.text_fields_ok. rewrite !Forall_cons, Forall_nil.
  destruct (text_field_cases bd "business_name") as [(n & Hn & Hn')|[Hn Hn']];
    destruct (text_field_cases bd "description") as [(d & Hd & Hd')|[Hd Hd']];
    destruct (text_field_cases bd "location") as [(l & Hl & Hl')|[Hl Hl']];
    destruct (text_field_cases bd "category") as [(c & Hc & Hc')|[Hc Hc']].
  1: { split; [intros _ | intros []; eauto 10].
       apply (score_business_returns self bd
                (Text.lower (Text.join " " [n; d; l; c]))).
       unfold combined_text. by rewrite Hn, Hd, Hl, Hc. }
  all: split;
    [ intros ([? ?] & [? ?] & [? ?] & [? ?] & _); exfalso;
      first [by eapply Hn' | by eapply Hd' | by eapply Hl' | by eapply Hc']
    | intros _; unfold score_business, score_parts, combined_text;
      rewrite ?Hn, ?Hd, ?Hl, ?Hc; reflexivity ].
Qed.

Lemma score_business_type_error_witness :
  (exists bd' w', score_business Sample.scorer Sample.bakery Sample.w0 = (Ok bd', w')) /\
  score_business Sample.scorer Scenario.no_description Sample.w0
    = (Raise TypeError, Sample.w0).
Proof.
  split.
  - apply (score_business_type_error Sample.scorer Sample.bakery Sample.w0).
    unfold Facts.text_fields_ok. repeat constructor; eexists; vm_compute; reflexivity.
  - apply (score_business_type_error Sample.scorer Scenario.no_description Sample.w0).
    unfold Facts.text_fields_ok. rewrite !Forall_cons.
    intros (_ & [s Hs] & _). vm_compute in Hs. discriminate Hs.
Defined.

(** X4. A record without phone, e-mail and page creation date earns
    nothing for contact and freshness, so its score is at most 65. *)
Theorem score_without_contact_and_date (self : scorer) (bd : dict) (w : world)
    (bd' : dict) (w' : world) :
  score_business self bd w = (Ok bd', w') ->
  truthy (get bd "phone") = false -> truthy (get bd "email") = false ->
  truthy (get bd "page_created_date") = false ->
  exists n, bd' !! "confidence_score" = Some (VInt n) /\ 0 <= n <= 65.
Proof.
  intros (score & priority & signals & Hparts & -> & _)%score_business_inv Hp He Hd.
  destruct (score_parts_inv _ _ _ _ _ Hparts) as (text & cs & csig & q & Ht & Hc & Hq & -> & _).
  pose proof (_score_location_bounds self text).
  pose proof (_score_category_bounds _ _ _ _ _ Hc).
  pose proof (_score_content_quality_bounds _ _ Hq).
  eexists. split.
  - rewrite lookup_insert_ne by done. rewrite lookup_insert_ne by done.
    by rewrite lookup_insert_eq.
  - unfold _score_contact_info, _score_freshness. rewrite Hp, He, Hd. cbn. lia.
Qed.

Lemma score_without_contact_and_date_witness :
  exists n, Sample.kiosk_scored !! "confidence_score" = Some (VInt n) /\ 0 <= n <= 65.
Proof.
  apply (score_without_contact_and_date Sample.scorer Sample.kiosk Sample.w0
           Sample.kiosk_scored Sample.kiosk_world).
  - vm_cast_no_check (eq_refl (Ok Sample.kiosk_scored, Sample.kiosk_world)).
  - vm_compute. reflexivity.
  - vm_compute. reflexivity.
  - vm_compute. reflexivity.
Defined.

(** ** The database handler: round trips, ids, marking *)

(** X5. Insert then look up: after [add_business] has returned, with true
    or with false, [business_exists] is true for the record's URL in every
    spelling of its case; and it returned true exactly when
    [business_exists] was false before. *)
Theorem add_business_then_exists (clock : nat -> string) (bd : dict) (url url' : string)
    (w : world) (b : bool) (w' : world) :
  get bd "page_url" = VStr url ->
  Database.add_business clock bd w = (Ok b, w') ->
  Text.lower url' = Text.lower url ->
  Database.business_exists url' w' = (Ok true, w') /\
  Database.business_exists url w = (Ok (negb b), w).
Proof.
  intros Hu Ha Hl. rewrite !business_exists_eq.
  rewrite (generate_hash_lower url' url Hl).
  destruct (count_hash (Database.generate_hash url) (store w) >? 0) eqn:E.
  - rewrite (add_business_duplicate _ _ _ _ Hu E) in Ha. injection Ha as <- <-.
    by rewrite E.
  - rewrite (add_business_fresh _ _ _ _ Hu E) in Ha.
    destruct (insert_business _ _) as [d'|e] eqn:Ei; [|discriminate].
    injection Ha as <- <-. split; [|reflexivity]. f_equal. f_equal.
    apply insert_business_ok in Ei as [-> _].
    apply count_hash_positive. eexists. split.
    + cbn [store businesses]. apply elem_of_app. right. apply list_elem_of_here.
    + reflexivity.
Qed.

Lemma add_business_then_exists_witness :
  Database.business_exists "HTTPS://FACEBOOK.COM/lagosbakery" Sample.w1 = (Ok true, Sample.w1) /\
  Database.business_exists "https://facebook.com/LagosBakery" Sample.w0 = (Ok (negb true), Sample.w0).
Proof.
  apply (add_business_then_exists Sample.clock Sample.bakery
           "https://facebook.com/LagosBakery" "HTTPS://FACEBOOK.COM/lagosbakery"
           Sample.w0 true Sample.w1).
  - vm_compute. reflexivity.
  - exact sample_w1_eq.
  - vm_compute. reflexivity.
Defined.

Lemma max_id_bound (rows : list row) :
  0 <= fold_right Z.max 0 (map id rows) /\
  Forall (fun r => id r <= fold_right Z.max 0 (map id rows)) rows.
Proof.
  induction rows as [|r rows [IH1 IH2]]; cbn [map fold_right]; [by split|].
  split; [lia|]. constructor; [lia|].
  eapply Forall_impl; [exact IH2|]. intros r' Hr'. cbv beta in *. lia.
Qed.

Lemma ids_ok_insert (r : Z -> row) (d d' : db) :
  (forall i, id (r i) = i) ->
  Facts.ids_ok d -> insert_business r d = Ok d' -> Facts.ids_ok d'.
Proof.
  intros Hid [Hs Hp] [-> _]%insert_business_ok.
  destruct (max_id_bound (businesses d)) as [H0 Hmax].
  split; cbn [businesses].
  - rewrite map_app. apply StronglySorted_app_2; [|done|repeat constructor].
    intros x1 x2 Hx1 ->%list_elem_of_singleton.
    apply list_elem_of_fmap in Hx1 as (r1 & -> & Hr1).
    rewrite Forall_forall in Hmax. specialize (Hmax r1 Hr1).
    rewrite Hid. unfold next_id. lia.
  - apply Forall_app. split; [done|]. repeat constructor.
    rewrite Hid. unfold next_id. lia.
Qed.

Lemma ids_ok_add_business (clock : nat -> string) (bd : dict) (w : world) :
  Facts.ids_ok (store w) -> Facts.ids_ok (store (Database.add_business clock bd w).2).
Proof.
  intros Hc.
  destruct (get bd "page_url") as [| | url | |] eqn:Hu;
    try (rewrite add_business_not_str by (intros ?; congruence); exact Hc).
  destruct (count_hash (Database.generate_hash url) (store w) >? 0) eqn:E.
  - by rewrite (add_business_duplicate _ _ _ _ Hu E).
  - rewrite (add_business_fresh _ _ _ _ Hu E).
    destruct (insert_business _ _) as [d'|e] eqn:Ei; cbn [snd store]; [|done].
    by eapply ids_ok_insert; [| |exact Ei].
Qed.

Lemma update_alerted_ids (business_id : Z) (rows : list row) :
  map id (map (fun r => if id r =? business_id then set_alerted r else r) rows)
  = map id rows.
Proof.
  induction rows as [|r rows IH]; cbn [map]; [done|].
  rewrite IH. by destruct (id r =? business_id).
Qed.

Lemma ids_ok_update_alerted (business_id : Z) (d : db) :
  Facts.ids_ok d -> Facts.ids_ok (update_alerted business_id d).
Proof.
  intros [Hs Hp]. split; cbn [update_alerted businesses].
  - by rewrite update_alerted_ids.
  - apply List.Forall_map. eapply Forall_impl; [exact Hp|]. intros r Hr. cbv beta.
    by destruct (id r =? business_id).
Qed.

(** X6. Row ids: in every database built from a fresh file the ids are
    at least 1, strictly increasing in insertion order, and so pairwise
    different. *)
Theorem reachable_ids (w : world) :
  reachable w ->
  StronglySorted Z.lt (map id (businesses (store w))) /\
  Forall (fun r => 1 <= id r) (businesses (store w)) /\
  NoDup (map id (businesses (store w))).
Proof.
  intros Hr.
  assert (Facts.ids_ok (store w)) as [Hs Hp].
  { induction Hr as [| w clock bd _ IH | w business_id _ IH | w clock p q n _ IH
                     | w w' _ IH He].
    - split; constructor.
    - by apply ids_ok_add_business.
    - rewrite (proj1 (mark_as_alerted_store business_id w)).
      by apply ids_ok_update_alerted.
    - exact IH.
    - by rewrite He. }
  split_and!; [done | done |].
  clear Hp. induction Hs as [|x l Hs IH Hx]; [apply NoDup_nil_2|].
  apply NoDup_cons. split; [|done].
  intros Hin. rewrite Forall_forall in Hx. specialize (Hx x Hin). lia.
Qed.

Lemma reachable_ids_witness :
  map id (businesses (store Scenario.w3)) = [1; 2; 3] /\
  StronglySorted Z.lt (map id (businesses (store Scenario.w3))) /\
  Forall (fun r => 1 <= id r) (businesses (store Scenario.w3)) /\
  NoDup (map id (businesses (store Scenario.w3))).
Proof.
  split; [vm_compute; reflexivity|].
  apply (reachable_ids Scenario.w3), scenario_w3_reachable.
Defined.

Lemma update_alerted_idemp (i : Z) (d : db) :
  update_alerted i (update_alerted i d) = update_alerted i d.
Proof.
  unfold update_alerted. cbn [businesses search_history]. f_equal.
  rewrite map_map. apply map_ext. intros r.
  destruct (id r =? i) eqn:E; [|by rewrite E].
  rewrite set_alerted_id, E. reflexivity.
Qed.

Lemma update_alerted_comm (i j : Z) (d : db) :
  update_alerted i (update_alerted j d) = update_alerted j (update_alerted i d).
Proof.
  unfold update_alerted. cbn [businesses search_history]. f_equal.
  rewrite !map_map. apply map_ext. intros r.
  destruct (id r =? i) eqn:Ei, (id r =? j) eqn:Ej;
    rewrite ?set_alerted_id, ?Ei, ?Ej; reflexivity.
Qed.

Lemma update_alerted_unknown (i : Z) (d : db) :
  (forall r, r ∈ businesses d -> id r <> i) -> update_alerted i d = d.
Proof.
  intros Hno. destruct d as [rows hist]. unfold update_alerted. cbn [businesses search_history] in *.
  f_equal. rewrite <- (map_id rows) at 2. apply map_ext_in. intros r Hr%list_elem_of_In.
  destruct (id r =? i) eqn:E; [|done]. apply Z.eqb_eq in E. by destruct (Hno r Hr).
Qed.

(** X7. [mark_as_alerted] for an id that fits in 64 bits returns normally
    and sets the [alerted] flag of the rows with that id, nothing else; for
    an id that does not fit, which no row of a table can carry, it raises
    OverflowError and changes nothing. Marking twice is marking once, marks
    of two ids commute, an id that no row has leaves the world as it was,
    and after the call every row with the id is alerted. *)
Theorem mark_as_alerted_algebra (i j : Z) (w : world) :
  (int64 i = true ->
   Database.mark_as_alerted i w
   = (Ok tt, MkWorld (update_alerted i (store w)) (log w) (ticks w) (sent w))) /\
  (int64 i = false -> (forall r, r ∈ businesses (store w) -> id r <> i) ->
   Database.mark_as_alerted i w = (Raise OverflowError, w)) /\
  store (Database.mark_as_alerted i (Database.mark_as_alerted i w).2).2
    = store (Database.mark_as_alerted i w).2 /\
  store (Database.mark_as_alerted i (Database.mark_as_alerted j w).2).2
    = store (Database.mark_as_alerted j (Database.mark_as_alerted i w).2).2 /\
  ((forall r, r ∈ businesses (store w) -> id r <> i) ->
   (Database.mark_as_alerted i w).2 = w) /\
  (forall r, r ∈ businesses (store (Database.mark_as_alerted i w).2) ->
             id r = i -> alerted r = true).
Proof.
  assert (forall k v, store (Database.mark_as_alerted k v).2 = update_alerted k (store v))
    as Hstore by (intros k v; apply mark_as_alerted_store).
  split_and!.
  - intros H. apply mark_as_alerted_ok. by rewrite H.
  - intros H Hno. apply mark_as_alerted_raise. rewrite H. cbn [orb].
    apply not_true_is_false. intros (r & Hr & He)%existsb_exists.
    apply Z.eqb_eq in He. apply (Hno r); [by apply list_elem_of_In | done].
  - rewrite !Hstore. apply update_alerted_idemp.
  - rewrite !Hstore. apply update_alerted_comm.
  - intros Hno.
    destruct (int64 i || existsb (fun r => id r =? i) (businesses (store w))) eqn:E.
    + rewrite (mark_as_alerted_ok _ _ E), (update_alerted_unknown i (store w) Hno).
      by destruct w.
    + by rewrite (mark_as_alerted_raise _ _ E).
  - rewrite Hstore. cbn [update_alerted businesses]. intros r Hr Hid.
    apply list_elem_of_fmap in Hr as (r0 & -> & Hr0).
    destruct (id r0 =? i) eqn:E; [reflexivity|].
    apply Z.eqb_neq in E. by destruct E.
Qed.

Lemma mark_as_alerted_algebra_witness :
  (* an id that fits and that no row has *)
  Database.mark_as_alerted 7 Sample.w1 = (Ok tt, Sample.w1) /\
  (* an id that does not fit *)
  Database.mark_as_alerted (2 ^ 63) Sample.w1 = (Raise OverflowError, Sample.w1) /\
  (* the id of the stored row *)
  (Database.mark_as_alerted 1 Sample.w1).1 = Ok tt /\
  map alerted (businesses (store Sample.w1)) = [false] /\
  map alerted (businesses (store (Database.mark_as_alerted 1 Sample.w1).2)) = [true].
Proof.
  assert (id <$> businesses (store Sample.w1) = [1]) as Hids by (vm_compute; reflexivity).
  assert (forall k, k <> 1 -> forall r, r ∈ businesses (store Sample.w1) -> id r <> k)
    as Hno.
  { intros k Hk r Hr. apply (list_elem_of_fmap_2 id) in Hr. rewrite Hids in Hr.
    apply list_elem_of_singleton in Hr. by rewrite Hr. }
  destruct (mark_as_alerted_algebra 7 1 Sample.w1) as (H7 & _ & _ & _ & _ & _).
  destruct (mark_as_alerted_algebra (2 ^ 63) 1 Sample.w1) as (_ & Hbig & _ & _ & _ & _).
  destruct (mark_as_alerted_algebra 1 1 Sample.w1) as (H1 & _ & _ & _ & _ & _).
  split_and!.
  - etrans; [apply H7; reflexivity|].
    vm_cast_no_check (eq_refl (Ok tt, Sample.w1)).
  - apply Hbig; [reflexivity | by apply Hno].
  - by rewrite H1.
  - vm_compute. reflexivity.
  - rewrite H1 by reflexivity. vm_compute. reflexivity.
Defined.

Lemma kept_refl (d : db) : Facts.kept d d.
Proof. intros r Hr. by left. Qed.

(** X8. Nothing the handler does removes a row or clears a flag: after
    [add_business], [mark_as_alerted] or [add_search_history] every row that
    was in the table is still there, unchanged or with [alerted] set; so a
    row that was notified stays notified. *)
Theorem handler_keeps_rows (clock : nat -> string) (bd : dict) (business_id : Z)
    (p q : string) (n : Z) (w : world) :
  Facts.kept (store w) (store (Database.add_business clock bd w).2) /\
  Facts.kept (store w) (store (Database.mark_as_alerted business_id w).2) /\
  Facts.kept (store w) (store (Database.add_search_history clock p q n w).2) /\
  (forall d, Facts.kept (store w) d ->
     forall r, r ∈ businesses (store w) -> alerted r = true -> r ∈ businesses d).
Proof.
  split_and!.
  - intros r Hr. left.
    destruct (add_business_rows clock bd w) as [-> | (url & now & i & ->)]; [done|].
    apply elem_of_app. by left.
  - intros r Hr. rewrite (proj1 (mark_as_alerted_store business_id w)).
    cbn [update_alerted businesses].
    destruct (id r =? business_id) eqn:E; [right | left];
      apply list_elem_of_fmap; exists r; by rewrite E.
  - intros r Hr. by left.
  - intros d Hk r Hr Ha. destruct (Hk r Hr) as [H|H]; [done|].
    by rewrite (set_alerted_alerted r Ha) in H.
Qed.

(** ** The pending list *)

Lemma sql_compare_antisym (a b : value) :
  sql_compare b a = CompOpp (sql_compare a b).
Proof.
  destruct a, b; cbn; try reflexivity.
  - apply Z.compare_antisym.
  - apply String.compare_antisym.
Qed.

Lemma before_true (y x : row) : before y x = true -> Facts.not_after y x.
Proof.
  unfold before, Facts.not_after.
  destruct (sql_compare _ _); [|discriminate|done].
  destruct (String.compare _ _); [discriminate|discriminate|done].
Qed.

Lemma before_false (y x : row) : before y x = false -> Facts.not_after x y.
Proof.
  unfold before, Facts.not_after.
  rewrite (sql_compare_antisym (confidence_score y) (confidence_score x)).
  rewrite (String.compare_antisym (discovered_date y) (discovered_date x)).
  destruct (sql_compare (confidence_score y) (confidence_score x)); cbn;
    [|done|discriminate].
  destruct (String.compare (discovered_date x) (discovered_date y)); cbn;
    [done|discriminate|done].
Qed.

Lemma insert_ordered_perm (x : row) (l : list row) : insert_ordered x l ≡ₚ x :: l.
Proof.
  induction l as [|y l IH]; cbn [insert_ordered]; [done|].
  destruct (before y x); [|done]. rewrite IH. apply Permutation_swap.
Qed.

Lemma order_by_perm (l : list row) : order_by l ≡ₚ l.
Proof.
  unfold order_by. induction l as [|x l IH]; cbn [fold_right]; [done|].
  by rewrite insert_ordered_perm, IH.
Qed.

Lemma insert_ordered_sorted (x : row) (l : list row) :
  Sorted Facts.not_after l -> Sorted Facts.not_after (insert_ordered x l).
Proof.
  induction l as [|y l IH]; cbn [insert_ordered]; intros Hs.
  - repeat constructor.
  - destruct (before y x) eqn:E.
    + apply Sorted_inv in Hs as [Hs Hhd]. constructor; [by apply IH|].
      destruct l as [|z l]; cbn [insert_ordered].
      * constructor. by apply before_true.
      * destruct (before z x); constructor;
          [by apply HdRel_inv in Hhd | by apply before_true].
    + constructor; [done|]. constructor. by apply before_false.
Qed.

Lemma order_by_sorted (l : list row) : Sorted Facts.not_after (order_by l).
Proof.
  unfold order_by. induction l as [|x l IH]; cbn [fold_right]; [constructor|].
  by apply insert_ordered_sorted.
Qed.

(** X9. [get_unalereted_businesses] returns every row that is not yet
    alerted exactly once and nothing else, ordered so that no row is
    followed by one with a higher score, or with the same score and a later
    discovery date; the database is not changed. *)
Theorem pending_list_order (w : world) :
  exists l,
    Database.get_unalereted_businesses w = (Ok l, w) /\
    l ≡ₚ List.filter (fun r => negb (alerted r)) (businesses (store w)) /\
    Sorted Facts.not_after l.
Proof.
  exists (select_unalerted (store w)). split_and!.
  - reflexivity.
  - apply order_by_perm.
  - apply order_by_sorted.
Qed.

(** ** The notifier and the polls *)

Lemma bind_ok {A B} (m : M A) (k : A -> M B) (w w1 : world) (a : A) :
  m w = (Ok a, w1) -> Run.bind m k w = k a w1.
Proof. intros H. unfold Run.bind. by rewrite H. Qed.

Lemma extends_refl (w : world) : Facts.extends w [] w.
Proof. split_and!; try done; [by rewrite app_nil_r | exists []; by rewrite app_nil_r]. Qed.

Lemma extends_trans (w w1 w2 : world) (d1 d2 : list (string * Z)) :
  Facts.extends w d1 w1 -> Facts.extends w1 d2 w2 -> Facts.extends w (d1 ++ d2) w2.
Proof.
  intros (Hs1 & Ht1 & Hd1 & m1 & Hl1) (Hs2 & Ht2 & Hd2 & m2 & Hl2). split_and!.
  - congruence.
  - congruence.
  - by rewrite Hd2, Hd1, app_assoc.
  - exists (m1 ++ m2). by rewrite Hl2, Hl1, app_assoc.
Qed.

Lemma extends_log (w : world) (l : level) (msg : string) :
  Facts.extends w [] (MkWorld (store w) (log w ++ [(l, msg)]) (ticks w) (sent w)).
Proof. split_and!; try done; [by rewrite app_nil_r | by eexists]. Qed.

Lemma send_email_alert_outcome (net : AlertManager.transports) (b : row) (w : world) :
  exists w',
    AlertManager.send_email_alert net b w = (Ok tt, w') /\
    Facts.extends w (if AlertManager.email_configured net && AlertManager.smtp_send net b
                     then [("email", id b)] else []) w'.
Proof.
  unfold AlertManager.send_email_alert, try_except, AlertManager.attempt.
  destruct (AlertManager.email_configured net); cbn [negb andb];
    [destruct (AlertManager.smtp_send net b)|];
    cbv [Run.bind for_each deliver ret logger raise store log ticks sent];
    (eexists; split; [reflexivity|]).
  - split_and!; try done. cbn. by eexists.
  - apply extends_log.
  - apply extends_log.
Qed.

Lemma send_telegram_alert_outcome (net : AlertManager.transports) (b : row) (w : world) :
  exists w',
    AlertManager.send_telegram_alert net b w = (Ok tt, w') /\
    Facts.extends w (if AlertManager.telegram_configured net
                        && AlertManager.telegram_post net b
                     then [("telegram", id b)] else []) w'.
Proof.
  unfold AlertManager.send_telegram_alert, try_except, AlertManager.attempt.
  destruct (AlertManager.telegram_configured net); cbn [negb andb];
    [destruct (AlertManager.telegram_post net b)|];
    cbv [Run.bind for_each deliver ret logger raise store log ticks sent];
    (eexists; split; [reflexivity|]).
  - split_and!; try done. cbn. by eexists.
  - apply extends_log.
  - apply extends_log.
Qed.

Lemma send_desktop_alert_outcome (net : AlertManager.transports) (b : row) (w : world) :
  exists w',
    AlertManager.send_desktop_alert net b w = (Ok tt, w') /\
    Facts.extends w (if AlertManager.plyer_installed net && AlertManager.notify net b
                     then [("desktop", id b)] else []) w'.
Proof.
  unfold AlertManager.send_desktop_alert, try_except, AlertManager.attempt.
  destruct (AlertManager.plyer_installed net); cbn [negb andb];
    [destruct (AlertManager.notify net b)|];
    cbv [Run.bind for_each deliver ret logger raise store log ticks sent];
    (eexists; split; [reflexivity|]).
  - split_and!; try done. cbn. by eexists.
  - apply extends_log.
  - apply extends_log.
Qed.

(** One call of [send_alert], in full. *)
Lemma send_alert_run (am : AlertManager.alert_manager) (net : AlertManager.transports)
    (business : row) (w : world) :
  exists w',
    AlertManager.send_alert am net business w = (Ok tt, w') /\
    store w' = store w /\ ticks w' = ticks w /\
    sent w' = sent w ++ Facts.deliveries am net business /\
    exists msgs,
      log w' = log w ++ msgs
               ++ [(INFO, "Alert sent for: " +:+ fmt (business_name business))].
Proof.
  assert (exists w1, (if AlertManager.email_enabled am
                      then AlertManager.send_email_alert net business else ret tt) w
                     = (Ok tt, w1) /\
                     Facts.extends w
                       (if AlertManager.email_enabled am && AlertManager.email_configured net
                           && AlertManager.smtp_send net business
                        then [("email", id business)] else []) w1) as (w1 & E1 & X1).
  { destruct (AlertManager.email_enabled am); cbn [andb];
      [apply send_email_alert_outcome | exists w; split; [done | apply extends_refl]]. }
  assert (exists w2, (if AlertManager.telegram_enabled am
                      then AlertManager.send_telegram_alert net business else ret tt) w1
                     = (Ok tt, w2) /\
                     Facts.extends w1
                       (if AlertManager.telegram_enabled am
                           && AlertManager.telegram_configured net
                           && AlertManager.telegram_post net business
                        then [("telegram", id business)] else []) w2) as (w2 & E2 & X2).
  { destruct (AlertManager.telegram_enabled am); cbn [andb];
      [apply send_telegram_alert_outcome | exists w1; split; [done | apply extends_refl]]. }
  assert (exists w3, (if AlertManager.desktop_enabled am
                      then AlertManager.send_desktop_alert net business else ret tt) w2
                     = (Ok tt, w3) /\
                     Facts.extends w2
                       (if AlertManager.desktop_enabled am
                           && AlertManager.plyer_installed net
                           && AlertManager.notify net business
                        then [("desktop", id business)] else []) w3) as (w3 & E3 & X3).
  { destruct (AlertManager.desktop_enabled am); cbn [andb];
      [apply send_desktop_alert_outcome | exists w2; split; [done | apply extends_refl]]. }
  pose proof (extends_trans _ _ _ _ _ X1 (extends_trans _ _ _ _ _ X2 X3))
    as (Hs & Ht & Hd & msgs & Hl).
  eexists. split.
  - unfold AlertManager.send_alert, try_except.
    rewrite (bind_ok _ _ _ _ _ E1), (bind_ok _ _ _ _ _ E2), (bind_ok _ _ _ _ _ E3).
    cbn [logger]. reflexivity.
  - cbn [store ticks sent log]. split_and!; try done.
    exists msgs. by rewrite Hl, app_assoc.
Qed.

(** X10. What [send_alert] does for one record: it always returns
    normally; it hands the record to exactly the channels that are switched
    on, set up and whose transport goes through, in the order e-mail,
    Telegram, desktop; it leaves the database and the clock alone; and its
    last log message is "Alert sent for: <name>" even when every transport
    failed. *)
Theorem send_alert_outcome (am : AlertManager.alert_manager) (net : AlertManager.transports)
    (business : row) (w : world) :
  exists w',
    AlertManager.send_alert am net business w = (Ok tt, w') /\
    store w' = store w /\ ticks w' = ticks w /\
    sent w' = sent w ++ Facts.deliveries am net business /\
    exists msgs,
      log w' = log w ++ msgs
               ++ [(INFO, "Alert sent for: " +:+ fmt (business_name business))].
Proof. apply send_alert_run. Qed.

Lemma deliver_each (channel : string) (l : list row) (w : world) :
  for_each (map id l) tt (fun _ i => deliver channel i) w
  = (Ok tt, MkWorld (store w) (log w) (ticks w)
                    (sent w ++ map (fun b => (channel, id b)) l)).
Proof.
  revert w. induction l as [|b l IH]; intros w; cbn [for_each map].
  - rewrite app_nil_r. by destruct w.
  - unfold Run.bind at 1. cbn [deliver]. rewrite IH. cbn [store log ticks sent].
    by rewrite <- app_assoc.
Qed.

Lemma send_batch_email_outcome (net : AlertManager.transports) (l : list row) (w : world) :
  exists w',
    AlertManager.send_batch_email net l w = (Ok tt, w') /\
    Facts.extends w (if AlertManager.email_configured net
                        && AlertManager.smtp_send_batch net l
                     then map (fun b => ("email", id b)) l else []) w'.
Proof.
  unfold AlertManager.send_batch_email, try_except, AlertManager.attempt.
  destruct (AlertManager.email_configured net); cbn [negb andb];
    [destruct (AlertManager.smtp_send_batch net l)|].
  - unfold Run.bind. rewrite deliver_each. cbn [logger store log ticks sent].
    eexists. split; [reflexivity|]. split_and!; try done. cbn. by eexists.
  - cbv [Run.bind raise logger]. eexists. split; [reflexivity|]. apply extends_log.
  - exists w. split; [done | apply extends_refl].
Qed.

Lemma send_batch_telegram_outcome (net : AlertManager.transports) (l : list row)
    (w : world) :
  exists w',
    AlertManager.send_batch_telegram net l w = (Ok tt, w') /\
    Facts.extends w (if AlertManager.telegram_configured net
                        && AlertManager.telegram_post_batch net l
                     then map (fun b => ("telegram", id b)) l else []) w'.
Proof.
  unfold AlertManager.send_batch_telegram, try_except, AlertManager.attempt.
  destruct (AlertManager.telegram_configured net); cbn [negb andb];
    [destruct (AlertManager.telegram_post_batch net l)|].
  - rewrite deliver_each. eexists. split; [reflexivity|].
    split_and!; try done. exists []. cbn. by rewrite app_nil_r.
  - cbv [raise logger]. eexists. split; [reflexivity|]. apply extends_log.
  - exists w. split; [done | apply extends_refl].
Qed.

(** One call of [send_batch_alert], in full. *)
Lemma send_batch_alert_run (am : AlertManager.alert_manager)
    (net : AlertManager.transports) (l : list row) (w : world) :
  exists w',
    AlertManager.send_batch_alert am net l w = (Ok tt, w') /\
    Facts.extends w (match l with [] => [] | _ => Facts.batch_deliveries am net l end) w'.
Proof.
  destruct l as [|b0 l0]; [exists w; split; [done | apply extends_refl]|].
  set (l := b0 :: l0).
  assert (exists w1, (if AlertManager.email_enabled am
                      then AlertManager.send_batch_email net l else ret tt) w
                     = (Ok tt, w1) /\
                     Facts.extends w
                       (if AlertManager.email_enabled am && AlertManager.email_configured net
                           && AlertManager.smtp_send_batch net l
                        then map (fun b => ("email", id b)) l else []) w1)
    as (w1 & E1 & X1).
  { destruct (AlertManager.email_enabled am); cbn [andb];
      [apply send_batch_email_outcome | exists w; split; [done | apply extends_refl]]. }
  assert (exists w2, (if AlertManager.telegram_enabled am
                      then AlertManager.send_batch_telegram net l else ret tt) w1
                     = (Ok tt, w2) /\
                     Facts.extends w1
                       (if AlertManager.telegram_enabled am
                           && AlertManager.telegram_configured net
                           && AlertManager.telegram_post_batch net l
                        then map (fun b => ("telegram", id b)) l else []) w2)
    as (w2 & E2 & X2).
  { destruct (AlertManager.telegram_enabled am); cbn [andb];
      [apply send_batch_telegram_outcome | exists w1; split; [done | apply extends_refl]]. }
  eexists. split.
  - subst l. unfold AlertManager.send_batch_alert, try_except.
    rewrite (bind_ok _ _ _ _ _ E1), (bind_ok _ _ _ _ _ E2). cbn [logger]. reflexivity.
  - epose proof (extends_trans _ _ _ _ _ (extends_trans _ _ _ _ _ X1 X2)
                               (extends_log w2 _ _)) as H.
    rewrite app_nil_r in H. exact H.
Qed.

Lemma instant_turn_run (am : AlertManager.alert_manager) (net : AlertManager.transports)
    (business : row) (w : world) :
  existsb (fun r => id r =? id business) (businesses (store w)) = true ->
  exists w',
    (AlertManager.send_alert am net business ;;
     Database.mark_as_alerted (id business))%run w = (Ok tt, w') /\
    store w' = update_alerted (id business) (store w) /\
    ticks w' = ticks w /\
    sent w' = sent w ++ Facts.deliveries am net business.
Proof.
  intros Hk.
  destruct (send_alert_run am net business w) as (w1 & E & Hs & Ht & Hd & _).
  rewrite (bind_ok _ _ _ _ _ E).
  rewrite mark_as_alerted_ok by (rewrite Hs, Hk; apply orb_true_r).
  eexists. split; [reflexivity|]. cbn [store ticks sent]. by rewrite Hs.
Qed.

Lemma instant_loop_run (am : AlertManager.alert_manager) (net : AlertManager.transports)
    (l : list row) (w : world) :
  Forall (fun b => existsb (fun r => id r =? id b) (businesses (store w)) = true) l ->
  exists w',
    for_each l tt (fun (_ : unit) (business : row) =>
                     (AlertManager.send_alert am net business ;;
                      Database.mark_as_alerted (id business))%run) w = (Ok tt, w') /\
    store w' = fold_left (fun d business => update_alerted (id business) d) l (store w) /\
    ticks w' = ticks w /\
    sent w' = sent w ++ concat (map (Facts.deliveries am net) l).
Proof.
  revert w. induction l as [|b l IH]; intros w Hk; cbn [for_each fold_left map concat].
  - exists w. by rewrite app_nil_r.
  - apply Forall_cons in Hk as [Hb Hk].
    destruct (instant_turn_run am net b w Hb) as (w1 & E1 & Hs1 & Ht1 & Hd1).
    rewrite (bind_ok _ _ _ _ _ E1).
    destruct (IH w1) as (w2 & -> & Hs2 & Ht2 & Hd2); [rewrite Hs1; by apply known_update|].
    exists w2. split; [reflexivity|].
    by rewrite Hs2, Hs1, Ht2, Ht1, Hd2, Hd1, app_assoc.
Qed.

Lemma batch_loop_run (l : list row) (w : world) :
  Forall (fun b => existsb (fun r => id r =? id b) (businesses (store w)) = true) l ->
  exists w',
    for_each l tt (fun (_ : unit) (business : row) =>
                     Database.mark_as_alerted (id business)) w = (Ok tt, w') /\
    store w' = fold_left (fun d business => update_alerted (id business) d) l (store w) /\
    ticks w' = ticks w /\ sent w' = sent w.
Proof.
  revert w. induction l as [|b l IH]; intros w Hk; cbn [for_each fold_left].
  - by exists w.
  - apply Forall_cons in Hk as [Hb Hk].
    unfold Run.bind at 1.
    rewrite mark_as_alerted_ok by (rewrite Hb; apply orb_true_r).
    destruct (IH (MkWorld (update_alerted (id b) (store w)) (log w) (ticks w) (sent w)))
      as (w' & -> & H); [by apply known_update|].
    by exists w'.
Qed.

Lemma batch_deliveries_nil (am : AlertManager.alert_manager)
    (net : AlertManager.transports) :
  Facts.batch_deliveries am net [] = [].
Proof. unfold Facts.batch_deliveries. cbn [map]. by do 2 destruct (_ && _ && _). Qed.

(** Once every row is marked, nothing is pending. *)
Lemma select_unalerted_marked (d : db) (l : list row) :
  businesses d = map set_alerted l -> select_unalerted d = [].
Proof.
  intros H. unfold select_unalerted. rewrite H. clear H.
  assert (List.filter (fun r => negb (alerted r)) (map set_alerted l) = []) as ->; [|done].
  induction l as [|r l IH]; [done|]. cbn [map List.filter set_alerted alerted negb]. exact IH.
Qed.

(** The instant poll, in full. *)
Lemma instant_poll_run (am : AlertManager.alert_manager)
    (net : AlertManager.transports) (w : world) :
  exists w',
    TaskScheduler.process_instant_alerts am net w = (Ok tt, w') /\
    businesses (store w') = map set_alerted (businesses (store w)) /\
    search_history (store w') = search_history (store w) /\
    ticks w' = ticks w /\
    sent w' = sent w ++ concat (map (Facts.deliveries am net) (select_unalerted (store w))).
Proof.
  unfold TaskScheduler.process_instant_alerts, try_except.
  unfold Run.bind at 1. cbv [Database.get_unalereted_businesses query].
  pose proof (mark_pending (store w)) as Hmark.
  pose proof (pending_known (store w)) as Hk.
  destruct (select_unalerted (store w)) as [|b l] eqn:Hp.
  - exists w. cbn [ret map concat]. rewrite app_nil_r. split_and!; try done.
    rewrite <- Hmark. cbn [existsb]. by rewrite map_id.
  - unfold Run.bind at 1. cbn [logger].
    unfold Run.bind at 1.
    match goal with
    | |- context [for_each (b :: l) tt _ ?w0] =>
        destruct (instant_loop_run am net (b :: l) w0) as (w' & -> & H2 & Ht & Hd);
          [exact Hk|]
    end.
    cbn [store ticks sent] in H2, Ht, Hd.
    destruct (fold_update_alerted (b :: l) (store w)) as [H3 H4].
    eexists. split; [reflexivity|]. cbn [store ticks sent].
    rewrite H2. split_and!; [by rewrite H3, Hmark | done | done | done].
Qed.

(** The batch poll, in full. *)
Lemma batch_poll_run (am : AlertManager.alert_manager)
    (net : AlertManager.transports) (w : world) :
  exists w',
    TaskScheduler.process_batch_alerts am net w = (Ok tt, w') /\
    businesses (store w') = map set_alerted (businesses (store w)) /\
    search_history (store w') = search_history (store w) /\
    ticks w' = ticks w /\
    sent w' = sent w ++ Facts.batch_deliveries am net (select_unalerted (store w)).
Proof.
  unfold TaskScheduler.process_batch_alerts, try_except.
  unfold Run.bind at 1. cbv [Database.get_unalereted_businesses query].
  pose proof (mark_pending (store w)) as Hmark.
  pose proof (pending_known (store w)) as Hk.
  destruct (select_unalerted (store w)) as [|b l] eqn:Hp.
  - eexists. cbn [logger]. split; [reflexivity|]. cbn [store ticks sent].
    rewrite batch_deliveries_nil, app_nil_r. split_and!; try done.
    rewrite <- Hmark. cbn [existsb]. by rewrite map_id.
  - unfold Run.bind at 1. cbn [logger].
    unfold Run.bind at 1.
    match goal with
    | |- context [AlertManager.send_batch_alert am net (b :: l) ?w0] =>
        destruct (send_batch_alert_run am net (b :: l) w0) as (w1 & -> & Hs & Ht & Hd & _)
    end.
    unfold Run.bind at 1.
    cbn [store ticks sent] in Hs, Ht, Hd.
    destruct (batch_loop_run (b :: l) w1) as (w' & -> & H2 & Ht2 & Hd2);
      [by rewrite Hs|].
    destruct (fold_update_alerted (b :: l) (store w)) as [H3 H4].
    eexists. split; [reflexivity|]. cbn [store ticks sent].
    rewrite H2, Hs. split_and!; [by rewrite H3, Hmark | done | congruence | congruence].
Qed.

(** X11. What one instant poll delivers: every pending record is handed, in
    the order of the pending list (best score first), to each channel that
    is switched on, set up and working for that record, e-mail before
    Telegram before desktop; nothing else enters the outbox, and the poll
    returns normally whatever the transports do. *)
Theorem instant_poll_deliveries (am : AlertManager.alert_manager)
    (net : AlertManager.transports) (w : world) :
  exists w',
    TaskScheduler.process_instant_alerts am net w = (Ok tt, w') /\
    sent w' = sent w ++ concat (map (Facts.deliveries am net) (select_unalerted (store w))).
Proof.
  destruct (instant_poll_run am net w) as (w' & E & _ & _ & _ & Hd). by exists w'.
Qed.

(** X12. What one batch poll delivers: the whole pending list once by
    e-mail and once by Telegram, each only if that channel is switched on,
    set up and its transport accepts the batch; the desktop channel is never
    used in batch mode. The poll returns normally whatever the transports
    do. *)
Theorem batch_poll_deliveries (am : AlertManager.alert_manager)
    (net : AlertManager.transports) (w : world) :
  exists w',
    TaskScheduler.process_batch_alerts am net w = (Ok tt, w') /\
    sent w' = sent w ++ Facts.batch_deliveries am net (select_unalerted (store w)) /\
    Forall (fun d => d.1 <> "desktop") (Facts.batch_deliveries am net
                                          (select_unalerted (store w))).
Proof.
  destruct (batch_poll_run am net w) as (w' & E & _ & _ & _ & Hd).
  exists w'. split_and!; [done | done |].
  unfold Facts.batch_deliveries. apply Forall_app. split.
  - destruct (_ && _ && _); [|constructor]. apply Forall_forall.
    intros d (b & <- & _)%list_elem_of_In%in_map_iff. by cbn.
  - destruct (_ && _ && _); [|constructor]. apply Forall_forall.
    intros d (b & <- & _)%list_elem_of_In%in_map_iff. by cbn.
Qed.

(** X13. A poll settles the table: after an instant or a batch poll no
    record is pending, so an instant poll that follows, with any channels
    and transports, changes nothing at all, not even the log. *)
Theorem poll_settles (am am' : AlertManager.alert_manager)
    (net net' : AlertManager.transports) (w : world) :
  (exists w',
     TaskScheduler.process_instant_alerts am net w = (Ok tt, w') /\
     Database.get_unalereted_businesses w' = (Ok [], w') /\
     TaskScheduler.process_instant_alerts am' net' w' = (Ok tt, w')) /\
  (exists w',
     TaskScheduler.process_batch_alerts am net w = (Ok tt, w') /\
     Database.get_unalereted_businesses w' = (Ok [], w') /\
     TaskScheduler.process_instant_alerts am' net' w' = (Ok tt, w')).
Proof.
  split.
  - destruct (instant_poll_run am net w) as (w' & E & Hb & _).
    pose proof (select_unalerted_marked _ _ Hb) as Hn.
    exists w'. split_and!; [done | |].
    + cbv [Database.get_unalereted_businesses query]. by rewrite Hn.
    + unfold TaskScheduler.process_instant_alerts, try_except, Run.bind.
      cbv [Database.get_unalereted_businesses query]. by rewrite Hn.
  - destruct (batch_poll_run am net w) as (w' & E & Hb & _).
    pose proof (select_unalerted_marked _ _ Hb) as Hn.
    exists w'. split_and!; [done | |].
    + cbv [Database.get_unalereted_businesses query]. by rewrite Hn.
    + unfold TaskScheduler.process_instant_alerts, try_except, Run.bind.
      cbv [Database.get_unalereted_businesses query]. by rewrite Hn.
Qed.

(** X14. The two alert modes leave the same database: from the same state
    an instant poll and a batch poll end with identical tables (every row
    marked, the search history untouched) and the same clock, whatever was
    delivered. *)
Theorem alert_modes_agree (am : AlertManager.alert_manager)
    (net : AlertManager.transports) (w : world) :
  exists wi wb,
    TaskScheduler.process_instant_alerts am net w = (Ok tt, wi) /\
    TaskScheduler.process_batch_alerts am net w = (Ok tt, wb) /\
    store wi = store wb /\ ticks wi = ticks wb /\
    businesses (store wi) = map set_alerted (businesses (store w)).
Proof.
  destruct (instant_poll_run am net w) as (wi & Ei & Hbi & Hhi & Hti & _).
  destruct (batch_poll_run am net w) as (wb & Eb & Hbb & Hhb & Htb & _).
  exists wi, wb. split_and!; try done; [|congruence].
  destruct (store wi), (store wb); cbn in *. congruence.
Qed.

(** ** The discovery passes *)

Lemma pass_step_refl (ok : row -> Prop) (w : world) (found : list dict) :
  Facts.pass_step ok w found w found.
Proof. exists [], []. by rewrite !app_nil_r. Qed.

Lemma pass_step_trans (ok : row -> Prop) (w1 w2 w3 : world) (f1 f2 f3 : list dict) :
  Facts.pass_step ok w1 f1 w2 f2 -> Facts.pass_step ok w2 f2 w3 f3 ->
  Facts.pass_step ok w1 f1 w3 f3.
Proof.
  intros (n1 & r1 & -> & Hb1 & Hr1 & Ho1) (n2 & r2 & -> & Hb2 & Hr2 & Ho2).
  exists (n1 ++ n2), (r1 ++ r2). split_and!.
  - by rewrite app_assoc.
  - by rewrite Hb2, Hb1, app_assoc.
  - by apply Forall2_app.
  - by apply Forall_app.
Qed.

Lemma pass_step_store (ok : row -> Prop) (w1 w2 w2' : world) (f1 f2 : list dict) :
  businesses (store w2') = businesses (store w2) ->
  Facts.pass_step ok w1 f1 w2 f2 -> Facts.pass_step ok w1 f1 w2' f2.
Proof.
  intros He (n & r & -> & Hb & Hr & Ho). exists n, r. by rewrite He.
Qed.

(** The record the Google scraper builds from a search result, once
    scored: what [score_business] and [add_business] find in it. *)
Lemma google_record_facts (cfg : Config.config) (result : GoogleScraper.search_result)
    (platform category : string) (bd : dict) (score : Z) (priority : string)
    (signals : list string) :
  GoogleScraper._extract_from_search_result cfg result platform category = Some bd ->
  let sd := <["scoring_signals" := VList signals]>
              (<["priority" := VStr priority]>
                 (<["confidence_score" := VInt score]> bd)) in
  (exists text, combined_text bd = Ok text) /\
  truthy (get bd "phone") = false /\ truthy (get bd "email") = false /\
  truthy (get bd "page_created_date") = false /\
  (int64 score = true -> insertable sd = true) /\
  get sd "page_url" = VStr (GoogleScraper.url result) /\
  sd !! "confidence_score" = Some (VInt score) /\
  (exists n, sd !! "business_name" = Some (VStr n)) /\
  get sd "platform" = VStr platform /\
  get sd "phone" = VStr "" /\ get sd "email" = VStr "" /\
  get sd "page_created_date" = VStr "".
Proof.
  unfold GoogleScraper._extract_from_search_result. intros [= <-].
  generalize (GoogleScraper._extract_business_name (GoogleScraper.title result) platform).
  generalize (GoogleScraper._extract_location cfg (GoogleScraper.snippet result)).
  generalize (GoogleScraper.url result). generalize (GoogleScraper.snippet result).
  intros snippet url loc name. cbv zeta.
  split.
  { eexists. unfold combined_text, text_field.
    replace (get_or _ "business_name" (VStr "")) with (VStr name) by (vm_compute; reflexivity).
    replace (get_or _ "description" (VStr "")) with (VStr snippet) by (vm_compute; reflexivity).
    replace (get_or _ "location" (VStr "")) with (VStr loc) by (vm_compute; reflexivity).
    replace (get_or _ "category" (VStr "")) with (VStr category) by (vm_compute; reflexivity).
    reflexivity. }
  do 3 (split; [vm_compute; reflexivity|]).
  split.
  { intros Hscore. unfold insertable.
    repeat match goal with
    | |- context [get ?d ?k] =>
        let v := eval vm_compute in (get d k) in
        replace (get d k) with v by (vm_compute; reflexivity)
    | |- context [get_or ?d ?k ?x] =>
        let v := eval vm_compute in (get_or d k x) in
        replace (get_or d k x) with v by (vm_compute; reflexivity)
    end.
    cbn [forallb bindable not_null andb]. by rewrite Hscore. }
  do 2 (split; [vm_compute; reflexivity|]).
  split; [exists name; vm_compute; reflexivity|].
  split_and!; vm_compute; reflexivity.
Qed.

Lemma score_parts_no_contact (self : scorer) (bd : dict) (score : Z) (priority : string)
    (signals : list string) :
  score_parts self bd = Ok (score, priority, signals) ->
  truthy (get bd "phone") = false -> truthy (get bd "email") = false ->
  truthy (get bd "page_created_date") = false ->
  0 <= score <= 65.
Proof.
  intros Hparts Hp He Hd.
  destruct (score_parts_inv _ _ _ _ _ Hparts) as (text & cs & csig & q & Ht & Hc & Hq & -> & _).
  pose proof (_score_location_bounds self text).
  pose proof (_score_category_bounds _ _ _ _ _ Hc).
  pose proof (_score_content_quality_bounds _ _ Hq).
  unfold _score_contact_info, _score_freshness. rewrite Hp, He, Hd. cbn. lia.
Qed.

Lemma consistent_businesses (d d' : db) :
  businesses d' = businesses d -> consistent d -> consistent d'.
Proof. unfold consistent. by intros ->. Qed.

(** One search result of the Google pass, from a consistent table. *)
Lemma google_result_run (cfg : Config.config) (clock : nat -> string)
    (platform category : string) (found : list dict)
    (result : GoogleScraper.search_result) (w : world) :
  consistent (store w) ->
  platform = "Facebook" \/ platform = "LinkedIn" ->
  exists found' w',
    GoogleScraper.process_result cfg clock platform category found result w
    = (Ok found', w') /\
    consistent (store w') /\
    search_history (store w') = search_history (store w) /\
    Facts.pass_step (Facts.google_row (minimum cfg)) w found w' found'.
Proof.
  intros Hc Hp. unfold GoogleScraper.process_result. cbv zeta.
  rewrite (bind_ok _ _ _ _ _ (business_exists_eq (GoogleScraper.url result) w)).
  destruct (count_hash _ _ >? 0) eqn:E.
  { exists found, w. split_and!; try done. apply pass_step_refl. }
  destruct (GoogleScraper._extract_from_search_result cfg result platform category)
    as [bd|] eqn:Eb; [|discriminate Eb].
  pose proof (google_record_facts cfg result platform category bd) as Hfacts.
  pose proof (Hfacts 0 "" [] Eb) as H0. cbv zeta in H0. destruct H0 as [[text Ht] _].
  destruct (score_business_returns (GoogleScraper.scorer cfg) bd text w Ht)
    as (sd & w1 & Es).
  rewrite (bind_ok _ _ _ _ _ Es).
  destruct (score_business_inv _ _ _ _ _ Es)
    as (score & priority & signals & Hparts & -> & Hs1 & Ht1 & Hd1).
  pose proof (Hfacts (Z.min score 100) priority signals Eb) as H0. cbv zeta in H0.
  destruct H0
    as (_ & Hph & Hem & Hdt & Hins & Hurl & Hsc & [name Hname] & Hpl & Hph' & Hem' & Hdt').
  pose proof (score_parts_no_contact _ _ _ _ _ Hparts Hph Hem Hdt) as Hbound.
  assert (insertable (<["scoring_signals" := VList signals]>
                        (<["priority" := VStr priority]>
                           (<["confidence_score" := VInt (Z.min score 100)]> bd))) = true)
    as Hins' by (apply Hins, int64_spec; lia).
  clear Hins. rename Hins' into Hins.
  set (sd := <["scoring_signals" := VList signals]> _) in *.
  unfold Item.item at 1. rewrite Hsc.
  unfold Run.bind at 1. cbn [ret]. unfold Run.bind at 1. cbn [Item.ge_int ret].
  fold (minimum cfg).
  destruct (Z.min score 100 >=? minimum cfg) eqn:Ege.
  2: { exists found, w1. split_and!; [done | by rewrite Hs1 | by rewrite Hs1 |].
       apply (pass_step_store _ w w w1 found found); [by rewrite Hs1 | apply pass_step_refl]. }
  rewrite <- Hs1 in E, Hc.
  unfold Run.bind at 1.
  rewrite (add_business_fresh clock sd _ w1 Hurl E).
  rewrite (insert_business_new_row sd _ _ _ Hc Hins E).
  unfold Item.item. rewrite Hname.
  cbv [Run.bind ret logger]. cbn [store log ticks sent].
  eexists. eexists. split; [reflexivity|]. cbn [store businesses search_history].
  split_and!.
  - eapply consistent_insert; [exact Hc|].
    apply (insert_business_new_row sd _ (clock (ticks w1)) _ Hc Hins E).
  - by rewrite Hs1.
  - eexists [sd], [_]. split_and!; [done | cbn [store businesses]; by rewrite Hs1 | |].
    + constructor; [|constructor]. eexists _, _. split; [exact Hurl | reflexivity].
    + constructor; [|constructor].
      unfold Facts.google_row.
      cbn [Database.new_row confidence_score Sqlite.platform phone email
             page_created_date alerted].
      rewrite Hpl, Hph', Hem', Hdt'. unfold get_or. rewrite Hsc. cbn [default].
      split_and!; try done.
      * exists (Z.min score 100). split; [done|]. lia.
      * destruct Hp as [-> | ->]; auto.
Qed.

(** The loop over the results of one query. *)
Lemma google_results_run (cfg : Config.config) (clock : nat -> string)
    (platform category : string) (results : list GoogleScraper.search_result)
    (found : list dict) (w : world) :
  consistent (store w) ->
  platform = "Facebook" \/ platform = "LinkedIn" ->
  exists found' w',
    for_each results found (GoogleScraper.process_result cfg clock platform category) w
    = (Ok found', w') /\
    consistent (store w') /\
    search_history (store w') = search_history (store w) /\
    Facts.pass_step (Facts.google_row (minimum cfg)) w found w' found'.
Proof.
  intros Hc Hp. revert found w Hc.
  induction results as [|r results IH]; intros found w Hc; cbn [for_each].
  - exists found, w. split_and!; try done. apply pass_step_refl.
  - destruct (google_result_run cfg clock platform category found r w Hc Hp)
      as (f1 & w1 & E1 & Hc1 & Hh1 & Hs1).
    rewrite (bind_ok _ _ _ _ _ E1).
    destruct (IH f1 w1 Hc1) as (f2 & w2 & E2 & Hc2 & Hh2 & Hs2).
    exists f2, w2. split_and!; [done | done | congruence |].
    by eapply pass_step_trans.
Qed.

(** One query: its results, then its line in the search history. *)
Lemma google_query_run (cfg : Config.config) (clock : nat -> string)
    (search_google : string -> string -> list GoogleScraper.search_result)
    (found : list dict) (q : GoogleScraper.query_data) (w : world) :
  consistent (store w) ->
  GoogleScraper.platform q = "Facebook" \/ GoogleScraper.platform q = "LinkedIn" ->
  exists found' w' e,
    GoogleScraper.process_query cfg clock search_google found q w = (Ok found', w') /\
    consistent (store w') /\
    search_history (store w') = search_history (store w) ++ [e] /\
    Facts.history_of search_google q e /\
    Facts.pass_step (Facts.google_row (minimum cfg)) w found w' found'.
Proof.
  intros Hc Hp. unfold GoogleScraper.process_query. cbv zeta.
  destruct (google_results_run cfg clock (GoogleScraper.platform q)
              (GoogleScraper.category q)
              (search_google (GoogleScraper.query q) (GoogleScraper.time_filter q))
              found w Hc Hp) as (f1 & w1 & E1 & Hc1 & Hh1 & Hs1).
  rewrite (bind_ok _ _ _ _ _ E1).
  cbv [Database.add_search_history Run.bind Run.now execute ret].
  cbn [store log ticks sent].
  eexists _, _, _. split; [reflexivity|]. cbn [store insert_search_history
                                                 businesses search_history].
  split_and!.
  - by apply (consistent_businesses (store w1)).
  - by rewrite Hh1.
  - by split_and!.
  - by apply (pass_step_store _ w w1 _ found f1).
Qed.

(** The loop over the queries. *)
Lemma google_queries_run (cfg : Config.config) (clock : nat -> string)
    (search_google : string -> string -> list GoogleScraper.search_result)
    (queries : list GoogleScraper.query_data) (found : list dict) (w : world) :
  consistent (store w) ->
  Forall (fun q => GoogleScraper.platform q = "Facebook"
                   \/ GoogleScraper.platform q = "LinkedIn") queries ->
  exists found' w' hist,
    for_each queries found (GoogleScraper.process_query cfg clock search_google) w
    = (Ok found', w') /\
    consistent (store w') /\
    search_history (store w') = search_history (store w) ++ hist /\
    Forall2 (Facts.history_of search_google) queries hist /\
    Facts.pass_step (Facts.google_row (minimum cfg)) w found w' found'.
Proof.
  intros Hc Hq. revert found w Hc.
  induction Hq as [|q queries Hp Hq IH]; intros found w Hc; cbn [for_each].
  - exists found, w, []. rewrite app_nil_r. split_and!; try done.
    apply pass_step_refl.
  - destruct (google_query_run cfg clock search_google found q w Hc Hp)
      as (f1 & w1 & e & E1 & Hc1 & Hh1 & He & Hs1).
    rewrite (bind_ok _ _ _ _ _ E1).
    destruct (IH f1 w1 Hc1) as (f2 & w2 & hist & E2 & Hc2 & Hh2 & Hhist & Hs2).
    exists f2, w2, (e :: hist). split_and!; [done | done | | by constructor |].
    + by rewrite Hh2, Hh1, <- app_assoc.
    + by eapply pass_step_trans.
Qed.

Lemma flat_map_length_le {A B} (f : A -> list B) (l : list A) (n : nat) :
  (forall x, (List.length (f x) <= n)%nat) ->
  (List.length (flat_map f l) <= n * List.length l)%nat.
Proof.
  intros Hf. induction l as [|x l IH]; cbn [flat_map List.length]; [lia|].
  rewrite length_app. specialize (Hf x). lia.
Qed.

(** The list [build_search_queries] builds: Facebook and LinkedIn queries
    only, at most eighteen per category; building it only logs. *)
Lemma build_search_queries_run (cfg : Config.config) (w : world) :
  exists queries wq,
    GoogleScraper.build_search_queries cfg w = (Ok queries, wq) /\
    store wq = store w /\
    Forall (fun q => GoogleScraper.platform q = "Facebook"
                     \/ GoogleScraper.platform q = "LinkedIn") queries /\
    (List.length queries <= 18 * List.length (Config.get_keywords cfg))%nat.
Proof.
  unfold GoogleScraper.build_search_queries. cbv zeta.
  cbv [Run.bind logger ret].
  eexists _, _. split; [reflexivity|]. cbn [store]. split_and!; [done | |].
  - apply Forall_forall. intros q Hq%list_elem_of_In.
    apply in_flat_map in Hq as ([cname cdata] & _ & Hq).
    apply in_flat_map in Hq as (keyword & _ & Hq).
    apply in_flat_map in Hq as (city & _ & Hq).
    destruct Hq as [<- | [<- | []]]; cbn; auto.
  - apply flat_map_length_le. intros [cname cdata].
    change 18%nat with (6 * 3)%nat.
    etransitivity; [apply flat_map_length_le with (n := 6%nat)|].
    + intros keyword. change 6%nat with (2 * 3)%nat.
      etransitivity; [apply flat_map_length_le with (n := 2%nat)|].
      * intros city. cbn. lia.
      * unfold Text.slice_to. rewrite !length_firstn. lia.
    + unfold Text.slice_to. rewrite length_firstn. lia.
Qed.

(** The Google pass as a whole, from a consistent table. *)
Lemma google_pass_run (cfg : Config.config) (clock : nat -> string)
    (search_google : string -> string -> list GoogleScraper.search_result) (w : world) :
  consistent (store w) ->
  exists queries wq found w' hist,
    GoogleScraper.build_search_queries cfg w = (Ok queries, wq) /\
    GoogleScraper.discover_new_pages cfg clock search_google w = (Ok found, w') /\
    consistent (store w') /\
    search_history (store w') = search_history (store w) ++ hist /\
    Forall2 (Facts.history_of search_google) queries hist /\
    Facts.pass_step (Facts.google_row (minimum cfg)) w [] w' found.
Proof.
  intros Hc.
  destruct (build_search_queries_run cfg w) as (queries & wq & Eq & Hsq & Hpl & _).
  rewrite <- Hsq in Hc.
  destruct (google_queries_run cfg clock search_google queries [] wq Hc Hpl)
    as (found & w' & hist & E & Hc' & Hh & Hhist & Hs).
  exists queries, wq, found, w', hist.
  split_and!; [done | | done | by rewrite Hh, Hsq | done |].
  - unfold GoogleScraper.discover_new_pages. cbv zeta. by rewrite (bind_ok _ _ _ _ _ Eq).
  - destruct Hs as (new & rows & -> & Hb & Hr & Ho). exists new, rows. by rewrite <- Hsq.
Qed.

(** X15. From a consistent table the Google pass never raises, leaves the
    table consistent, and its return value is an exact report: the rows it
    appended to the table are, one for one and in order, the rows of the
    records it returns; no other row is added, changed or removed. *)
Theorem google_pass_report (cfg : Config.config) (clock : nat -> string)
    (search_google : string -> string -> list GoogleScraper.search_result) (w : world) :
  consistent (store w) ->
  exists found w' rows,
    GoogleScraper.discover_new_pages cfg clock search_google w = (Ok found, w') /\
    consistent (store w') /\
    businesses (store w') = businesses (store w) ++ rows /\
    Forall2 Facts.reported found rows.
Proof.
  intros Hc.
  destruct (google_pass_run cfg clock search_google w Hc)
    as (queries & wq & found & w' & hist & _ & E & Hc' & _ & _ & Hs).
  destruct Hs as (new & rows & -> & Hb & Hr & _).
  exists new, w', rows. by split_and!.
Qed.

Lemma scenario_google_eq :
  GoogleScraper.discover_new_pages Scenario.cfg_low Sample.clock Scenario.two_hits Sample.w1
  = (Ok Scenario.google_found, Scenario.w_google).
Proof. vm_cast_no_check (eq_refl (Ok Scenario.google_found, Scenario.w_google)). Qed.

Lemma google_pass_report_witness :
  (* the pass over a table that holds one page: the stored page is found
     again and skipped, the new page is stored and returned *)
  GoogleScraper.discover_new_pages Scenario.cfg_low Sample.clock Scenario.two_hits Sample.w1
  = (Ok Scenario.google_found, Scenario.w_google) /\
  map (fun sd => (sd !! "page_url", sd !! "confidence_score")) Scenario.google_found
  = [(Some (VStr "https://facebook.com/mamangozi"), Some (VInt 55))] /\
  map (fun r => (id r, page_url r)) (businesses (store Scenario.w_google))
  = [(1, "https://facebook.com/LagosBakery"); (2, "https://facebook.com/mamangozi")] /\
  consistent (store Scenario.w_google) /\
  exists rows,
    businesses (store Scenario.w_google) = businesses (store Sample.w1) ++ rows /\
    Forall2 Facts.reported Scenario.google_found rows /\
    List.length rows = 1%nat.
Proof.
  destruct (google_pass_report Scenario.cfg_low Sample.clock Scenario.two_hits Sample.w1
              sample_w1_consistent) as (found & w' & rows & E & Hc & Hb & Hrep).
  rewrite scenario_google_eq in E.
  assert (Scenario.w_google = w') as <- by exact (f_equal snd E).
  assert (Scenario.google_found = found) as <-.
  { apply (f_equal fst) in E. cbn [fst] in E. by injection E. }
  split; [exact scenario_google_eq|].
  split; [vm_compute; reflexivity|].
  split; [vm_compute; reflexivity|].
  split; [exact Hc|].
  exists rows. split_and!; [exact Hb | exact Hrep |].
  apply (f_equal (@List.length row)) in Hb. rewrite length_app in Hb.
  change (List.length (businesses (store Scenario.w_google))) with 2%nat in Hb.
  change (List.length (businesses (store Sample.w1))) with 1%nat in Hb.
  lia.
Defined.

(** X16. What the Google pass can store: every row it adds has a score
    between the configured minimum and 65 (a search result carries no phone,
    e-mail or creation date), is a Facebook or LinkedIn row, and is still to
    be alerted. With a minimum above 65 the pass therefore adds nothing and
    returns the empty list. *)
Theorem google_pass_rows (cfg : Config.config) (clock : nat -> string)
    (search_google : string -> string -> list GoogleScraper.search_result) (w : world) :
  consistent (store w) ->
  exists found w' rows,
    GoogleScraper.discover_new_pages cfg clock search_google w = (Ok found, w') /\
    businesses (store w') = businesses (store w) ++ rows /\
    Forall (Facts.google_row (minimum cfg)) rows /\
    (65 < minimum cfg -> found = [] /\ rows = []).
Proof.
  intros Hc.
  destruct (google_pass_run cfg clock search_google w Hc)
    as (queries & wq & found & w' & hist & _ & E & _ & _ & _ & Hs).
  destruct Hs as (new & rows & -> & Hb & Hr & Ho).
  exists new, w', rows. split_and!; try done.
  intros Hmin. destruct Hr as [|sd r new rows _ _]; [done|].
  apply Forall_cons in Ho as [((n & _ & Hn) & _) _]. lia.
Qed.

Lemma google_pass_rows_witness :
  (* minimum 50: the new page, scored 55, is stored *)
  (exists rows,
     businesses (store Scenario.w_google) = businesses (store Sample.w1) ++ rows /\
     Forall (Facts.google_row 50) rows /\ List.length rows = 1%nat) /\
  map (fun r => (confidence_score r, platform r, phone r, alerted r))
      (businesses (store Scenario.w_google))
  = [(VInt 0, VStr "Facebook", VStr "+2348012345678", false);
     (VInt 55, VStr "Facebook", VStr "", false)] /\
  (* minimum 70: the same search stores nothing *)
  (exists w',
     GoogleScraper.discover_new_pages Scenario.cfg_strict Sample.clock Scenario.two_hits
       Sample.w1 = (Ok [], w') /\
     businesses (store w') = businesses (store Sample.w1)).
Proof.
  destruct (google_pass_rows Scenario.cfg_low Sample.clock Scenario.two_hits Sample.w1
              sample_w1_consistent) as (found & w' & rows & E & Hb & Hok & _).
  rewrite scenario_google_eq in E.
  assert (Scenario.w_google = w') as <- by exact (f_equal snd E).
  destruct (google_pass_rows Scenario.cfg_strict Sample.clock Scenario.two_hits Sample.w1
              sample_w1_consistent) as (found2 & w2 & rows2 & E2 & Hb2 & _ & Hnone).
  destruct Hnone as [-> ->]; [vm_compute; reflexivity|].
  split_and!.
  - exists rows. split_and!; [exact Hb | exact Hok |].
    apply (f_equal (@List.length row)) in Hb. rewrite length_app in Hb.
    change (List.length (businesses (store Scenario.w_google))) with 2%nat in Hb.
    change (List.length (businesses (store Sample.w1))) with 1%nat in Hb.
    lia.
  - vm_compute. reflexivity.
  - exists w2. split; [exact E2|]. by rewrite Hb2, app_nil_r.
Defined.

(** X17. The search history of a Google pass: the pass appends one entry
    per query it built, in order, each with the query's platform and text
    and the number of results the search returned, whether or not anything
    was stored; older entries are kept. The pass builds at most eighteen
    queries per configured category, all for Facebook or LinkedIn. *)
Theorem google_pass_history (cfg : Config.config) (clock : nat -> string)
    (search_google : string -> string -> list GoogleScraper.search_result) (w : world) :
  consistent (store w) ->
  exists queries wq found w' hist,
    GoogleScraper.build_search_queries cfg w = (Ok queries, wq) /\
    GoogleScraper.discover_new_pages cfg clock search_google w = (Ok found, w') /\
    search_history (store w') = search_history (store w) ++ hist /\
    Forall2 (Facts.history_of search_google) queries hist /\
    (List.length queries <= 18 * List.length (Config.get_keywords cfg))%nat /\
    Forall (fun q => GoogleScraper.platform q = "Facebook"
                     \/ GoogleScraper.platform q = "LinkedIn") queries.
Proof.
  intros Hc.
  destruct (google_pass_run cfg clock search_google w Hc)
    as (queries & wq & found & w' & hist & Eq & E & _ & Hh & Hhist & _).
  destruct (build_search_queries_run cfg w) as (queries' & wq' & Eq' & _ & Hpl & Hlen).
  rewrite Eq in Eq'. injection Eq' as <- <-.
  exists queries, wq, found, w', hist. by split_and!.
Qed.

Lemma google_pass_history_witness :
  exists queries wq found w' hist,
    GoogleScraper.build_search_queries Sample.cfg Sample.w0 = (Ok queries, wq) /\
    GoogleScraper.discover_new_pages Sample.cfg Sample.clock Scenario.one_hit Sample.w0
    = (Ok found, w') /\
    search_history (store w') = search_history (store Sample.w0) ++ hist /\
    Forall2 (Facts.history_of Scenario.one_hit) queries hist /\
    (List.length queries <= 18 * List.length (Config.get_keywords Sample.cfg))%nat /\
    Forall (fun q => GoogleScraper.platform q = "Facebook"
                     \/ GoogleScraper.platform q = "LinkedIn") queries.
Proof.
  apply (google_pass_history Sample.cfg Sample.clock Scenario.one_hit Sample.w0).
  exact consistent_empty.
Defined.

(** ** The discovery tasks *)

(** An invariant of the world that the gated [add_business] and the
    search-history insert keep is kept by every discovery pass, however the
    pass ends. *)
Section PassInvariant.

Variable I : world -> Prop.
Variable cfg : Config.config.
Variable clock : nat -> string.

Hypothesis I_stable : stable I.
Hypothesis I_add :
  forall (bd : dict) (n : Z),
    bd !! "confidence_score" = Some (VInt n) -> minimum cfg <= n ->
    hoare I (Database.add_business clock bd) (fun _ w => I w).
Hypothesis I_history :
  forall w e, I w ->
    I (MkWorld (insert_search_history e (store w)) (log w) (Datatypes.S (ticks w)) (sent w)).

Lemma inv_gate (sd : dict) {B} (k_added : M B) (k_dup k_low : M B) :
  hoare I k_added (fun _ w => I w) ->
  hoare I k_dup (fun _ w => I w) ->
  hoare I k_low (fun _ w => I w) ->
  hoare I
    (score <- Item.item sd "confidence_score" ;;
     enough <- Item.ge_int score (minimum cfg) ;;
     if enough then
       added <- Database.add_business clock sd ;;
       if added then k_added else k_dup
     else k_low)%run
    (fun _ w => I w).
Proof.
  intros Ha Hd Hl.
  eapply hoare_bind; [apply hoare_item | | by intros e w [Hw _]].
  intros score. apply hoare_pre_pure. intros Hscore.
  eapply hoare_bind; [apply hoare_ge_int | | by intros e w [Hw _]].
  intros [|]; apply hoare_pre_pure; intros Henough; [|apply Hl].
  destruct (Henough eq_refl) as (x & -> & Hx).
  eapply hoare_bind;
    [ apply (I_add sd x (Hscore _ eq_refl) Hx)
    | intros [|]; [apply Ha | apply Hd]
    | done ].
Qed.

Lemma inv_scored_gate (self : scorer) (bd : dict) {B} (msg : string -> string)
    (b_added : dict -> B) (b_other : B) :
  hoare I
    (scored <- score_business self bd ;;
     score <- Item.item scored "confidence_score" ;;
     enough <- Item.ge_int score (minimum cfg) ;;
     if enough then
       added <- Database.add_business clock scored ;;
       if added then
         name <- Item.item scored "business_name" ;;
         logger INFO (msg (fmt name)) ;; ret (b_added scored)
       else ret b_other
     else ret b_other)%run
    (fun _ w => I w).
Proof.
  eapply hoare_bind; [by apply hoare_score_business | | by intros e w [Hw _]].
  intros sd. apply hoare_pre_pure. intros _.
  apply inv_gate; [by apply (hoare_report _ sd msg (b_added sd)) | apply hoare_ret | apply hoare_ret].
Qed.

Lemma inv_google
    (search_google : string -> string -> list GoogleScraper.search_result) :
  hoare I (GoogleScraper.discover_new_pages cfg clock search_google) (fun _ w => I w).
Proof.
  unfold GoogleScraper.discover_new_pages. cbv zeta.
  eapply hoare_bind.
  - unfold GoogleScraper.build_search_queries. cbv zeta.
    eapply hoare_bind; [by apply hoare_logger | intros ?; apply hoare_ret | done].
  - intros queries. apply hoare_for_each. intros discovered q.
    unfold GoogleScraper.process_query. cbv zeta.
    eapply hoare_bind.
    + apply hoare_for_each. intros acc r.
      unfold GoogleScraper.process_result. cbv zeta.
      eapply hoare_bind; [apply hoare_business_exists | | done].
      intros [|]; [apply hoare_ret|].
      cbn [GoogleScraper._extract_from_search_result].
      apply (inv_scored_gate _ _
               (fun name => "New " +:+ GoogleScraper.platform q
                            +:+ " page discovered via Google: " +:+ name)).
    + intros acc.
      eapply hoare_bind;
        [ apply hoare_add_search_history; exact I_history
        | intros ?; apply hoare_ret
        | done ].
    + done.
  - done.
Qed.

Lemma inv_facebook (search_pages : string -> string -> list dict) :
  hoare I (FacebookScraper.discover_new_pages cfg clock search_pages) (fun _ w => I w).
Proof.
  unfold FacebookScraper.discover_new_pages. cbv zeta.
  apply hoare_for_each. intros acc1 [category_name category_data].
  apply hoare_for_each. intros acc2 keyword.
  apply hoare_for_each. intros acc3 city.
  apply hoare_for_each. intros acc4 result.
  unfold FacebookScraper.process_result. cbv zeta.
  apply (inv_scored_gate _ _ (fun name => "New Facebook page discovered: " +:+ name)).
Qed.

Lemma inv_linkedin (get_company_details : string -> option dict)
    (url : string) (category : option string) :
  hoare I (LinkedInScraper.process_company_url cfg clock get_company_details url category)
        (fun _ w => I w).
Proof.
  unfold LinkedInScraper.process_company_url. cbv zeta.
  eapply hoare_bind; [apply hoare_business_exists | | done].
  intros [|].
  { eapply hoare_bind; [by apply hoare_logger | intros ?; apply hoare_ret | done]. }
  destruct (get_company_details url) as [bd|]; [|apply hoare_ret].
  destruct (_ || _); [apply hoare_ret|].
  apply (inv_scored_gate _ _ (fun name => "New LinkedIn company discovered: " +:+ name)).
Qed.

(** A task: log, run the pass, log; on an exception, log. *)
Lemma inv_task {A} (pass : M A) (start : string) (done_msg : A -> string) (failed : string) :
  hoare I pass (fun _ w => I w) ->
  forall w, I w ->
    let m := try_except
               (logger INFO start ;; discovered <- pass ;; logger INFO (done_msg discovered))%run
               (fun e => logger ERROR failed) in
    (m w).1 = Ok tt /\ I (m w).2.
Proof.
  intros Hpass w Hw. cbv zeta.
  set (w0 := MkWorld (store w) (log w ++ [(INFO, start)]) (ticks w) (sent w)).
  assert (I w0) as Hw0 by (apply (I_stable w); [reflexivity | exact Hw]).
  specialize (Hpass w0 Hw0).
  unfold try_except. rewrite (bind_ok (logger INFO start) _ w w0 tt eq_refl).
  unfold Run.bind.
  destruct (pass w0) as [[a|e] w1]; cbn [fst snd logger] in *.
  - split; [done|]. by apply (I_stable w1).
  - split; [done|]. by apply (I_stable w1).
Qed.

End PassInvariant.

Lemma appends_stable (ok : row -> Prop) (d0 : db) : stable (Facts.appends ok d0).
Proof. intros w w' He. unfold Facts.appends. by rewrite He. Qed.

Lemma appends_refl (ok : row -> Prop) (w : world) : Facts.appends ok (store w) w.
Proof. exists []. by rewrite app_nil_r. Qed.

Lemma appends_add_business (min_score : Z) (d0 : db) (clock : nat -> string) (bd : dict)
    (n : Z) :
  bd !! "confidence_score" = Some (VInt n) -> min_score <= n ->
  hoare (Facts.appends (Facts.fresh_lead min_score) d0) (Database.add_business clock bd)
        (fun _ w => Facts.appends (Facts.fresh_lead min_score) d0 w).
Proof.
  intros Hs Hn w (rows & Hb & Hok).
  destruct (add_business_rows clock bd w) as [He | (url & now & i & He)].
  - exists rows. by rewrite He.
  - eexists (rows ++ [_]). rewrite He, Hb, <- app_assoc. split; [reflexivity|].
    apply Forall_app. split; [done|]. constructor; [|constructor].
    unfold Facts.fresh_lead.
    cbn [Database.new_row alerted exported discovered_date last_updated hash page_url].
    split_and!; try done.
    exists n. split; [|done].
    cbn [Database.new_row confidence_score]. unfold get_or. by rewrite Hs.
Qed.

Lemma appends_history (ok : row -> Prop) (d0 : db) (w : world) (e : search_entry) :
  Facts.appends ok d0 w ->
  Facts.appends ok d0
    (MkWorld (insert_search_history e (store w)) (log w) (Datatypes.S (ticks w)) (sent w)).
Proof. by intros Hw. Qed.

Lemma consistent_stable : stable (fun w => consistent (store w)).
Proof. intros w w' He. by rewrite He. Qed.

(** X18. The three scheduled discovery tasks are safe to run on any table
    and with any search results: each returns normally even when its pass
    raises midway, the rows that were in the table stay in place unchanged,
    and every row a task appends is still to be alerted, not exported,
    carries the hash of its own URL and a score that passed the configured
    minimum. *)
Theorem discovery_tasks_safe (cfg : Config.config) (clock : nat -> string)
    (search_pages : string -> string -> list dict)
    (search_google : string -> string -> list GoogleScraper.search_result) (w : world) :
  let safe (m : M unit) :=
    (m w).1 = Ok tt /\
    Facts.appends (Facts.fresh_lead (minimum cfg)) (store w) (m w).2 in
  safe (Tasks.run_facebook_discovery cfg clock search_pages) /\
  safe (Tasks.run_linkedin_discovery) /\
  safe (Tasks.run_google_discovery cfg clock search_google).
Proof.
  cbv zeta.
  pose proof (appends_stable (Facts.fresh_lead (minimum cfg)) (store w)) as Hst.
  pose proof (appends_add_business (minimum cfg) (store w) clock) as Hadd.
  pose proof (appends_history (Facts.fresh_lead (minimum cfg)) (store w)) as Hhist.
  pose proof (appends_refl (Facts.fresh_lead (minimum cfg)) w) as Hw.
  split; [|split].
  - apply (inv_task _ Hst _ _ _ _
             (inv_facebook _ cfg clock Hst Hadd search_pages) w Hw).
  - refine (inv_task _ Hst _ _ _ _ _ w Hw).
    unfold LinkedInScraper.discover_new_companies. cbv zeta.
    eapply hoare_bind; [by apply hoare_logger | | done]. intros ?.
    eapply hoare_bind; [by apply hoare_logger | intros ?; apply hoare_ret | done].
  - apply (inv_task _ Hst _ _ _ _
             (inv_google _ cfg clock Hst Hadd Hhist search_google)
             w Hw).
Qed.

(** X19. The discovery tasks keep the deduplication invariant: run on a
    table in which every row carries the hash of its URL and no hash occurs
    twice, each task leaves such a table, however its pass ends. *)
Theorem discovery_tasks_consistent (cfg : Config.config) (clock : nat -> string)
    (search_pages : string -> string -> list dict)
    (search_google : string -> string -> list GoogleScraper.search_result) (w : world) :
  consistent (store w) ->
  consistent (store (Tasks.run_facebook_discovery cfg clock search_pages w).2) /\
  consistent (store (Tasks.run_linkedin_discovery w).2) /\
  consistent (store (Tasks.run_google_discovery cfg clock search_google w).2) /\
  one_record_per_identity
    (store (Tasks.run_google_discovery cfg clock search_google
              (Tasks.run_facebook_discovery cfg clock search_pages w).2).2).
Proof.
  intros Hw.
  pose proof consistent_stable as Hst.
  assert (forall (bd : dict) (n : Z),
             bd !! "confidence_score" = Some (VInt n) -> minimum cfg <= n ->
             hoare (fun w => consistent (store w)) (Database.add_business clock bd)
                   (fun _ w => consistent (store w))) as Hadd.
  { intros bd n _ _ w0 Hw0. by apply consistent_add_business. }
  assert (forall w e, consistent (store w) ->
             consistent (store (MkWorld (insert_search_history e (store w)) (log w)
                                        (Datatypes.S (ticks w)) (sent w)))) as Hhist.
  { by intros w0 e Hw0. }
  assert (forall w0, consistent (store w0) ->
            consistent (store (Tasks.run_facebook_discovery cfg clock search_pages w0).2))
    as Hfb.
  { intros w0 Hw0.
    refine (proj2 (inv_task _ Hst _ _ _ _
             (inv_facebook _ cfg clock Hst Hadd search_pages) w0 Hw0)). }
  assert (forall w0, consistent (store w0) ->
            consistent (store (Tasks.run_google_discovery cfg clock search_google w0).2))
    as Hgo.
  { intros w0 Hw0.
    refine (proj2 (inv_task _ Hst _ _ _ _
             (inv_google _ cfg clock Hst Hadd Hhist search_google)
             w0 Hw0)). }
  split_and!.
  - by apply Hfb.
  - refine (proj2 (inv_task (fun w => consistent (store w)) Hst _ _ _ _ _ w Hw)).
    unfold LinkedInScraper.discover_new_companies. cbv zeta.
    eapply hoare_bind; [by apply hoare_logger | | done]. intros ?.
    eapply hoare_bind; [by apply hoare_logger | intros ?; apply hoare_ret | done].
  - by apply Hgo.
  - apply consistent_one_record. by apply Hgo, Hfb.
Qed.

Lemma discovery_tasks_consistent_witness :
  consistent (store (Tasks.run_facebook_discovery Sample.cfg Sample.clock Sample.two_leads
                       Sample.w1).2) /\
  consistent (store (Tasks.run_linkedin_discovery Sample.w1).2) /\
  consistent (store (Tasks.run_google_discovery Sample.cfg Sample.clock Scenario.one_hit
                       Sample.w1).2) /\
  one_record_per_identity
    (store (Tasks.run_google_discovery Sample.cfg Sample.clock Scenario.one_hit
              (Tasks.run_facebook_discovery Sample.cfg Sample.clock Sample.two_leads
                 Sample.w1).2).2).
Proof.
  apply (discovery_tasks_consistent Sample.cfg Sample.clock Sample.two_leads
           Scenario.one_hit Sample.w1).
  exact sample_w1_consistent.
Defined.

(** ** What a pass reports *)

Lemma bind_raise {A B} (m : M A) (k : A -> M B) (w w1 : world) (e : exn) :
  m w = (Raise e, w1) -> Run.bind m k w = (Raise e, w1).
Proof. intros H. unfold Run.bind. by rewrite H. Qed.

(** A relation between the state before and after that every turn of a
    loop establishes holds for the loop, when the loop returns. *)
Lemma for_each_step {A B} (R : world -> B -> world -> B -> Prop) (body : B -> A -> M B) :
  (forall w acc, R w acc w acc) ->
  (forall w1 a1 w2 a2 w3 a3, R w1 a1 w2 a2 -> R w2 a2 w3 a3 -> R w1 a1 w3 a3) ->
  (forall acc x w acc' w', body acc x w = (Ok acc', w') -> R w acc w' acc') ->
  forall l acc w acc' w', for_each l acc body w = (Ok acc', w') -> R w acc w' acc'.
Proof.
  intros Hrefl Htrans Hbody. induction l as [|x l IH]; intros acc w acc' w'; cbn [for_each].
  - intros [= <- <-]. apply Hrefl.
  - destruct (body acc x w) as [[a1|e] w1] eqn:E1.
    + rewrite (bind_ok _ _ _ _ _ E1). intros E2.
      eapply Htrans; [by eapply Hbody | by eapply IH].
    + by rewrite (bind_raise _ _ _ _ _ E1).
Qed.

Lemma loop_step_refl (ok : row -> Prop) (w : world) (found : list dict) :
  Facts.loop_step ok w found w found.
Proof. split; [apply pass_step_refl | done]. Qed.

Lemma loop_step_trans (ok : row -> Prop) (w1 : world) (f1 : list dict) (w2 : world)
    (f2 : list dict) (w3 : world) (f3 : list dict) :
  Facts.loop_step ok w1 f1 w2 f2 -> Facts.loop_step ok w2 f2 w3 f3 ->
  Facts.loop_step ok w1 f1 w3 f3.
Proof.
  intros [H1 Hh1] [H2 Hh2]. split; [by eapply pass_step_trans | congruence].
Qed.

Lemma insert_business_not_null (r : Z -> row) (d d' : db) :
  insert_business r d = Ok d' -> business_name (r (next_id (businesses d))) <> VNone.
Proof.
  unfold insert_business.
  destruct (negb (forallb _ _)); [discriminate|].
  destruct (not_null (business_name _)) eqn:En; [|discriminate].
  intros _ Hn. by rewrite Hn in En.
Qed.

(** The ways [add_business] can end, seen from the table. *)
Lemma add_business_outcome (clock : nat -> string) (bd : dict) (w : world)
    (r : result bool) (w' : world) :
  Database.add_business clock bd w = (r, w') ->
  search_history (store w') = search_history (store w) /\
  match r with
  | Ok true =>
      exists row, businesses (store w') = businesses (store w) ++ [row] /\
                  Facts.reported bd row /\ alerted row = false /\ exported row = false /\
                  discovered_date row = last_updated row /\
                  hash row = Database.generate_hash (page_url row) /\
                  confidence_score row = get_or bd "confidence_score" (VInt 0) /\
                  get bd "business_name" <> VNone
  | _ => businesses (store w') = businesses (store w)
  end.
Proof.
  destruct (get bd "page_url") as [| | url | |] eqn:Hu;
    try (rewrite add_business_not_str by (intros ?; congruence); by intros [= <- <-]).
  destruct (count_hash (Database.generate_hash url) (store w) >? 0) eqn:E.
  - rewrite (add_business_duplicate _ _ _ _ Hu E). by intros [= <- <-].
  - rewrite (add_business_fresh _ _ _ _ Hu E).
    destruct (insert_business _ _) as [d'|e] eqn:Ei; intros [= <- <-]; cbn [store]; [|done].
    pose proof (insert_business_not_null _ _ _ Ei) as Hn.
    apply insert_business_ok in Ei as [-> _]. cbn [businesses search_history].
    split; [done|]. eexists. split; [reflexivity|].
    split_and!; try done.
    exists url, (clock (ticks w)). by split.
Qed.

(** What the three sources do with a record, seen from the table: a row
    is appended exactly when the record is handed on as stored. *)
Lemma scored_gate_outcome (min_score : Z) (clock : nat -> string) (self : scorer)
    (bd : dict) {B} (msg : string -> string) (b_added : dict -> B) (b_other : B)
    (w : world) (r : result B) (w' : world) :
  (scored <- score_business self bd ;;
   score <- Item.item scored "confidence_score" ;;
   enough <- Item.ge_int score min_score ;;
   if enough then
     added <- Database.add_business clock scored ;;
     if added then
       name <- Item.item scored "business_name" ;;
       logger INFO (msg (fmt name)) ;; ret (b_added scored)
     else ret b_other
   else ret b_other)%run w = (r, w') ->
  search_history (store w') = search_history (store w) /\
  ((exists sd row,
      r = Ok (b_added sd) /\ businesses (store w') = businesses (store w) ++ [row] /\
      Facts.reported sd row /\ Facts.fresh_lead min_score row) \/
   ((r = Ok b_other \/ exists e, r = Raise e) /\
    businesses (store w') = businesses (store w))).
Proof.
  destruct (score_business self bd w) as [[sd|e] w1] eqn:Es.
  2: { rewrite (bind_raise _ _ _ _ _ Es). intros [= <- <-].
       apply score_business_raise in Es as ->. split; [done|]. right. eauto. }
  rewrite (bind_ok _ _ _ _ _ Es).
  apply score_business_inv in Es as (score & priority & signals & _ & Hsd & Hs1 & _).
  assert (sd !! "confidence_score" = Some (VInt (Z.min score 100))) as Hsc.
  { rewrite Hsd. rewrite lookup_insert_ne by done. rewrite lookup_insert_ne by done.
    by rewrite lookup_insert_eq. }
  clear Hsd. unfold Item.item at 1. rewrite Hsc.
  unfold Run.bind at 1. cbn [ret]. unfold Run.bind at 1. cbn [Item.ge_int ret].
  destruct (Z.min score 100 >=? min_score) eqn:Ege.
  2: { intros [= <- <-]. rewrite Hs1. split; [done|]. right. eauto. }
  destruct (Database.add_business clock sd w1) as [[[|]|e] w2] eqn:Ea;
    [ rewrite (bind_ok _ _ _ _ _ Ea) | rewrite (bind_ok _ _ _ _ _ Ea)
    | rewrite (bind_raise _ _ _ _ _ Ea) ];
    apply add_business_outcome in Ea as [Hh Hb]; rewrite Hs1 in Hh, Hb.
  - destruct Hb as (row & Hb & Hrep & Hal & Hex & Hdates & Hhash & Hscore & Hname).
    unfold Item.item. unfold get in Hname.
    destruct (sd !! "business_name") as [name|]; [|done].
    cbv [Run.bind ret logger]. intros [= <- <-]. cbn [store]. split; [done|].
    left. exists sd, row. unfold Facts.fresh_lead, meets. split_and!; try done.
    exists (Z.min score 100). split; [|lia].
    rewrite Hscore. unfold get_or. by rewrite Hsc.
  - intros [= <- <-]. split; [done|]. right. eauto.
  - intros [= <- <-]. split; [done|]. right. eauto.
Qed.

(** One candidate of the Facebook pass. *)
Lemma facebook_result_step (cfg : Config.config) (clock : nat -> string)
    (category_name : string) (found : list dict) (result : dict) (w : world)
    (found' : list dict) (w' : world) :
  FacebookScraper.process_result cfg clock category_name found result w = (Ok found', w') ->
  Facts.loop_step (Facts.fresh_lead (minimum cfg)) w found w' found'.
Proof.
  unfold FacebookScraper.process_result. cbv zeta.
  intros H.
  apply (scored_gate_outcome (minimum cfg) clock _ _
           (fun name => "New Facebook page discovered: " +:+ name)
           (fun sd => found ++ [sd]) found) in H
    as [Hh [(sd & row & [= ->] & Hb & Hrep & Hok) | [[[= ->] | [e [=]]] Hb]]].
  - split; [|done]. exists [sd], [row].
    split_and!; [done | done | by constructor; [|constructor] | by constructor; [|constructor]].
  - split; [|done]. exists [], []. rewrite !app_nil_r. by split_and!.
Qed.

(** X20. The return value of the Facebook pass is an exact report: when
    the pass returns, the rows it appended to the table are, one for one and
    in order, the rows of the records in the returned list; each is still to
    be alerted and carries a score that passed the minimum; the rows that
    were there and the search history are untouched. *)
Theorem facebook_pass_report (cfg : Config.config) (clock : nat -> string)
    (search_pages : string -> string -> list dict) (w : world)
    (found : list dict) (w' : world) :
  FacebookScraper.discover_new_pages cfg clock search_pages w = (Ok found, w') ->
  (exists rows,
     businesses (store w') = businesses (store w) ++ rows /\
     Forall2 Facts.reported found rows /\
     Forall (Facts.fresh_lead (minimum cfg)) rows) /\
  search_history (store w') = search_history (store w).
Proof.
  unfold FacebookScraper.discover_new_pages. cbv zeta. intros H.
  assert (Facts.loop_step (Facts.fresh_lead (minimum cfg)) w [] w' found)
    as [(new & rows & Hf & Hb & Hrep & Hok) Hh].
  { revert H.
    apply (for_each_step (Facts.loop_step (Facts.fresh_lead (minimum cfg))));
      [apply loop_step_refl | apply loop_step_trans |].
    intros acc1 [category_name category_data] w1 acc1' w1'.
    apply (for_each_step (Facts.loop_step (Facts.fresh_lead (minimum cfg))));
      [apply loop_step_refl | apply loop_step_trans |].
    intros acc2 keyword w2 acc2' w2'.
    apply (for_each_step (Facts.loop_step (Facts.fresh_lead (minimum cfg))));
      [apply loop_step_refl | apply loop_step_trans |].
    intros acc3 city w3 acc3' w3'.
    apply (for_each_step (Facts.loop_step (Facts.fresh_lead (minimum cfg))));
      [apply loop_step_refl | apply loop_step_trans |].
    intros acc4 result w4 acc4' w4'. apply facebook_result_step. }
  cbn [app] in Hf. subst new. split; [|done]. by exists rows.
Qed.

Lemma facebook_pass_report_witness :
  (exists rows,
     businesses (store Sample.w_two_leads) = businesses (store Sample.w0) ++ rows /\
     Forall2 Facts.reported Scenario.two_leads_found rows /\
     Forall (Facts.fresh_lead (minimum Sample.cfg)) rows) /\
  search_history (store Sample.w_two_leads) = search_history (store Sample.w0).
Proof.
  apply (facebook_pass_report Sample.cfg Sample.clock Sample.two_leads Sample.w0
           Scenario.two_leads_found Sample.w_two_leads).
  vm_cast_no_check (eq_refl (Ok Scenario.two_leads_found, Sample.w_two_leads)).
Defined.

(** X21. [process_company_url] reports exactly what it stored: it returns
    a record precisely when it appended that record's row (unalerted, with a
    score that passed the minimum) to the table; when it returns [None] or
    raises, the table is as it was. The search history is never touched. *)
Theorem linkedin_report (cfg : Config.config) (clock : nat -> string)
    (get_company_details : string -> option dict) (url : string)
    (category : option string) (w : world) :
  let m := LinkedInScraper.process_company_url cfg clock get_company_details url category in
  search_history (store (m w).2) = search_history (store w) /\
  match (m w).1 with
  | Ok (Some sd) =>
      exists row, businesses (store (m w).2) = businesses (store w) ++ [row] /\
                  Facts.reported sd row /\ Facts.fresh_lead (minimum cfg) row
  | _ => businesses (store (m w).2) = businesses (store w)
  end.
Proof.
  cbv zeta. unfold LinkedInScraper.process_company_url. cbv zeta.
  rewrite (bind_ok _ _ _ _ _ (business_exists_eq url w)).
  destruct (count_hash _ _ >? 0); [by cbv [Run.bind logger ret]|].
  destruct (get_company_details url) as [bd|]; [|done].
  destruct (_ || _); [done|].
  match goal with
  | |- context [Run.bind (score_business ?self ?bd') ?k w] =>
      destruct (Run.bind (score_business self bd') k w) as [r w'] eqn:E
  end.
  apply (scored_gate_outcome (minimum cfg) clock _ _
           (fun name => "New LinkedIn company discovered: " +:+ name)
           (fun sd => Some sd) None) in E
    as [Hh [(sd & row & -> & Hb & Hrep & Hok) | [[-> | [e ->]] Hb]]];
    cbn [fst snd]; split; try done.
  by exists row.
Qed.

Lemma for_each_skip {A B} (body : B -> A -> M B) (l : list A) (acc : B) (w : world) :
  (forall acc x w, body acc x w = (Ok acc, w)) -> for_each l acc body w = (Ok acc, w).
Proof.
  intros Hbody. induction l as [|x l IH]; cbn [for_each]; [done|].
  by rewrite (bind_ok _ _ _ _ _ (Hbody acc x w)).
Qed.

(** X22. A page search that yields no candidates, as the shipped
    [_search_by_category] does for every query, makes the Facebook pass a
    no-op: it returns the empty list, and the Facebook task returns normally
    with the database, the clock and the outbox as they were. *)
Theorem facebook_without_candidates (cfg : Config.config) (clock : nat -> string)
    (search_pages : string -> string -> list dict) (w : world) :
  (forall query location, search_pages query location = []) ->
  (FacebookScraper.discover_new_pages cfg clock search_pages w).1 = Ok [] /\
  let w' := (Tasks.run_facebook_discovery cfg clock search_pages w).2 in
  (Tasks.run_facebook_discovery cfg clock search_pages w).1 = Ok tt /\
  store w' = store w /\ ticks w' = ticks w /\ sent w' = sent w.
Proof.
  intros Hnone.
  assert (forall w0, FacebookScraper.discover_new_pages cfg clock search_pages w0
                     = (Ok [], w0)) as Hpass.
  { intros w0. unfold FacebookScraper.discover_new_pages. cbv zeta.
    apply for_each_skip. intros acc1 [category_name category_data] w1.
    apply for_each_skip. intros acc2 keyword w2.
    apply for_each_skip. intros acc3 city w3.
    by rewrite Hnone. }
  split; [by rewrite Hpass|]. cbv zeta.
  unfold Tasks.run_facebook_discovery, try_except.
  rewrite (bind_ok (logger INFO "Running Facebook discovery task...") _ w _ tt eq_refl).
  rewrite (bind_ok _ _ _ _ _ (Hpass _)). by cbn [logger fst snd store ticks sent].
Qed.

Lemma facebook_without_candidates_witness :
  (FacebookScraper.discover_new_pages Sample.cfg Sample.clock
     FacebookScraper._search_by_category Sample.w1).1 = Ok [] /\
  let w' := (Tasks.run_facebook_discovery Sample.cfg Sample.clock
               FacebookScraper._search_by_category Sample.w1).2 in
  (Tasks.run_facebook_discovery Sample.cfg Sample.clock
     FacebookScraper._search_by_category Sample.w1).1 = Ok tt /\
  store w' = store Sample.w1 /\ ticks w' = ticks Sample.w1 /\ sent w' = sent Sample.w1.
Proof.
  apply (facebook_without_candidates Sample.cfg Sample.clock
           FacebookScraper._search_by_category Sample.w1).
  reflexivity.
Defined.

(** ** The settings tree *)

Lemma split_nonempty (sep : ascii) (s : string) : ConfigManager.split sep s <> [].
Proof.
  destruct s as [|c s]; cbn [ConfigManager.split]; [done|].
  destruct (Ascii.eqb c sep); [done|]. by destruct (ConfigManager.split sep s).
Qed.

(** Splitting at a separator that joins two strings splits both. *)
Lemma split_app (sep : ascii) (p q : string) :
  ConfigManager.split sep (p +:+ String sep q)
  = ConfigManager.split sep p ++ ConfigManager.split sep q.
Proof.
  induction p as [|c p IH].
  - change (ConfigManager.split sep (String sep q) = [EmptyString] ++ ConfigManager.split sep q).
    cbn [ConfigManager.split]. by rewrite Ascii.eqb_refl.
  - change (String c p +:+ String sep q) with (String c (p +:+ String sep q)).
    cbn [ConfigManager.split].
    destruct (Ascii.eqb c sep); rewrite IH; [done|].
    pose proof (split_nonempty sep p).
    by destruct (ConfigManager.split sep p).
Qed.

Lemma walk_descend (keys : list string) (value dflt : ConfigManager.yaml) :
  ConfigManager.walk keys value dflt = default dflt (ConfigManager.descend keys value).
Proof.
  revert value. induction keys as [|key keys IH]; intros value;
    cbn [ConfigManager.walk ConfigManager.descend]; [done|].
  destruct value; try done. by destruct (ConfigManager.lookup key entries).
Qed.

Lemma descend_app (keys1 keys2 : list string) (value : ConfigManager.yaml) :
  ConfigManager.descend (keys1 ++ keys2) value
  = ConfigManager.descend keys1 value ≫= ConfigManager.descend keys2.
Proof.
  revert value. induction keys1 as [|key keys1 IH]; intros value;
    cbn [app ConfigManager.descend]; [done|].
  destruct value; try done. by destruct (ConfigManager.lookup key entries).
Qed.

(** X23. [get] follows a dotted path one mapping at a time: it returns the
    default exactly when some key of the path is missing or is looked up in
    something that is not a mapping, and a path [p.q] is resolved by
    resolving [p] and then resolving [q] in the value found there. *)
Theorem get_follows_path (settings : ConfigManager.yaml) (p q : string)
    (dflt : ConfigManager.yaml) :
  ConfigManager.get settings p dflt
  = default dflt (ConfigManager.descend (ConfigManager.split "." p) settings) /\
  ConfigManager.get settings (p +:+ "." +:+ q) dflt
  = match ConfigManager.descend (ConfigManager.split "." p) settings with
    | Some sub => ConfigManager.get sub q dflt
    | None => dflt
    end.
Proof.
  unfold ConfigManager.get. cbv zeta. split; [apply walk_descend|].
  change ("." +:+ q) with (String "." q).
  rewrite split_app, !walk_descend, descend_app.
  destruct (ConfigManager.descend (ConfigManager.split "." p) settings) as [sub|]; [|done].
  cbn [mbind option_bind]. by rewrite walk_descend.
Qed.

(** X24. [is_enabled] against [get]: for a feature name without a dot,
    whenever [is_enabled] returns, it returns what
    [get('scheduler.enable_<feature>', False)] returns; but where [get]
    falls back to its default, [is_enabled] raises AttributeError: when the
    settings are not a mapping (an empty settings.yaml loads as [None]) or
    the [scheduler] entry is there but is not a mapping. *)
Theorem is_enabled_vs_get (settings : ConfigManager.yaml) (feature : string) :
  ConfigManager.split "." feature = [feature] ->
  match ConfigManager.is_enabled settings feature with
  | Ok v =>
      ConfigManager.get settings ("scheduler.enable_" +:+ feature)
                        (ConfigManager.YBool false) = v
  | Raise e =>
      e = AttributeError /\
      ConfigManager.get settings ("scheduler.enable_" +:+ feature)
                        (ConfigManager.YBool false) = ConfigManager.YBool false /\
      ((forall entries, settings <> ConfigManager.YMap entries) \/
       exists v, ConfigManager.descend ["scheduler"] settings = Some v /\
                 forall entries, v <> ConfigManager.YMap entries)
  end.
Proof.
  intros Hf.
  assert (ConfigManager.split "." ("scheduler.enable_" +:+ feature)
          = ["scheduler"; "enable_" +:+ feature]) as Hs.
  { change ("scheduler.enable_" +:+ feature)
      with ("scheduler" +:+ String "." ("enable_" +:+ feature)).
    rewrite split_app.
    change (ConfigManager.split "." "scheduler") with ["scheduler"].
    assert (forall pre, ConfigManager.split "." (pre +:+ feature) = [pre +:+ feature]
                        \/ ConfigManager.split "." pre <> [pre]) as Hpre.
    { induction pre as [|c pre IHpre]; [by left|].
      change (String c pre +:+ feature) with (String c (pre +:+ feature)).
      cbn [ConfigManager.split].
      destruct (Ascii.eqb c "."); [by right|].
      destruct IHpre as [-> | Hne]; [by left | right].
      pose proof (split_nonempty "." pre).
      destruct (ConfigManager.split "." pre) as [|h t]; [done|].
      intros [= -> ->]. by apply Hne. }
    destruct (Hpre "enable_") as [-> | Hne]; [done | by destruct Hne]. }
  unfold ConfigManager.get. cbv zeta. rewrite Hs.
  unfold ConfigManager.is_enabled, ConfigManager.dict_get.
  cbn [ConfigManager.walk ConfigManager.descend].
  destruct settings as [| | | | |entries]; cbn [Py.bind];
    try (split_and!; [done | done | left; by intros ?]).
  destruct (ConfigManager.lookup "scheduler" entries) as [[| | | | |sub]|]; cbn [Py.bind];
    try (split_and!; [done | done | right; eexists; split; [done | by intros ?]]).
  - by destruct (ConfigManager.lookup _ sub).
  - done.
Qed.

Lemma is_enabled_vs_get_witness :
  ConfigManager.get Scenario.settings ("scheduler.enable_" +:+ "facebook")
                    (ConfigManager.YBool false) = ConfigManager.YBool true /\
  match ConfigManager.is_enabled Scenario.settings_bare_scheduler "facebook" with
  | Ok v =>
      ConfigManager.get Scenario.settings_bare_scheduler ("scheduler.enable_" +:+ "facebook")
                        (ConfigManager.YBool false) = v
  | Raise e =>
      e = AttributeError /\
      ConfigManager.get Scenario.settings_bare_scheduler ("scheduler.enable_" +:+ "facebook")
                        (ConfigManager.YBool false) = ConfigManager.YBool false /\
      ((forall entries, Scenario.settings_bare_scheduler <> ConfigManager.YMap entries) \/
       exists v, ConfigManager.descend ["scheduler"] Scenario.settings_bare_scheduler = Some v /\
                 forall entries, v <> ConfigManager.YMap entries)
  end.
Proof.
  split.
  - apply (is_enabled_vs_get Scenario.settings "facebook"). reflexivity.
  - apply (is_enabled_vs_get Scenario.settings_bare_scheduler "facebook"). reflexivity.
Defined.

(** ** The recent list *)

Lemma matches_passes (filter : option string) (column : value) :
  Recent.matches filter column = true <-> Facts.passes filter column.
Proof.
  unfold Recent.matches, Facts.passes. destruct filter as [p|]; [|done].
  destruct p as [|c p]; cbn [truthy]; [by split; auto|].
  destruct column as [|n|s| |]; split; try done.
  - by intros [?|[?|(? & ? & ?)]].
  - intros H%String.eqb_eq. right. right. by exists n.
  - intros [?|[?|(n' & [= <-] & ->)]]; [done | done | apply String.eqb_refl].
  - intros ->%String.eqb_eq. right. by left.
  - intros [?|[[= ->]|(? & ? & ?)]]; [done | apply String.eqb_refl | done].
  - by intros [?|[?|(? & ? & ?)]].
  - by intros [?|[?|(? & ? & ?)]].
Qed.

Lemma string_not_lt_trans (a b c : string) :
  String.compare a b <> Lt -> String.compare b c <> Lt -> String.compare a c <> Lt.
Proof.
  intros Hab Hbc Hac.
  destruct (String.compare b c) eqn:E; [|done|].
  - apply String.compare_eq_iff in E as ->. done.
  - apply Hab. apply OrderedTypeEx.String_as_OT.cmp_lt.
    apply OrderedTypeEx.String_as_OT.lt_trans with c.
    + by apply OrderedTypeEx.String_as_OT.cmp_lt.
    + apply OrderedTypeEx.String_as_OT.cmp_lt.
      unfold OrderedTypeEx.String_as_OT.cmp. rewrite String.compare_antisym, E. done.
Qed.

Lemma not_older_trans (a b c : row) :
  Facts.not_older a b -> Facts.not_older b c -> Facts.not_older a c.
Proof. apply string_not_lt_trans. Qed.

Lemma newer_true (y x : row) : Recent.newer y x = true -> Facts.not_older y x.
Proof.
  unfold Recent.newer, Facts.not_older. by destruct (String.compare _ _).
Qed.

Lemma newer_false (y x : row) : Recent.newer y x = false -> Facts.not_older x y.
Proof.
  unfold Recent.newer, Facts.not_older.
  rewrite (String.compare_antisym (discovered_date x) (discovered_date y)).
  by destruct (String.compare (discovered_date y) (discovered_date x)).
Qed.

Lemma insert_by_date_perm (x : row) (l : list row) : Recent.insert_by_date x l ≡ₚ x :: l.
Proof.
  induction l as [|y l IH]; cbn [Recent.insert_by_date]; [done|].
  destruct (Recent.newer y x); [|done]. rewrite IH. apply Permutation_swap.
Qed.

Lemma by_insertion_perm (l : list row) : Recent.by_insertion l ≡ₚ l.
Proof.
  unfold Recent.by_insertion. induction l as [|x l IH]; cbn [fold_right]; [done|].
  by rewrite insert_by_date_perm, IH.
Qed.

Lemma insert_by_date_sorted (x : row) (l : list row) :
  StronglySorted Facts.not_older l ->
  StronglySorted Facts.not_older (Recent.insert_by_date x l).
Proof.
  induction l as [|y l IH]; cbn [Recent.insert_by_date]; intros Hs.
  - repeat constructor.
  - apply StronglySorted_inv in Hs as [Hs Hall].
    destruct (Recent.newer y x) eqn:E.
    + constructor; [by apply IH|].
      rewrite insert_by_date_perm. constructor; [by apply newer_true | done].
    + constructor; [by constructor|].
      apply newer_false in E. constructor; [done|].
      eapply Forall_impl; [exact Hall|]. intros z Hz. by eapply not_older_trans.
Qed.

Lemma by_insertion_sorted (l : list row) :
  StronglySorted Facts.not_older (Recent.by_insertion l).
Proof.
  unfold Recent.by_insertion. induction l as [|x l IH]; cbn [fold_right]; [constructor|].
  by apply insert_by_date_sorted.
Qed.

Lemma firstn_elem {A} (n : nat) (l : list A) (x : A) : x ∈ firstn n l -> x ∈ l.
Proof.
  revert n. induction l as [|y l IH]; intros [|n]; cbn [firstn];
    try (by intros ?%elem_of_nil).
  intros [-> | Hx]%elem_of_cons; [by left | right; by apply (IH n)].
Qed.

Lemma firstn_sorted {A} (R : A -> A -> Prop) (n : nat) (l : list A) :
  StronglySorted R l -> StronglySorted R (firstn n l).
Proof.
  revert n. induction l as [|x l IH]; intros [|n] Hs; cbn [firstn]; try constructor.
  - apply StronglySorted_inv in Hs as [Hs _]. by apply IH.
  - apply StronglySorted_inv in Hs as [_ Hall].
    apply Forall_forall. intros y Hy. rewrite Forall_forall in Hall. apply Hall.
    by apply (firstn_elem n).
Qed.

(** In a sorted list, what [firstn] leaves out comes after what it keeps. *)
Lemma firstn_top {A} (R : A -> A -> Prop) (n : nat) (l : list A) (x r : A) :
  StronglySorted R l -> x ∈ firstn n l -> r ∈ l -> r ∉ firstn n l -> R x r.
Proof.
  revert n. induction l as [|y l IH]; intros [|n] Hs; cbn [firstn];
    try (by intros ?%elem_of_nil).
  apply StronglySorted_inv in Hs as [Hs Hall]. rewrite Forall_forall in Hall.
  intros Hx Hr Hnr.
  apply elem_of_cons in Hr as [-> | Hr]; [by destruct Hnr; left|].
  apply elem_of_cons in Hx as [-> | Hx]; [by apply Hall|].
  apply (IH n); [done | done | done |]. intros Hin. apply Hnr. by right.
Qed.

Lemma by_insertion_order : Facts.date_order Recent.by_insertion.
Proof. intros l. split; [apply by_insertion_perm | apply by_insertion_sorted]. Qed.

(** X25. What [get_recent_businesses] returns, whatever order the engine
    gives to rows with equal dates. A limit that does not fit in 64 bits
    raises OverflowError and changes nothing. Otherwise the call returns,
    without changing anything, rows of the table that pass both filters (a
    filter that is [None] or the empty string lets every row pass), no row
    more often than the table has it, newest first; exactly
    min(limit, number of passing rows) of them when the limit is not
    negative and all of them when it is; and a passing row that is left out
    is not newer than any row returned. *)
Theorem recent_businesses (order_by_date : list row -> list row) (limit : Z)
    (platform category : option string) (w : world) :
  Facts.date_order order_by_date ->
  let passing :=
    List.filter (fun r => Recent.matches platform (Sqlite.platform r)
                          && Recent.matches category (Sqlite.category r))
                (businesses (store w)) in
  (int64 limit = false ->
   Recent.get_recent_businesses order_by_date limit platform category w
   = (Raise OverflowError, w)) /\
  (int64 limit = true ->
   exists l,
     Recent.get_recent_businesses order_by_date limit platform category w = (Ok l, w) /\
     (forall r, r ∈ l ->
        r ∈ businesses (store w) /\
        Facts.passes platform (Sqlite.platform r) /\
        Facts.passes category (Sqlite.category r)) /\
     l ⊆+ passing /\
     StronglySorted Facts.not_older l /\
     Text.len l = (if limit <? 0 then Text.len passing
                   else Z.min limit (Text.len passing)) /\
     (forall r x,
        r ∈ businesses (store w) ->
        Facts.passes platform (Sqlite.platform r) ->
        Facts.passes category (Sqlite.category r) ->
        r ∉ l -> x ∈ l -> Facts.not_older x r)).
Proof.
  intros Horder. cbv zeta.
  unfold Recent.get_recent_businesses.
  split; [by intros -> | intros ->].
  exists (Recent.select_recent order_by_date limit platform category (store w)).
  split; [reflexivity|].
  unfold Recent.select_recent.
  set (flt := List.filter _ (businesses (store w))).
  destruct (Horder flt) as [Hperm Hsorted].
  assert (forall r, r ∈ flt <->
            r ∈ businesses (store w) /\ Facts.passes platform (Sqlite.platform r)
            /\ Facts.passes category (Sqlite.category r)) as Hflt.
  { intros r. unfold flt. rewrite list_elem_of_In, filter_In, andb_true_iff.
    by rewrite <- list_elem_of_In, !matches_passes. }
  assert (forall r, r ∈ Recent.limit_to limit (order_by_date flt) ->
            r ∈ order_by_date flt) as Hsub.
  { intros r. unfold Recent.limit_to. destruct (limit <? 0); [done|].
    apply firstn_elem. }
  split_and!.
  - intros r Hr%Hsub. apply Hflt. by rewrite <- Hperm.
  - trans (order_by_date flt); [|by apply Permutation_submseteq].
    unfold Recent.limit_to. destruct (limit <? 0); [done|].
    apply sublist_submseteq, sublist_take.
  - unfold Recent.limit_to. destruct (limit <? 0); [done|]. by apply firstn_sorted.
  - unfold Recent.limit_to, Text.len.
    pose proof (Permutation_length Hperm) as Hlen.
    destruct (limit <? 0) eqn:E; [by rewrite Hlen|].
    apply Z.ltb_ge in E. rewrite length_firstn, Hlen. lia.
  - intros r x Hr Hp Hc Hnr Hx.
    assert (r ∈ order_by_date flt) as Hr'.
    { rewrite Hperm. by apply Hflt. }
    revert Hnr Hx. unfold Recent.limit_to. destruct (limit <? 0); [done|].
    intros Hnr Hx. by apply (firstn_top _ (Z.to_nat limit) (order_by_date flt)).
Qed.

Lemma recent_businesses_witness :
  (* a limit that does not fit *)
  Recent.get_recent_businesses Recent.by_insertion (2 ^ 63) None None Scenario.w3
  = (Raise OverflowError, Scenario.w3) /\
  (* the two newest of the three Facebook rows *)
  Recent.get_recent_businesses Recent.by_insertion 2 (Some "Facebook") None Scenario.w3
  = (Ok Scenario.newest_two, Scenario.w3) /\
  map id (businesses (store Scenario.w3)) = [1; 2; 3] /\
  map id Scenario.newest_two = [3; 2] /\
  Text.len Scenario.newest_two = 2.
Proof.
  destruct (recent_businesses Recent.by_insertion (2 ^ 63) None None Scenario.w3
              by_insertion_order) as [Hbig _].
  destruct (recent_businesses Recent.by_insertion 2 (Some "Facebook") None Scenario.w3
              by_insertion_order) as [_ Hret].
  destruct (Hret eq_refl) as (l & El & _ & _ & _ & Hlen & _).
  assert (Recent.get_recent_businesses Recent.by_insertion 2 (Some "Facebook") None
            Scenario.w3 = (Ok Scenario.newest_two, Scenario.w3)) as Ec
    by vm_cast_no_check (eq_refl (Ok Scenario.newest_two, Scenario.w3)).
  assert (l = Scenario.newest_two) as -> by congruence.
  split_and!.
  - apply Hbig. reflexivity.
  - exact Ec.
  - vm_compute. reflexivity.
  - vm_compute. reflexivity.
  - rewrite Hlen. vm_compute. reflexivity.
Defined.
